(** * On-demand NAT gateway lifecycle: a shallow embedding of RequestGateway.py

    The handlers of [RequestGateway.py] are embedded as functions in a state
    and exception monad over an explicit model of the cloud provider.  The
    Python library functions the handlers call ([str] on a [datetime],
    [dateutil.parser.isoparse], [datetime] subtraction, [random.choice],
    [os.environ], the [jmespath] projections) are embedded next to them. *)

From Stdlib Require Import ZArith NArith Lia ZifyBool Ascii String List.
From stdpp Require Import gmap strings list stringmap.

Open Scope Z_scope.

(** ** Python exceptions and results *)

(** The exceptions the handlers can observe.  [ClientError] is botocore's
    exception for an error response of the provider: it carries the error
    code, the error message and the name of the operation. *)
Inductive exn : Type :=
  | ClientError (code message operation : string)
  | ParamValidationError (report : string)
  | WaiterError (reason : string)
  | KeyError (key : string)
  | IndexError (message : string)
  | TypeError (message : string)
  | ValueError (message : string)
  | OverflowError (message : string)
  | OtherError (name message : string).

(** [type(e).__name__] *)
Definition exn_name (e : exn) : string :=
  match e with
  | ClientError _ _ _ => "ClientError"
  | ParamValidationError _ => "ParamValidationError"
  | WaiterError _ => "WaiterError"
  | KeyError _ => "KeyError"
  | IndexError _ => "IndexError"
  | TypeError _ => "TypeError"
  | ValueError _ => "ValueError"
  | OverflowError _ => "OverflowError"
  | OtherError n _ => n
  end.

(** ['%s' % e] *)
Definition str_exn (e : exn) : string :=
  match e with
  | ClientError code message operation =>
      "An error occurred (" +:+ code +:+ ") when calling the " +:+ operation
        +:+ " operation: " +:+ message
  | ParamValidationError report => "Parameter validation failed: " +:+ report
  | WaiterError reason => reason
  | KeyError key => "'" +:+ key +:+ "'"
  | IndexError message => message
  | TypeError message => message
  | ValueError message => message
  | OverflowError message => message
  | OtherError _ message => message
  end.

Inductive result (A : Type) : Type :=
  | Ok (a : A)
  | Err (e : exn).
Arguments Ok {A} a.
Arguments Err {A} e.

Definition is_Err {A} (r : result A) : Prop :=
  match r with Ok _ => False | Err _ => True end.

Definition result_bind {A B} (r : result A) (k : A -> result B) : result B :=
  match r with
  | Ok a => k a
  | Err e => Err e
  end.

(** ** [datetime] and [timedelta] *)

Module PyDatetime.

(** A [timedelta] is represented by its total number of microseconds; the
    normalised (days, seconds, microseconds) triple of Python is ordered as
    this number is. *)
Definition timedelta : Type := Z.

Definition timedelta_minutes (m : Z) : timedelta := m * 60 * 1000000.
Definition timedelta_seconds (s : Z) : timedelta := s * 1000000.
Definition timedelta_days (d : Z) : timedelta := d * 86400 * 1000000.

(** A [datetime] value.  [tzinfo] is [None] for a naive value and the UTC
    offset in seconds of a fixed-offset zone ([tzutc] is offset 0) for an
    aware one. *)
Record datetime : Type := mk_datetime {
  year : Z;
  month : Z;
  day : Z;
  hour : Z;
  minute : Z;
  second : Z;
  microsecond : Z;
  tzinfo : option Z
}.

Definition _MAXORDINAL : Z := 3652059.

Definition _is_leap (y : Z) : bool :=
  (y mod 4 =? 0) && (negb (y mod 100 =? 0) || (y mod 400 =? 0)).

Definition _DAYS_IN_MONTH : list Z :=
  [-1; 31; 28; 31; 30; 31; 30; 31; 31; 30; 31; 30; 31].

Definition _DAYS_BEFORE_MONTH : list Z :=
  [-1; 0; 31; 59; 90; 120; 151; 181; 212; 243; 273; 304; 334].

Definition table (t : list Z) (i : Z) : Z := nth (Z.to_nat i) t 0.

Definition _days_before_year (y : Z) : Z :=
  let y' := y - 1 in y' * 365 + y' / 4 - y' / 100 + y' / 400.

Definition _days_in_month (y m : Z) : Z :=
  if (m =? 2) && _is_leap y then 29 else table _DAYS_IN_MONTH m.

Definition _days_before_month (y m : Z) : Z :=
  table _DAYS_BEFORE_MONTH m + (if (2 <? m) && _is_leap y then 1 else 0).

Definition _ymd2ord (y m d : Z) : Z :=
  _days_before_year y + _days_before_month y m + d.

Definition _DI400Y : Z := 146097.
Definition _DI100Y : Z := 36524.
Definition _DI4Y : Z := 1461.

Definition _ord2ymd (n0 : Z) : Z * Z * Z :=
  let n := n0 - 1 in
  let n400 := n / _DI400Y in
  let n := n mod _DI400Y in
  let n100 := n / _DI100Y in
  let n := n mod _DI100Y in
  let n4 := n / _DI4Y in
  let n := n mod _DI4Y in
  let n1 := n / 365 in
  let n := n mod 365 in
  let y := n400 * 400 + 1 + n100 * 100 + n4 * 4 + n1 in
  if (n1 =? 4) || (n100 =? 4) then (y - 1, 12, 31)
  else
    let leapyear := (n1 =? 3) && (negb (n4 =? 24) || (n100 =? 3)) in
    let m := Z.shiftr (n + 50) 5 in
    let preceding :=
      table _DAYS_BEFORE_MONTH m + (if (2 <? m) && leapyear then 1 else 0) in
    if n <? preceding then
      let m' := m - 1 in
      let preceding' :=
        preceding
        - (table _DAYS_IN_MONTH m' + (if (m' =? 2) && leapyear then 1 else 0)) in
      (y, m', n - preceding' + 1)
    else (y, m, n - preceding + 1).

(** [d.replace(tzinfo=tz)] *)
Definition replace_tzinfo (d : datetime) (tz : option Z) : datetime :=
  mk_datetime (year d) (month d) (day d) (hour d) (minute d) (second d)
    (microsecond d) tz.

(** The checks of the [datetime] constructor ([_check_date_fields],
    [_check_time_fields]). *)
Definition check_date_fields (y m d : Z) : bool :=
  (1 <=? y) && (y <=? 9999) && (1 <=? m) && (m <=? 12)
  && (1 <=? d) && (d <=? _days_in_month y m).

Definition check_time_fields (h mi s us : Z) : bool :=
  (0 <=? h) && (h <=? 23) && (0 <=? mi) && (mi <=? 59)
  && (0 <=? s) && (s <=? 59) && (0 <=? us) && (us <=? 999999).

Definition valid_datetime (d : datetime) : bool :=
  check_date_fields (year d) (month d) (day d)
  && check_time_fields (hour d) (minute d) (second d) (microsecond d).

(** [datetime(y, m, d, h, mi, s, us, tzinfo)] *)
Definition new_datetime (y m d h mi s us : Z) (tz : option Z) : result datetime :=
  if negb (check_date_fields y m d) then Err (ValueError "date field out of range")
  else if negb (check_time_fields h mi s us)
       then Err (ValueError "time field out of range")
       else Ok (mk_datetime y m d h mi s us tz).

Definition toordinal (d : datetime) : Z := _ymd2ord (year d) (month d) (day d).

(** Microseconds of the wall-clock value since ordinal day 0. *)
Definition wall_us (d : datetime) : Z :=
  ((toordinal d * 86400) + hour d * 3600 + minute d * 60 + second d) * 1000000
  + microsecond d.

(** [datetime.__sub__] on two [datetime] values. *)
Definition datetime_sub (a b : datetime) : result timedelta :=
  let base := wall_us a - wall_us b in
  match tzinfo a, tzinfo b with
  | None, None => Ok base
  | Some myoff, Some otoff => Ok (base + timedelta_seconds otoff - timedelta_seconds myoff)
  | _, _ => Err (TypeError "can't subtract offset-naive and offset-aware datetimes")
  end.

(** [datetime.__add__] with a [timedelta]. *)
Definition datetime_add (a : datetime) (delta : timedelta) : result datetime :=
  let total := wall_us a + delta in
  let days := total / 86400000000 in
  let rest := total mod 86400000000 in
  let seconds := rest / 1000000 in
  let us := rest mod 1000000 in
  let h := seconds / 3600 in
  let rem := seconds mod 3600 in
  if (0 <? days) && (days <=? _MAXORDINAL) then
    let '(y, m, d) := _ord2ymd days in
    Ok (mk_datetime y m d h (rem / 60) (rem mod 60) us (tzinfo a))
  else Err (OverflowError "date value out of range").

End PyDatetime.

(** ** Python strings: slices, [int], ['%0wd'] *)

Module PyStr.

(** [s[i:j]] and [s[i:]] *)
Definition slice (s : string) (i j : nat) : string := substring i (j - i) s.
Definition slice_from (s : string) (i : nat) : string :=
  substring i (String.length s - i) s.

Definition digit_char (d : N) : ascii := ascii_of_N (48 + d).

Definition digit_val (c : ascii) : option N :=
  let n := N_of_ascii c in
  if ((48 <=? n) && (n <=? 57))%N then Some (n - 48)%N else None.

(** The decimal digits of [n], most significant first, at least one. *)
Fixpoint N_digits_go (fuel : nat) (n : N) (acc : string) : string :=
  let acc' := String (digit_char (n mod 10)) acc in
  match fuel with
  | O => acc'
  | S fuel' => if (n / 10 =? 0)%N then acc' else N_digits_go fuel' (n / 10) acc'
  end.

Definition str_N (n : N) : string := N_digits_go (N.to_nat (N.size n)) n EmptyString.

Fixpoint zeros (k : nat) : string :=
  match k with
  | O => EmptyString
  | S k' => String "0" (zeros k')
  end.

Definition zfill (w : nat) (s : string) : string :=
  zeros (w - String.length s) +:+ s.

(** ['%0wd' % n]: the sign counts in the width. *)
Definition fmt_0d (w : nat) (n : Z) : string :=
  if n <? 0 then String "-" (zfill (w - 1) (str_N (Z.abs_N n)))
  else zfill w (str_N (Z.to_N n)).

(** Exactly [w] decimal digits of [n], in front of [acc]. *)
Fixpoint fixed_digits (w : nat) (n : N) (acc : string) : string :=
  match w with
  | O => acc
  | S w' => fixed_digits w' (n / 10) (String (digit_char (n mod 10)) acc)
  end.

(** Whitespace as [int] on bytes skips it. *)
Definition is_space (c : ascii) : bool :=
  let n := N_of_ascii c in ((n =? 32) || ((9 <=? n) && (n <=? 13)))%N.

Fixpoint lstrip (s : string) : string :=
  match s with
  | String c r => if is_space c then lstrip r else s
  | EmptyString => EmptyString
  end.

Fixpoint rstrip (s : string) : string :=
  match s with
  | String c r =>
      match rstrip r with
      | EmptyString => if is_space c then EmptyString else String c EmptyString
      | r' => String c r'
      end
  | EmptyString => EmptyString
  end.

Definition strip (s : string) : string := lstrip (rstrip s).

(** Digits with single underscores allowed between them. *)
Fixpoint int_digits (s : string) (acc : N) (prev_digit : bool) : option N :=
  match s with
  | EmptyString => if prev_digit then Some acc else None
  | String c r =>
      match digit_val c with
      | Some d => int_digits r (10 * acc + d)%N true
      | None =>
          if Ascii.eqb c "_" && prev_digit then int_digits r acc false else None
      end
  end.

(** An optional sign in front of the digits: the factor and the rest. *)
Definition split_sign (t : string) : Z * string :=
  match t with
  | String "+" r => (1, r)
  | String "-" r => (-1, r)
  | _ => (1, t)
  end.

(** [int(s)] on a byte string, base 10. *)
Definition py_int (s : string) : result Z :=
  let '(sign, body) := split_sign (strip s) in
  match int_digits body 0%N false with
  | Some n => Ok (sign * Z.of_N n)
  | None => Err (ValueError ("invalid literal for int() with base 10: " +:+ s))
  end.

(** The longest prefix of decimal digits of [s]. *)
Fixpoint digit_run (s : string) : string :=
  match s with
  | String c r =>
      match digit_val c with
      | Some _ => String c (digit_run r)
      | None => EmptyString
      end
  | EmptyString => EmptyString
  end.

Definition is_ascii_string (s : string) : bool :=
  forallb (fun c => (N_of_ascii c <? 128)%N) (list_ascii_of_string s).

End PyStr.

Declare Scope res_scope.
Delimit Scope res_scope with res.
Notation "'let*' x := m 'in' k" := (result_bind m (fun x => k))
  (at level 10, x name, m at level 100, k at level 200, only parsing) : res_scope.
Notation "'let*' ' p := m 'in' k" := (result_bind m (fun x => let 'p := x in k))
  (at level 10, p pattern, m at level 100, k at level 200, only parsing) : res_scope.

Definition raise_if (b : bool) (e : exn) : result unit :=
  if b then Err e else Ok tt.

(** ** [str(datetime)] *)

Module PyFormat.
Import PyDatetime PyStr.

(** [_format_time] with [timespec='auto'] *)
Definition _format_time (hh mm ss us : Z) : string :=
  let base := fmt_0d 2 hh +:+ ":" +:+ fmt_0d 2 mm +:+ ":" +:+ fmt_0d 2 ss in
  if us =? 0 then base else base +:+ "." +:+ fmt_0d 6 us.

(** [_format_offset]: the offset is a whole number of seconds here. *)
Definition _format_offset (off : option Z) : string :=
  match off with
  | None => EmptyString
  | Some o =>
      let sign := if o <? 0 then "-" else "+" in
      let a := Z.abs o in
      let hh := a / 3600 in
      let mm := (a mod 3600) / 60 in
      let ss := (a mod 3600) mod 60 in
      let s := sign +:+ fmt_0d 2 hh +:+ ":" +:+ fmt_0d 2 mm in
      if ss =? 0 then s else s +:+ ":" +:+ fmt_0d 2 ss
  end.

(** [datetime.isoformat(sep)] *)
Definition isoformat (sep : ascii) (d : datetime) : string :=
  fmt_0d 4 (year d) +:+ "-" +:+ fmt_0d 2 (month d) +:+ "-" +:+ fmt_0d 2 (day d)
  +:+ String sep (_format_time (hour d) (minute d) (second d) (microsecond d))
  +:+ _format_offset (tzinfo d).

(** [str(d)], which is what ['%s' % d] writes. *)
Definition str_datetime (d : datetime) : string := isoformat " " d.

(** [str(td)] for a [timedelta]: [D day[s], H:MM:SS[.ffffff]]. *)
Definition str_timedelta (td : timedelta) : string :=
  let days := td / 86400000000 in
  let rest := td mod 86400000000 in
  let seconds := rest / 1000000 in
  let us := rest mod 1000000 in
  let hh := seconds / 3600 in
  let mm := (seconds mod 3600) / 60 in
  let ss := seconds mod 60 in
  let s := fmt_0d 1 hh +:+ ":" +:+ fmt_0d 2 mm +:+ ":" +:+ fmt_0d 2 ss in
  let s :=
    if days =? 0 then s
    else fmt_0d 1 days +:+ (if Z.abs days =? 1 then " day, " else " days, ") +:+ s in
  if us =? 0 then s else s +:+ "." +:+ fmt_0d 6 us.

End PyFormat.

(** ** [dateutil.parser.isoparse] *)

Module Dateutil.
Import PyDatetime PyStr.
Local Open Scope res_scope.
Local Open Scope nat_scope.

(** [[hour, minute, second, microsecond, tzinfo]] *)
Record time_components : Type := mk_time_components {
  c_hour : Z;
  c_minute : Z;
  c_second : Z;
  c_microsecond : Z;
  c_tzinfo : option Z
}.

(** [components[comp] = v] for [comp] in 0..3 *)
Definition set_component (c : time_components) (comp : Z) (v : Z) : time_components :=
  if (comp =? 0)%Z then mk_time_components v (c_minute c) (c_second c) (c_microsecond c) (c_tzinfo c)
  else if (comp =? 1)%Z then mk_time_components (c_hour c) v (c_second c) (c_microsecond c) (c_tzinfo c)
  else if (comp =? 2)%Z then mk_time_components (c_hour c) (c_minute c) v (c_microsecond c) (c_tzinfo c)
  else mk_time_components (c_hour c) (c_minute c) (c_second c) v (c_tzinfo c).

Definition set_tz (c : time_components) (tz : option Z) : time_components :=
  mk_time_components (c_hour c) (c_minute c) (c_second c) (c_microsecond c) tz.

(** [_parse_tzstr], with [zero_as_utc=True] *)
Definition _parse_tzstr (tzstr : string) : result (option Z) :=
  if String.eqb tzstr "Z" || String.eqb tzstr "z" then Ok (Some 0%Z)
  else
    let len := String.length tzstr in
    let* _ := raise_if (negb ((len =? 3) || (len =? 5) || (len =? 6)))
           (ValueError "Time zone offset must be 1, 3, 5 or 6 characters") in
    let* mult := (if String.eqb (slice tzstr 0 1) "-" then Ok (-1)%Z
             else if String.eqb (slice tzstr 0 1) "+" then Ok 1%Z
             else Err (ValueError "Time zone offset requires sign")) in
    let* hours := py_int (slice tzstr 1 3) in
    let* minutes := (if len =? 3 then Ok 0%Z
                else py_int (slice_from tzstr
                               (if String.eqb (slice tzstr 3 4) ":" then 4 else 3))) in
    if ((hours =? 0) && (minutes =? 0))%Z then Ok (Some 0%Z)
    else
      let* _ := raise_if (59 <? minutes)%Z (ValueError "Invalid minutes in time zone offset") in
      let* _ := raise_if (23 <? hours)%Z (ValueError "Invalid hours in time zone offset") in
      Ok (Some (mult * (hours * 60 + minutes) * 60)%Z).

(** A match of [_FRACTION_REGEX] = [[\.,]([0-9]+)] at the start of [s]: the
    digits of group 1. *)
Definition fraction_match (s : string) : option string :=
  match s with
  | String c r =>
      if Ascii.eqb c "." || Ascii.eqb c "," then
        match digit_run r with
        | EmptyString => None
        | ds => Some ds
        end
      else None
  | EmptyString => None
  end.

(** The [while pos < len_str and comp < 5] loop of [_parse_isotime]; [comps]
    lists the values [comp] takes after its increment. *)
Fixpoint isotime_loop (comps : list Z) (timestr : string) (pos : nat)
    (has_sep : bool) (components : time_components)
    : result (time_components * nat) :=
  let len_str := String.length timestr in
  match comps with
  | [] => Ok (components, pos)
  | comp :: comps' =>
      if negb (pos <? len_str) then Ok (components, pos)
      else
        let c := slice timestr pos (pos + 1) in
        if String.eqb c "-" || String.eqb c "+" || String.eqb c "Z" || String.eqb c "z"
        then
          let* tz := _parse_tzstr (slice_from timestr pos) in
          Ok (set_tz components tz, len_str)
        else
          let* ' (has_sep, pos) :=
            (if (comp =? 1)%Z && String.eqb c ":" then Ok (true, pos + 1)
             else if (comp =? 2)%Z && has_sep then
               if negb (String.eqb c ":")
               then Err (ValueError "Inconsistent use of colon separator")
               else Ok (has_sep, pos + 1)
             else Ok (has_sep, pos)) in
          if (comp <? 3)%Z then
            let* v := py_int (slice timestr pos (pos + 2)) in
            isotime_loop comps' timestr (pos + 2) has_sep (set_component components comp v)
          else if (comp =? 3)%Z then
            match fraction_match (slice_from timestr pos) with
            | None => isotime_loop comps' timestr pos has_sep components
            | Some ds =>
                let us_str := slice ds 0 6 in
                let* v := py_int us_str in
                isotime_loop comps' timestr (pos + 1 + String.length ds) has_sep
                  (set_component components comp
                     (v * 10 ^ (6 - Z.of_nat (String.length us_str)))%Z)
            end
          else isotime_loop comps' timestr pos has_sep components
  end.

Definition _parse_isotime (timestr : string) : result time_components :=
  let len_str := String.length timestr in
  let* _ := raise_if (len_str <? 2) (ValueError "ISO time too short") in
  let* ' (components, pos) :=
    isotime_loop [0; 1; 2; 3; 4; 5]%Z timestr 0 false
      (mk_time_components 0 0 0 0 None) in
  let* _ := raise_if (pos <? len_str) (ValueError "Unused components in ISO string") in
  let* _ := raise_if
         ((c_hour components =? 24)%Z
          && negb ((c_minute components =? 0) && (c_second components =? 0)
                   && (c_microsecond components =? 0))%Z)
         (ValueError "Hour may only be 24 at 24:00:00.000") in
  Ok components.

Definition _parse_isodate_common (dt_str : string) : result ((Z * Z * Z) * nat) :=
  let len_str := String.length dt_str in
  let* _ := raise_if (len_str <? 4) (ValueError "ISO string too short") in
  let* y := py_int (slice dt_str 0 4) in
  let pos := 4 in
  if len_str <=? pos then Ok ((y, 1, 1)%Z, pos)
  else
    let has_sep := String.eqb (slice dt_str pos (pos + 1)) "-" in
    let pos := if has_sep then pos + 1 else pos in
    let* _ := raise_if (len_str - pos <? 2) (ValueError "Invalid common month") in
    let* m := py_int (slice dt_str pos (pos + 2)) in
    let pos := pos + 2 in
    if len_str <=? pos then
      if has_sep then Ok ((y, m, 1)%Z, pos) else Err (ValueError "Invalid ISO format")
    else
      let* pos :=
        (if has_sep then
           let* _ := raise_if (negb (String.eqb (slice dt_str pos (pos + 1)) "-"))
                       (ValueError "Invalid separator in ISO string") in
           Ok (pos + 1)
         else Ok pos) in
      let* _ := raise_if (len_str - pos <? 2) (ValueError "Invalid common day") in
      let* d := py_int (slice dt_str pos (pos + 2)) in
      Ok ((y, m, d), pos + 2).

Section Isoparser.

(** The fallback of [_parse_isodate] for ISO week dates and ordinal dates
    ([_parse_isodate_uncommon]) is a parameter of the development. *)
Variable _parse_isodate_uncommon : string -> result ((Z * Z * Z) * nat).

Definition _parse_isodate (dt_str : string) : result ((Z * Z * Z) * nat) :=
  match _parse_isodate_common dt_str with
  | Ok r => Ok r
  | Err (ValueError _) => _parse_isodate_uncommon dt_str
  | Err e => Err e
  end.

(** [isoparse], with the default separator ([sep=None]: any single
    character separates date and time). *)
Definition isoparse (dt_str : string) : result datetime :=
  let* _ := raise_if (negb (is_ascii_string dt_str))
         (ValueError "ISO-8601 strings should contain only ASCII characters") in
  let* ' ((y, m, d), pos) := _parse_isodate dt_str in
  if pos <? String.length dt_str then
    let* t := _parse_isotime (slice_from dt_str (pos + 1)) in
    if (c_hour t =? 24)%Z then
      let* dt := new_datetime y m d 0 (c_minute t) (c_second t) (c_microsecond t) (c_tzinfo t) in
      datetime_add dt (timedelta_days 1)
    else
      new_datetime y m d (c_hour t) (c_minute t) (c_second t) (c_microsecond t) (c_tzinfo t)
  else new_datetime y m d 0 0 0 0 None.

End Isoparser.

End Dateutil.

(** ** JSON values: the Lambda event and the returned dictionaries *)

#[local] Set Warnings "-register-all".
Inductive json : Type :=
  | JNull
  | JBool (b : bool)
  | JNum (n : Z)
  | JStr (s : string)
  | JList (l : list json)
  | JDict (d : list (string * json)).

Fixpoint assoc_lookup {A} (k : string) (d : list (string * A)) : option A :=
  match d with
  | [] => None
  | (k', v) :: d' => if String.eqb k k' then Some v else assoc_lookup k d'
  end.

(** [d[k] = v] on a dictionary *)
Fixpoint assoc_set {A} (k : string) (v : A) (d : list (string * A)) : list (string * A) :=
  match d with
  | [] => [(k, v)]
  | (k', v') :: d' => if String.eqb k k' then (k, v) :: d' else (k', v') :: assoc_set k v d'
  end.

(** [k in d] *)
Definition dict_mem {A} (k : string) (d : list (string * A)) : bool :=
  match assoc_lookup k d with Some _ => true | None => false end.

(** [v[k]] for a string [k] *)
Definition getitem_str (v : json) (k : string) : result json :=
  match v with
  | JDict d =>
      match assoc_lookup k d with
      | Some x => Ok x
      | None => Err (KeyError k)
      end
  | JList _ => Err (TypeError "list indices must be integers or slices, not str")
  | JStr _ => Err (TypeError "string indices must be integers")
  | _ => Err (TypeError "object is not subscriptable")
  end.

(** [v[0]] *)
Definition getitem_0 (v : json) : result json :=
  match v with
  | JList (x :: _) => Ok x
  | JList [] => Err (IndexError "list index out of range")
  | JStr (String c _) => Ok (JStr (String c EmptyString))
  | JStr EmptyString => Err (IndexError "string index out of range")
  | JDict _ => Err (KeyError "0")
  | _ => Err (TypeError "object is not subscriptable")
  end.

(** ** The provider and the runtime environment *)

Record nat_gateway : Type := mk_nat_gateway {
  gw_State : string;
  gw_VpcId : string;
  gw_CreateTime : PyDatetime.datetime;
  gw_Tags : gmap string string
}.

(** A route table: its tags and its routes, destination CIDR block to the
    identity of the target gateway. *)
Record route_table : Type := mk_route_table {
  rt_Tags : gmap string string;
  rt_Routes : gmap string string
}.

Record address : Type := mk_address {
  addr_AllocationId : string;
  addr_Tags : gmap string string
}.

Record subnet : Type := mk_subnet {
  sn_SubnetId : string;
  sn_VpcId : string;
  sn_Tags : gmap string string
}.

(** The calls made on the boto3 clients ([ec2], [lambda], [codepipeline]),
    with their arguments. *)
Inductive call : Type :=
  | DescribeNatGateways (states : list string) (vpc_id : string)
  | DescribeAddresses (name for_vpc : string)
  | DescribeSubnets (public vpc_id : string)
  | CreateNatGateway (allocation_id : option string) (subnet_id : string)
  | CreateTags (resources : list string) (tags : list (string * string))
  | WaitNatGatewayAvailable (ids : list string)
  | DescribeRouteTables (values : list string)
  | DeleteRoute (route_table_id cidr : string)
  | CreateRoute (route_table_id cidr gateway_id : string)
  | DeleteNatGateway (gateway_id : string)
  | LambdaInvoke (function_name invocation_type : string) (payload : json)
  | PutJobSuccessResult (job_id : json)
  | PutJobFailureResult (job_id : json) (failure_type message : string).

(** Everything outside the process: the provider's resources, the process
    environment, the clock, the random source, the failures the provider
    injects ([faults], indexed by the number of client calls made so far) and
    the client calls made so far ([trace], oldest first). *)
Record world : Type := mk_world {
  environ : gmap string string;
  nat_gateways : gmap string nat_gateway;
  route_tables : gmap string route_table;
  addresses : list address;
  subnets : list subnet;
  clock : nat -> PyDatetime.datetime;
  ticks : nat;
  local_utcoffset : Z;
  random : nat -> nat;
  draws : nat;
  faults : nat -> option exn;
  trace : list call
}.

Definition set_nat_gateways (g : gmap string nat_gateway) (w : world) : world :=
  mk_world (environ w) g (route_tables w) (addresses w) (subnets w) (clock w)
    (ticks w) (local_utcoffset w) (random w) (draws w) (faults w) (trace w).

Definition set_route_tables (r : gmap string route_table) (w : world) : world :=
  mk_world (environ w) (nat_gateways w) r (addresses w) (subnets w) (clock w)
    (ticks w) (local_utcoffset w) (random w) (draws w) (faults w) (trace w).

Definition set_ticks (n : nat) (w : world) : world :=
  mk_world (environ w) (nat_gateways w) (route_tables w) (addresses w) (subnets w)
    (clock w) n (local_utcoffset w) (random w) (draws w) (faults w) (trace w).

Definition set_draws (n : nat) (w : world) : world :=
  mk_world (environ w) (nat_gateways w) (route_tables w) (addresses w) (subnets w)
    (clock w) (ticks w) (local_utcoffset w) (random w) n (faults w) (trace w).

Definition log (c : call) (w : world) : world :=
  mk_world (environ w) (nat_gateways w) (route_tables w) (addresses w) (subnets w)
    (clock w) (ticks w) (local_utcoffset w) (random w) (draws w) (faults w)
    (trace w ++ [c]).

(** ** The monad of the handlers: state and exceptions *)

Definition M (A : Type) : Type := world -> result A * world.

Definition ret {A} (a : A) : M A := fun w => (Ok a, w).
Definition raise {A} (e : exn) : M A := fun w => (Err e, w).
Definition bind {A B} (m : M A) (k : A -> M B) : M B :=
  fun w =>
    match m w with
    | (Ok a, w') => k a w'
    | (Err e, w') => (Err e, w')
    end.
Definition lift {A} (r : result A) : M A := fun w => (r, w).

(** [try: m except BaseException as e: h e] *)
Definition try_except {A} (m : M A) (h : exn -> M A) : M A :=
  fun w =>
    match m w with
    | (Ok a, w') => (Ok a, w')
    | (Err e, w') => h e w'
    end.

Declare Scope prog_scope.
Delimit Scope prog_scope with prog.
Notation "'let*' x := m 'in' k" := (bind m (fun x => k))
  (at level 10, x name, m at level 100, k at level 200, only parsing) : prog_scope.
Notation "m ;;; k" := (bind m (fun _ => k))
  (at level 100, k at level 200, right associativity, only parsing) : prog_scope.

(** [for x in l: body x] *)
Fixpoint for_each {A} (l : list A) (body : A -> M unit) : M unit :=
  match l with
  | [] => ret tt
  | x :: l' => bind (body x) (fun _ => for_each l' body)
  end.

Local Open Scope prog_scope.

(** *** The Python runtime *)

(** [os.environ[k]] *)
Definition os_environ (k : string) : M string :=
  fun w =>
    match environ w !! k with
    | Some v => (Ok v, w)
    | None => (Err (KeyError k), w)
    end.

(** [datetime.utcnow()]: a reading of the clock, as a naive value. *)
Definition datetime_utcnow : M PyDatetime.datetime :=
  fun w =>
    (Ok (PyDatetime.replace_tzinfo (clock w (ticks w)) None),
     set_ticks (S (ticks w)) w).

(** The reading [t] of the clock as a wall-clock value at offset [off], with
    [tzinfo] set to [tz].  [tzutc.fromutc] returns its argument; a
    fixed-offset zone adds its offset. *)
Definition at_offset (t : PyDatetime.datetime) (off : Z) (tz : option Z)
    : result PyDatetime.datetime :=
  let t' := PyDatetime.replace_tzinfo t tz in
  if off =? 0 then Ok t'
  else PyDatetime.datetime_add t' (PyDatetime.timedelta_seconds off).

(** [datetime.now(tz)]: a reading of the clock, aware in the zone [tz], or
    naive local time when [tz] is [None]. *)
Definition datetime_now (tz : option Z) : M PyDatetime.datetime :=
  fun w =>
    let t := clock w (ticks w) in
    let w' := set_ticks (S (ticks w)) w in
    match tz with
    | Some off => (at_offset t off (Some off), w')
    | None => (at_offset t (local_utcoffset w) None, w')
    end.

(** [random.choice(seq)] *)
Definition random_choice {A} (seq : list A) : M A :=
  fun w =>
    match seq with
    | [] => (Err (IndexError "Cannot choose from an empty sequence"), w)
    | x :: _ =>
        (Ok (nth (random w (draws w) mod length seq)%nat seq x),
         set_draws (S (draws w)) w)
    end.

(** *** The provider's operations *)

(** Every client call is recorded in the trace; the provider may fail it
    with the exception [faults] holds for it, and serves it otherwise. *)
Definition request {A} (c : call) (serve : world -> result A * world) : M A :=
  fun w =>
    let w' := log c w in
    match faults w (length (trace w)) with
    | Some e => (Err e, w')
    | None => serve w'
    end.

Definition has_tag (tags : gmap string string) (k : string) (values : list string) : bool :=
  match tags !! k with
  | Some v => bool_decide (v ∈ values)
  | None => false
  end.

(** An entry of the inventory: the projection
    [[NatGatewayId, State, CreateTime, Tags[?Key=='LastRequested'].Value | [0]]]. *)
Definition inventory_entry : Type :=
  string * string * PyDatetime.datetime * option string.

Definition project_gateway (kv : string * nat_gateway) : inventory_entry :=
  (kv.1, gw_State kv.2, gw_CreateTime kv.2, gw_Tags kv.2 !! "LastRequested").

Definition gateway_matches (states : list string) (vpc_id : string)
    (kv : string * nat_gateway) : bool :=
  bool_decide (gw_State kv.2 ∈ states) && String.eqb (gw_VpcId kv.2) vpc_id.

(** [ec2.describe_nat_gateways] with a state filter and a [vpc-id] filter,
    followed by the [jmespath] projection of the response. *)
Definition ec2_describe_nat_gateways (states : list string) (vpc_id : string)
    : M (list inventory_entry) :=
  request (DescribeNatGateways states vpc_id)
    (fun w =>
       (Ok (project_gateway
              <$> filter (fun kv => gateway_matches states vpc_id kv = true)
                    (map_to_list (nat_gateways w))),
        w)).

Definition address_matches (name for_vpc : string) (a : address) : bool :=
  has_tag (addr_Tags a) "Name" [name] && has_tag (addr_Tags a) "ForVpc" [for_vpc].

(** [ec2.describe_addresses] with the filters [tag:Name] and [tag:ForVpc],
    followed by [Addresses[0].AllocationId]. *)
Definition ec2_describe_addresses (name for_vpc : string) : M (option string) :=
  request (DescribeAddresses name for_vpc)
    (fun w =>
       (Ok (head (addr_AllocationId
                    <$> filter (fun a => address_matches name for_vpc a = true)
                          (addresses w))),
        w)).

(** [ec2.describe_subnets] with the filters [tag:Public] and [vpc-id],
    followed by [Subnets[*].SubnetId]. *)
Definition subnet_matches (public vpc_id : string) (s : subnet) : bool :=
  has_tag (sn_Tags s) "Public" [public] && String.eqb (sn_VpcId s) vpc_id.

Definition ec2_describe_subnets (public vpc_id : string) : M (list string) :=
  request (DescribeSubnets public vpc_id)
    (fun w =>
       (Ok (sn_SubnetId
              <$> filter (fun s => subnet_matches public vpc_id s = true) (subnets w)),
        w)).

(** [ec2.create_nat_gateway], followed by [NatGateway.NatGatewayId].  The
    client refuses a null [AllocationId] when it validates the parameters. *)
Definition ec2_create_nat_gateway (allocation_id : option string) (subnet_id : string)
    : M string :=
  request (CreateNatGateway allocation_id subnet_id)
    (fun w =>
       match allocation_id with
       | None =>
           (Err (ParamValidationError "Invalid type for parameter AllocationId, value: None"), w)
       | Some a =>
           if negb (bool_decide (a ∈ addr_AllocationId <$> addresses w)) then
             (Err (ClientError "InvalidAllocationID.NotFound"
                     "The allocation ID does not exist" "CreateNatGateway"), w)
           else
             match filter (fun s => sn_SubnetId s = subnet_id) (subnets w) with
             | [] =>
                 (Err (ClientError "InvalidSubnetID.NotFound"
                         "The subnet ID does not exist" "CreateNatGateway"), w)
             | s :: _ =>
                 let id := fresh_string "nat-" (nat_gateways w) in
                 let created := PyDatetime.replace_tzinfo (clock w (ticks w)) (Some 0) in
                 (Ok id,
                  set_nat_gateways
                    (<[id := mk_nat_gateway "pending" (sn_VpcId s) created ∅]>
                       (nat_gateways w)) w)
             end
       end).

Definition add_tags (tags : list (string * string)) (g : nat_gateway) : nat_gateway :=
  mk_nat_gateway (gw_State g) (gw_VpcId g) (gw_CreateTime g)
    (foldl (fun m kv => <[kv.1 := kv.2]> m) (gw_Tags g) tags).

(** [ec2.create_tags] on gateways: each tag is set, overwriting. *)
Definition ec2_create_tags (resources : list string) (tags : list (string * string))
    : M unit :=
  request (CreateTags resources tags)
    (fun w =>
       if forallb (fun r => bool_decide (is_Some (nat_gateways w !! r))) resources then
         (Ok tt,
          set_nat_gateways
            (foldl (fun m r => alter (add_tags tags) r m) (nat_gateways w) resources) w)
       else
         (Err (ClientError "InvalidNatGatewayID.NotFound"
                 "The NAT gateway ID does not exist" "CreateTags"), w)).

Definition set_state (st : string) (g : nat_gateway) : nat_gateway :=
  mk_nat_gateway st (gw_VpcId g) (gw_CreateTime g) (gw_Tags g).

(** [ec2.get_waiter('nat_gateway_available').wait]: returns once the
    gateways are available. *)
Definition ec2_wait_nat_gateway_available (ids : list string) : M unit :=
  request (WaitNatGatewayAvailable ids)
    (fun w =>
       if forallb
            (fun r =>
               match nat_gateways w !! r with
               | Some g => bool_decide (gw_State g ∈ ["pending"; "available"])
               | None => false
               end) ids
       then
         (Ok tt,
          set_nat_gateways
            (foldl (fun m r => alter (set_state "available") r m) (nat_gateways w) ids) w)
       else (Err (WaiterError "Waiter NatGatewayAvailable failed"), w)).

(** [ec2.describe_route_tables] with the filter [tag:OnDemandNAT], followed
    by [RouteTables[*].RouteTableId]. *)
Definition ec2_describe_route_tables (values : list string) : M (list string) :=
  request (DescribeRouteTables values)
    (fun w =>
       (Ok (fst <$> filter (fun kv => has_tag (rt_Tags kv.2) "OnDemandNAT" values = true)
                      (map_to_list (route_tables w))),
        w)).

Definition set_routes (r : gmap string string) (t : route_table) : route_table :=
  mk_route_table (rt_Tags t) r.

(** [ec2.delete_route] *)
Definition ec2_delete_route (route_table_id cidr : string) : M unit :=
  request (DeleteRoute route_table_id cidr)
    (fun w =>
       match route_tables w !! route_table_id with
       | None =>
           (Err (ClientError "InvalidRouteTableID.NotFound"
                   "The route table ID does not exist" "DeleteRoute"), w)
       | Some t =>
           match rt_Routes t !! cidr with
           | None =>
               (Err (ClientError "InvalidRoute.NotFound"
                       "no route with that destination-cidr-block in route table"
                       "DeleteRoute"), w)
           | Some _ =>
               (Ok tt,
                set_route_tables
                  (<[route_table_id := set_routes (delete cidr (rt_Routes t)) t]>
                     (route_tables w)) w)
           end
       end).

(** [ec2.create_route] with a [NatGatewayId] target *)
Definition ec2_create_route (route_table_id cidr gateway_id : string) : M unit :=
  request (CreateRoute route_table_id cidr gateway_id)
    (fun w =>
       match route_tables w !! route_table_id with
       | None =>
           (Err (ClientError "InvalidRouteTableID.NotFound"
                   "The route table ID does not exist" "CreateRoute"), w)
       | Some t =>
           match rt_Routes t !! cidr with
           | Some _ =>
               (Err (ClientError "RouteAlreadyExists"
                       "The route identified by the destination already exists"
                       "CreateRoute"), w)
           | None =>
               match nat_gateways w !! gateway_id with
               | None =>
                   (Err (ClientError "InvalidNatGatewayID.NotFound"
                           "The NAT gateway ID does not exist" "CreateRoute"), w)
               | Some _ =>
                   (Ok tt,
                    set_route_tables
                      (<[route_table_id := set_routes (<[cidr := gateway_id]> (rt_Routes t)) t]>
                         (route_tables w)) w)
               end
           end
       end).

(** [ec2.delete_nat_gateway] *)
Definition ec2_delete_nat_gateway (gateway_id : string) : M unit :=
  request (DeleteNatGateway gateway_id)
    (fun w =>
       match nat_gateways w !! gateway_id with
       | None =>
           (Err (ClientError "NatGatewayNotFound"
                   "The NAT gateway was not found" "DeleteNatGateway"), w)
       | Some g =>
           (Ok tt,
            set_nat_gateways (<[gateway_id := set_state "deleting" g]> (nat_gateways w)) w)
       end).

(** The parameter validation of a string argument of a client call. *)
Definition validate_str (param : string) (v : json) : result unit :=
  match v with
  | JStr _ => Ok tt
  | _ => Err (ParamValidationError ("Invalid type for parameter " +:+ param))
  end.

(** [boto3.client('lambda').invoke] *)
Definition lambda_invoke (function_name invocation_type : string) (payload : json)
    : M unit :=
  request (LambdaInvoke function_name invocation_type payload)
    (fun w => (validate_str "Payload" payload, w)).

(** [boto3.client('codepipeline').put_job_success_result] *)
Definition cp_put_job_success_result (job_id : json) : M unit :=
  request (PutJobSuccessResult job_id)
    (fun w => (validate_str "jobId" job_id, w)).

(** [boto3.client('codepipeline').put_job_failure_result] *)
Definition cp_put_job_failure_result (job_id : json) (failure_type message : string)
    : M unit :=
  request (PutJobFailureResult job_id failure_type message)
    (fun w => (validate_str "jobId" job_id, w)).

(** ** Observations on a world *)

(** The client calls made between [w] and a later world [w']. *)
Definition new_calls (w w' : world) : list call :=
  drop (length (trace w)) (trace w').

(** The value [datetime.utcnow()] returns at tick [k]. *)
Definition utcnow_at (w : world) (k : nat) : PyDatetime.datetime :=
  PyDatetime.replace_tzinfo (clock w k) None.

(** The target of the default route of a route table. *)
Definition default_route (w : world) (route_table_id : string) : option string :=
  match route_tables w !! route_table_id with
  | Some t => rt_Routes t !! "0.0.0.0/0"
  | None => None
  end.

(** The route tables [update_route_tables] selects. *)
Definition on_demand_table (t : route_table) : bool :=
  has_tag (rt_Tags t) "OnDemandNAT" ["Yes"; "True"].

(** The [LastRequested] tag of a gateway. *)
Definition last_requested (w : world) (gateway_id : string) : option string :=
  match nat_gateways w !! gateway_id with
  | Some g => gw_Tags g !! "LastRequested"
  | None => None
  end.

(** The gateways the inventory query of [list_nat_gateways] matches. *)
Definition inventory (w : world) (vpc_id : string) : list inventory_entry :=
  project_gateway
    <$> filter (fun kv => gateway_matches ["pending"; "available"] vpc_id kv = true)
          (map_to_list (nat_gateways w)).

Definition is_route_call (c : call) : bool :=
  match c with
  | DeleteRoute _ _ | CreateRoute _ _ _ => true
  | _ => false
  end.

(** Between [w] and [w'] only calls that satisfy [P] are made. *)
Definition calls_in (P : call -> bool) (w w' : world) : Prop :=
  exists l, trace w' = trace w ++ l /\ forallb P l = true.

(** Between [w] and [w'] no route is deleted or created: the route tables
    are the same and no [DeleteRoute] or [CreateRoute] call is made. *)
Definition keeps_routes (w w' : world) : Prop :=
  route_tables w' = route_tables w
  /\ calls_in (fun c => negb (is_route_call c)) w w'.

Definition is_create_gateway_call (c : call) : bool :=
  match c with
  | CreateNatGateway _ _ => true
  | _ => false
  end.


Definition no_create_gateway (c : call) : bool := negb (is_create_gateway_call c).

(** Between [w] and [w'] the [LastRequested] tag of the gateway was set to
    the value of [datetime.utcnow()] at one of the ticks in between. *)
Definition refreshed_between (w w' : world) (gateway_id : string) : Prop :=
  exists k,
    (ticks w <= k < ticks w')%nat
    /\ last_requested w' gateway_id
       = Some (PyFormat.str_datetime (utcnow_at w' k)).

(** The same gateways exist in [w] and in [w']. *)
Definition same_gateway_ids (w w' : world) : Prop :=
  forall id, is_Some (nat_gateways w' !! id) <-> is_Some (nat_gateways w !! id).

(** ** The handlers of [RequestGateway.py] *)

Definition list_nat_gateways : M (option (list inventory_entry)) :=
  let* vpc_id := os_environ "VPC_ID" in
  let* gateways := ec2_describe_nat_gateways ["pending"; "available"] vpc_id in
  if (0 <? length gateways)%nat then ret (Some gateways) else ret None.

Definition create_nat_gateway : M string :=
  let* vpc_name := os_environ "VPC_NAME" in
  let* allocId := ec2_describe_addresses "OnDemandNAT-IPAddr" vpc_name in
  let* vpc_id := os_environ "VPC_ID" in
  let* subnet_list := ec2_describe_subnets "Yes" vpc_id in
  let* subnetId := random_choice subnet_list in
  let* gatewayId := ec2_create_nat_gateway allocId subnetId in
  let* now := datetime_utcnow in
  let* vpc_name := os_environ "VPC_NAME" in
  ec2_create_tags [gatewayId]
    [("OnDemandNAT", "True"); ("Name", "OnDemandNAT-Gateway");
     ("LastRequested", PyFormat.str_datetime now); ("ForVpc", vpc_name);
     ("Application", "OnDemandNAT"); ("Environment", "Infrastructure")] ;;;
  ec2_wait_nat_gateway_available [gatewayId] ;;;
  ret gatewayId.

(** The [except ClientError as e] clause around [ec2.delete_route]. *)
Definition ignore_route_not_found (e : exn) : M unit :=
  match e with
  | ClientError code _ _ =>
      if negb (String.eqb code "InvalidRoute.NotFound") then raise e else ret tt
  | _ => raise e
  end.

(** The body of the loop of [update_route_tables]. *)
Definition update_route_table (gatewayId routeTableId : string) : M unit :=
  try_except (ec2_delete_route routeTableId "0.0.0.0/0") ignore_route_not_found ;;;
  ec2_create_route routeTableId "0.0.0.0/0" gatewayId.

Definition update_route_tables (gatewayId : string) : M unit :=
  let* routes_list := ec2_describe_route_tables ["Yes"; "True"] in
  for_each routes_list (update_route_table gatewayId).

Definition invoke_lambda (payload : json) : M unit :=
  lambda_invoke "afipApi" "Event" payload.

(** [event['Records'][0]['body']] *)
Definition event_body (event : list (string * json)) : result json :=
  (let* records := getitem_str (JDict event) "Records" in
   let* record := getitem_0 records in
   getitem_str record "body")%res.

(** [event['CodePipeline.job']['id']] *)
Definition event_job_id (event : list (string * json)) : result json :=
  (let* job := getitem_str (JDict event) "CodePipeline.job" in
   getitem_str job "id")%res.

(** The loop of [request_gateway_handler] over an existing inventory. *)
Definition touch_gateway (g : inventory_entry) : M unit :=
  let '(gatewayId, _, _, _) := g in
  let* now := datetime_utcnow in
  ec2_create_tags [gatewayId] [("LastRequested", PyFormat.str_datetime now)].

(** Lines 102-119 of the [try] block: the inventory, then provisioning and
    route convergence, or the refresh of the activity tags. *)
Definition request_gateway_ensure : M (list (string * json)) :=
  let* gateway_list := list_nat_gateways in
  let info := [("statusCode", JNum 200)] in
  match gateway_list with
  | None =>
      let* gatewayId := create_nat_gateway in
      update_route_tables gatewayId ;;;
      ret info
  | Some gateway_list =>
      let info := assoc_set "nat-existing" (JBool true) info in
      for_each gateway_list touch_gateway ;;;
      ret info
  end.

(** Lines 121-131 of the [try] block: the report to the CI/CD job, the
    downstream notification and the result. *)
Definition request_gateway_finish (event : list (string * json))
    (info : list (string * json)) : M json :=
  (if dict_mem "CodePipeline.job" event then
     let* job_id := lift (event_job_id event) in
     cp_put_job_success_result job_id
   else ret tt) ;;;
  let* body := lift (event_body event) in
  invoke_lambda body ;;;
  ret (JDict info).

(** The [try] block of [request_gateway_handler]. *)
Definition request_gateway_try (event : list (string * json)) : M json :=
  let* info := request_gateway_ensure in
  request_gateway_finish event info.

(** The [except BaseException as e] clause of [request_gateway_handler]. *)
Definition request_gateway_except (event : list (string * json)) (e : exn) : M json :=
  (if dict_mem "CodePipeline.job" event then
     let* job_id := lift (event_job_id event) in
     cp_put_job_failure_result job_id "JobFailed" (str_exn e)
   else ret tt) ;;;
  raise e.

Definition request_gateway_handler (event : list (string * json)) : M json :=
  try_except (request_gateway_try event) (request_gateway_except event).

Definition REAP_THRESHOLD : PyDatetime.timedelta := PyDatetime.timedelta_minutes 45.

Definition action_record (action gatewayId : string)
    (age inactive : PyDatetime.timedelta) : json :=
  JDict [("action", JStr action); ("gatewayId", JStr gatewayId);
         ("age", JStr (PyFormat.str_timedelta age));
         ("inactive", JStr (PyFormat.str_timedelta inactive))].

(** Lines 168-176: the threshold test, the deletion and the action record. *)
Definition reap (gatewayId : string) (age inactive : PyDatetime.timedelta) : M json :=
  if REAP_THRESHOLD <=? inactive then
    ec2_delete_nat_gateway gatewayId ;;;
    ret (action_record "deleted" gatewayId age inactive)
  else ret (action_record "skipped" gatewayId age inactive).

(** Lines 177-181: the report, the downstream notification and the result. *)
Definition check_gateway_report (event : list (string * json))
    (gw_change_list : list json) : M json :=
  let info := assoc_set "nat-changed" (JList gw_change_list) [] in
  let* body := lift (event_body event) in
  invoke_lambda body ;;;
  ret (JDict info).

Section CheckGateway.

(** The fallback of [dateutil] for ISO week dates and ordinal dates. *)
Variable _parse_isodate_uncommon : string -> result ((Z * Z * Z) * nat).

(** Lines 159-166: the age and the inactivity of a gateway. *)
Definition compute_inactivity (g : inventory_entry)
    : M (PyDatetime.timedelta * PyDatetime.timedelta) :=
  let '(_, _, created, lastRequested) := g in
  let* now := datetime_now (PyDatetime.tzinfo created) in
  let* age := lift (PyDatetime.datetime_sub now created) in
  let* inactive :=
    match lastRequested with
    | Some s =>
        let* utcnow := datetime_utcnow in
        let* parsed := lift (Dateutil.isoparse _parse_isodate_uncommon s) in
        lift (PyDatetime.datetime_sub utcnow parsed)
    | None => ret age
    end in
  ret (age, inactive).

(** The body of the loop of [check_gateway_required]. *)
Definition check_gateway (g : inventory_entry) : M json :=
  let* ai := compute_inactivity g in
  reap g.1.1.1 ai.1 ai.2.

(** The loop of [check_gateway_required], appending to [gw_change_list]. *)
Fixpoint check_gateways (gateway_list : list inventory_entry)
    (gw_change_list : list json) : M (list json) :=
  match gateway_list with
  | [] => ret gw_change_list
  | g :: rest =>
      let* r := check_gateway g in
      check_gateways rest (gw_change_list ++ [r])
  end.

(** [check_gateway_required]; [JNull] is the bare [return]. *)
Definition check_gateway_required (event : list (string * json)) : M json :=
  let* gateway_list := list_nat_gateways in
  match gateway_list with
  | None => ret JNull
  | Some gateway_list =>
      let* gw_change_list := check_gateways gateway_list [] in
      check_gateway_report event gw_change_list
  end.


End CheckGateway.

(** The claim on missing provisioning inputs as the specification words it:
    with no tagged address, provisioning fails with an error named
    [AddressNotFound] and no create call carries a null allocation; with no
    tagged public subnet, it fails with an error named [SubnetNotFound]. *)
Definition spec_missing_input_errors (w : world) : Prop :=
  forall vpc_name vpc_id,
    environ w !! "VPC_NAME" = Some vpc_name ->
    environ w !! "VPC_ID" = Some vpc_id ->
    (filter (fun a => address_matches "OnDemandNAT-IPAddr" vpc_name a = true)
       (addresses w) = [] ->
     (exists e, (create_nat_gateway w).1 = Err e /\ exn_name e = "AddressNotFound")
     /\ forall subnet_id,
          CreateNatGateway None subnet_id ∉ trace (create_nat_gateway w).2)
    /\ (filter (fun s => subnet_matches "Yes" vpc_id s = true) (subnets w) = [] ->
        exists e, (create_nat_gateway w).1 = Err e /\ exn_name e = "SubnetNotFound").

(** ** Example worlds *)

Module Examples.
Import PyDatetime.

(** An instance of the fallback of [dateutil]: it rejects its input. *)
Definition no_uncommon (s : string) : result ((Z * Z * Z) * nat) :=
  Err (ValueError "ISO string could not be parsed").

Definition noon : datetime := mk_datetime 2024 1 1 12 0 0 0 None.

Definition env : gmap string string :=
  <["VPC_ID" := "vpc-1"]> (<["VPC_NAME" := "main"]> ∅).

(** [nat-a] has no last-requested tag and was created one hour before noon;
    [nat-b] was last requested thirty minutes before noon. *)
Definition gateways : gmap string nat_gateway :=
  <["nat-a" := mk_nat_gateway "available" "vpc-1"
                 (mk_datetime 2024 1 1 11 0 0 0 (Some 0)) ∅]>
    (<["nat-b" := mk_nat_gateway "available" "vpc-1"
                    (mk_datetime 2024 1 1 10 0 0 0 (Some 0))
                    (<["LastRequested" := "2024-01-01 11:30:00"]> ∅)]> ∅).

(** [rtb-1] has a stale default route, [rtb-2] has none, [rtb-3] is not an
    on-demand table, [rtb-4] already routes to [nat-a]. *)
Definition tables : gmap string route_table :=
  <["rtb-1" := mk_route_table (<["OnDemandNAT" := "Yes"]> ∅)
                 (<["0.0.0.0/0" := "nat-old"]> ∅)]>
    (<["rtb-2" := mk_route_table (<["OnDemandNAT" := "True"]> ∅) ∅]>
       (<["rtb-3" := mk_route_table ∅ (<["0.0.0.0/0" := "igw-1"]> ∅)]>
          (<["rtb-4" := mk_route_table (<["OnDemandNAT" := "Yes"]> ∅)
                          (<["0.0.0.0/0" := "nat-a"]> ∅)]> ∅))).

Definition tagged_addresses : list address :=
  [mk_address "eipalloc-1"
     (<["Name" := "OnDemandNAT-IPAddr"]> (<["ForVpc" := "main"]> ∅))].

Definition public_subnets : list subnet :=
  [mk_subnet "subnet-1" "vpc-1" (<["Public" := "Yes"]> ∅);
   mk_subnet "subnet-2" "vpc-1" (<["Public" := "Yes"]> ∅)].

Definition no_fault (k : nat) : option exn := None.

Definition make_world (g : gmap string nat_gateway) (a : list address)
    (s : list subnet) (f : nat -> option exn) : world :=
  mk_world env g tables a s (fun _ => noon) 0 0 (fun _ => 1%nat) 0 f [].

(** No gateway yet. *)
Definition w_empty : world := make_world ∅ tagged_addresses public_subnets no_fault.

(** Two gateways. *)
Definition w_inventory : world :=
  make_world gateways tagged_addresses public_subnets no_fault.

(** No gateway and no tagged address. *)
Definition w_no_address : world := make_world ∅ [] public_subnets no_fault.

(** No gateway and no public subnet. *)
Definition w_no_subnet : world := make_world ∅ tagged_addresses [] no_fault.


Definition ev_plain : list (string * json) :=
  [("Records", JList [JDict [("body", JStr "payload")]])].

Definition ev_job : list (string * json) :=
  [("Records", JList [JDict [("body", JStr "payload")]]);
   ("CodePipeline.job", JDict [("id", JStr "job-1")])].

End Examples.

(** ** Auxiliary notions of the proofs *)

(** A string of decimal digit characters, and the number it denotes. *)
Fixpoint digits_string (ds : list N) : string :=
  match ds with
  | [] => EmptyString
  | d :: r => String (PyStr.digit_char (d mod 10)) (digits_string r)
  end.

Definition digits_value (ds : list N) (acc : N) : N :=
  fold_left (fun a d => (10 * a + d mod 10)%N) ds acc.

(** The list [[n / 10^(k-1); ...; n / 10; n]] whose last digits are the
    [k] decimal digits of [n]. *)
Fixpoint shifts (k : nat) (n : N) : list N :=
  match k with
  | O => []
  | S k' => shifts k' (n / 10)%N ++ [n]
  end.

(** Programs whose every run relates the world before to the world after
    by [R]. *)
Definition steps (R : world -> world -> Prop) {A} (m : M A) : Prop :=
  forall w, R w (m w).2.

(** The clock is not read: same clock, same tick. *)
Definition same_time (w w' : world) : Prop :=
  clock w' = clock w /\ ticks w' = ticks w.

(** The gateways, the clock and the environment are as they were. *)
Definition gateways_untouched (w w' : world) : Prop :=
  nat_gateways w' = nat_gateways w /\ clock w' = clock w
  /\ ticks w' = ticks w /\ environ w' = environ w.

(** No identity of a gateway is lost. *)
Definition gateways_kept (w w' : world) : Prop :=
  forall id, is_Some (nat_gateways w !! id) -> is_Some (nat_gateways w' !! id).

(** What the inventory query looks at in a gateway. *)
Definition gateway_core (g : nat_gateway) : string * string :=
  (gw_State g, gw_VpcId g).

(** Only activity tags are written: the environment, the clock and the
    state and network of every gateway are kept, and no gateway is created. *)
Definition refreshed_only (w w' : world) : Prop :=
  environ w' = environ w /\ clock w' = clock w /\ (ticks w <= ticks w')%nat
  /\ (forall id, gateway_core <$> nat_gateways w' !! id
                 = gateway_core <$> nat_gateways w !! id)
  /\ calls_in no_create_gateway w w'.

(** [refreshed_between] with the clock of an earlier world [base]. *)
Definition refreshed_since (base w : world) (id : string) : Prop :=
  exists k, (ticks base <= k < ticks w)%nat
            /\ last_requested w id
               = Some (PyFormat.str_datetime (utcnow_at base k)).

Definition any_call (c : call) : bool := true.

(** ** Further observations on the handlers *)

(** The tags [create_nat_gateway] writes on a new gateway (lines 53-58). *)
Definition provision_tags (now : PyDatetime.datetime) (vpc_name : string)
    : list (string * string) :=
  [("OnDemandNAT", "True"); ("Name", "OnDemandNAT-Gateway");
   ("LastRequested", PyFormat.str_datetime now); ("ForVpc", vpc_name);
   ("Application", "OnDemandNAT"); ("Environment", "Infrastructure")].

(** The allocations [describe_addresses] answers with in [create_nat_gateway],
    and the subnets [describe_subnets] answers with. *)
Definition tagged_allocations (w : world) (vpc_name : string) : list string :=
  addr_AllocationId
    <$> filter (fun a => address_matches "OnDemandNAT-IPAddr" vpc_name a = true)
          (addresses w).

Definition public_subnet_ids (w : world) (vpc_id : string) : list string :=
  sn_SubnetId
    <$> filter (fun s => subnet_matches "Yes" vpc_id s = true) (subnets w).

Definition is_delete_gateway_call (c : call) : bool :=
  match c with
  | DeleteNatGateway _ => true
  | _ => false
  end.

Definition no_delete_gateway (c : call) : bool := negb (is_delete_gateway_call c).

(** Two values of a gateway that differ at most in the [LastRequested] tag. *)
Definition same_but_last_requested (g g' : nat_gateway) : Prop :=
  gw_State g' = gw_State g /\ gw_VpcId g' = gw_VpcId g
  /\ gw_CreateTime g' = gw_CreateTime g
  /\ forall k, k <> "LastRequested" -> gw_Tags g' !! k = gw_Tags g !! k.

(** Every gateway of [w] is still there in [w'], as it was but for its
    [LastRequested] tag. *)
Definition existing_gateways_kept (w w' : world) : Prop :=
  forall id g,
    nat_gateways w !! id = Some g ->
    exists g', nat_gateways w' !! id = Some g' /\ same_but_last_requested g g'.

(** No gateway is created between [w] and [w']. *)
Definition no_new_gateway (w w' : world) : Prop :=
  forall id, nat_gateways w !! id = None -> nat_gateways w' !! id = None.

(** The gateways other than [id] are as they were. *)
Definition only_at (id : string) (w w' : world) : Prop :=
  forall id', id' <> id -> nat_gateways w' !! id' = nat_gateways w !! id'.

(** Between [w] and [w'] gateways are at most refreshed. *)
Definition touched_only (w w' : world) : Prop :=
  existing_gateways_kept w w' /\ no_new_gateway w w'.

(** The calls the check flow can make. *)
Definition is_check_call (c : call) : bool :=
  match c with
  | DescribeNatGateways _ _ | DeleteNatGateway _ | LambdaInvoke _ _ _ => true
  | _ => false
  end.

(** Between [w] and [w'] only calls of the check flow are made, and a
    gateway is as it was or is the same gateway in state [deleting], after a
    delete call for it. *)
Definition reaped_only (w w' : world) : Prop :=
  calls_in is_check_call w w'
  /\ forall id,
       nat_gateways w' !! id = nat_gateways w !! id
       \/ exists g,
            nat_gateways w !! id = Some g
            /\ nat_gateways w' !! id = Some (set_state "deleting" g)
            /\ DeleteNatGateway id ∈ new_calls w w'.

(** The identities in an inventory. *)
Definition entry_ids (l : list inventory_entry) : list string :=
  (fun g => g.1.1.1) <$> l.

(** The fields of an action record of the check flow. *)
Definition record_field (k : string) (r : json) : option json :=
  match r with
  | JDict d => assoc_lookup k d
  | _ => None
  end.

Definition record_gateway (r : json) : option string :=
  match record_field "gatewayId" r with
  | Some (JStr id) => Some id
  | _ => None
  end.

Definition record_action (r : json) : option string :=
  match record_field "action" r with
  | Some (JStr a) => Some a
  | _ => None
  end.

(** The gateways an action list reports as deleted. *)
Definition deleted_ids (rs : list json) : list string :=
  omap (fun r =>
          match record_action r with
          | Some a => if String.eqb a "deleted" then record_gateway r else None
          | None => None
          end) rs.

(** The route tables [update_route_tables] visits, in the order of the
    answer of [describe_route_tables]. *)
Definition on_demand_ids (w : world) : list string :=
  (filter (fun kv => has_tag (rt_Tags kv.2) "OnDemandNAT" ["Yes"; "True"] = true)
     (map_to_list (route_tables w))).*1.

(** The calls of a run of [update_route_tables] that visits [ids]. *)
Definition converge_calls (g : string) (ids : list string) : list call :=
  DescribeRouteTables ["Yes"; "True"]
  :: concat ((fun rt => [DeleteRoute rt "0.0.0.0/0"; CreateRoute rt "0.0.0.0/0" g])
               <$> ids).

(** Two values of a route table that differ at most in the default route. *)
Definition same_but_default_route (t t' : route_table) : Prop :=
  rt_Tags t' = rt_Tags t
  /\ forall cidr, cidr <> "0.0.0.0/0" -> rt_Routes t' !! cidr = rt_Routes t !! cidr.

(** Between [w] and [w'] the gateways are as they were, the same route
    tables exist and each differs at most in its default route. *)
Definition default_routes_only (w w' : world) : Prop :=
  nat_gateways w' = nat_gateways w
  /\ forall rt,
       match route_tables w !! rt, route_tables w' !! rt with
       | Some t, Some t' => same_but_default_route t t'
       | None, None => True
       | _, _ => False
       end.

Definition is_lambda_call (c : call) : bool :=
  match c with
  | LambdaInvoke _ _ _ => true
  | _ => false
  end.

Definition no_lambda (c : call) : bool := negb (is_lambda_call c).

(** The calls of the refresh loop of [request_gateway_handler] over the
    inventory [l], the clock being at tick [k]: gateway by gateway, one
    [create_tags] call that writes the tag [LastRequested] alone, each with
    its own reading of the clock. *)
Fixpoint refresh_calls (w : world) (k : nat) (l : list inventory_entry) : list call :=
  match l with
  | [] => []
  | g :: l' =>
      CreateTags [g.1.1.1]
        [("LastRequested", PyFormat.str_datetime (utcnow_at w k))]
      :: refresh_calls w (S k) l'
  end.

(** ** Further example worlds *)

Module MoreExamples.
Import Examples PyDatetime.

(** The world [w] at a later hour: every reading of the clock is [t]. *)
Definition at_time (t : datetime) (w : world) : world :=
  mk_world (environ w) (nat_gateways w) (route_tables w) (addresses w) (subnets w)
    (fun _ => t) (ticks w) (local_utcoffset w) (random w) (draws w) (faults w)
    (trace w).

(** The world [w] without environment variables. *)
Definition without_environ (w : world) : world :=
  mk_world ∅ (nat_gateways w) (route_tables w) (addresses w) (subnets w)
    (clock w) (ticks w) (local_utcoffset w) (random w) (draws w) (faults w)
    (trace w).

Definition half_past_noon : datetime := mk_datetime 2024 1 1 12 30 0 0 None.
Definition one_o_clock : datetime := mk_datetime 2024 1 1 13 0 0 0 None.

(** No gateway, and the provider fails the fifth call, which is the tagging
    of the new gateway. *)
Definition w_tag_fault : world :=
  make_world ∅ tagged_addresses public_subnets
    (fun k => if Nat.eqb k 4
              then Some (ClientError "RequestLimitExceeded" "Request limit exceeded."
                           "CreateTags")
              else None).

(** An event with a job and no records, and one whose job has no [id]. *)
Definition ev_no_records : list (string * json) :=
  [("CodePipeline.job", JDict [("id", JStr "job-1")])].

Definition ev_job_no_id : list (string * json) :=
  [("Records", JList [JDict [("body", JStr "payload")]]);
   ("CodePipeline.job", JDict [])].

(** The world after provisioning in [w_empty], the identity of the new
    gateway and the gateway itself. *)
Definition w_provisioned : world := (create_nat_gateway w_empty).2.

Definition new_id : string := fresh_string "nat-" (nat_gateways w_empty).

Definition new_gateway : nat_gateway :=
  default (mk_nat_gateway EmptyString EmptyString noon ∅)
    (nat_gateways w_provisioned !! new_id).

End MoreExamples.

(** * Proofs *)

Import PyDatetime PyStr PyFormat Dateutil.

Ltac Zify.zify_post_hook ::= Z.to_euclidean_division_equations.

(** *** Decimal digits *)

Lemma digit_char_cases (P : ascii -> Prop) :
  P "0"%char -> P "1"%char -> P "2"%char -> P "3"%char -> P "4"%char ->
  P "5"%char -> P "6"%char -> P "7"%char -> P "8"%char -> P "9"%char ->
  forall x : N, P (digit_char (x mod 10)).
Proof.
  intros H0 H1 H2 H3 H4 H5 H6 H7 H8 H9 x.
  assert (Hx : (x mod 10 < 10)%N) by (apply N.mod_upper_bound; discriminate).
  assert (Hc : (x mod 10 = 0 \/ x mod 10 = 1 \/ x mod 10 = 2 \/ x mod 10 = 3
                \/ x mod 10 = 4 \/ x mod 10 = 5 \/ x mod 10 = 6 \/ x mod 10 = 7
                \/ x mod 10 = 8 \/ x mod 10 = 9)%N) by lia.
  destruct Hc as [-> | [-> | [-> | [-> | [-> | [-> | [-> | [-> | [-> | ->]]]]]]]]];
    assumption.
Qed.

Lemma digit_val_digit_char x : digit_val (digit_char (x mod 10)) = Some (x mod 10)%N.
Proof.
  assert (Hx : (x mod 10 < 10)%N) by (apply N.mod_upper_bound; discriminate).
  unfold digit_val, digit_char.
  rewrite N_ascii_embedding by lia.
  replace ((48 <=? 48 + x mod 10)%N && (48 + x mod 10 <=? 57)%N) with true.
  - f_equal. lia.
  - symmetry. apply andb_true_iff. split; apply N.leb_le; lia.
Qed.

Lemma is_space_digit_char x : is_space (digit_char (x mod 10)) = false.
Proof. apply (digit_char_cases (fun c => is_space c = false)); reflexivity. Qed.

Lemma digit_char_eqb x c :
  digit_val c = None -> Ascii.eqb (digit_char (x mod 10)) c = false.
Proof.
  intros Hc. apply Ascii.eqb_neq. intros <-.
  rewrite digit_val_digit_char in Hc. discriminate.
Qed.

Lemma digit_char_ascii x : (N_of_ascii (digit_char (x mod 10)) <? 128)%N = true.
Proof.
  apply (digit_char_cases (fun c => (N_of_ascii c <? 128)%N = true)); reflexivity.
Qed.

Lemma rstrip_digits ds : rstrip (digits_string ds) = digits_string ds.
Proof.
  induction ds as [|d r IH]; [reflexivity|].
  cbn [digits_string rstrip]. rewrite IH.
  destruct (digits_string r); [|reflexivity].
  now rewrite is_space_digit_char.
Qed.

Lemma lstrip_digits ds : lstrip (digits_string ds) = digits_string ds.
Proof.
  destruct ds as [|d r]; [reflexivity|].
  cbn [digits_string lstrip]. now rewrite is_space_digit_char.
Qed.

Lemma split_sign_digits d r :
  split_sign (digits_string (d :: r)) = (1, digits_string (d :: r)).
Proof.
  cbn [digits_string]. generalize (digits_string r). intros s.
  apply (digit_char_cases (fun c => split_sign (String c s) = (1, String c s)));
    reflexivity.
Qed.

Lemma int_digits_digits ds acc b :
  int_digits (digits_string ds) acc b
  = match ds with
    | [] => if b then Some acc else None
    | _ => Some (digits_value ds acc)
    end.
Proof.
  revert acc b. induction ds as [|d r IH]; intros acc b; [reflexivity|].
  cbn [digits_string int_digits]. rewrite digit_val_digit_char, IH.
  destruct r; reflexivity.
Qed.

Lemma py_int_digits d r :
  py_int (digits_string (d :: r)) = Ok (Z.of_N (digits_value (d :: r) 0)).
Proof.
  unfold py_int, strip.
  rewrite rstrip_digits, lstrip_digits, split_sign_digits, int_digits_digits.
  f_equal. lia.
Qed.

Lemma string_app_assoc (a b c : string) : (a +:+ b) +:+ c = a +:+ (b +:+ c).
Proof.
  induction a as [|x a IH]; [reflexivity|].
  change (String x ((a +:+ b) +:+ c) = String x (a +:+ (b +:+ c))). now rewrite IH.
Qed.

Lemma string_app_length (a b : string) :
  String.length (a +:+ b) = (String.length a + String.length b)%nat.
Proof.
  induction a as [|x a IH]; [reflexivity|].
  change (S (String.length (a +:+ b)) = S (String.length a + String.length b)).
  now rewrite IH.
Qed.

Lemma fixed_digits_app w n acc :
  fixed_digits w n acc = fixed_digits w n EmptyString +:+ acc.
Proof.
  revert n acc. induction w as [|w IH]; intros n acc; [reflexivity|].
  cbn [fixed_digits]. rewrite IH, (IH _ (String _ EmptyString)).
  now rewrite string_app_assoc.
Qed.

Lemma length_fixed_digits w n acc :
  String.length (fixed_digits w n acc) = (w + String.length acc)%nat.
Proof.
  revert n acc. induction w as [|w IH]; intros n acc; [reflexivity|].
  cbn [fixed_digits]. rewrite IH. cbn [String.length]. lia.
Qed.

Lemma fixed_digits_zeros j k n acc :
  (n < 10 ^ N.of_nat k)%N ->
  fixed_digits (j + k) n acc = zeros j +:+ fixed_digits k n acc.
Proof.
  revert n acc. induction k as [|k IH]; intros n acc Hn.
  - rewrite Nat.add_0_r. cbn [fixed_digits].
    assert (n = 0%N) as -> by (cbn in Hn; lia).
    clear Hn. revert acc. induction j as [|j IHj]; intros acc; [reflexivity|].
    cbn [fixed_digits]. change (0 / 10)%N with 0%N. change (0 mod 10)%N with 0%N.
    rewrite IHj. clear IHj. induction j as [|j IHj]; [reflexivity|].
    change (String "0" (zeros j +:+ String (digit_char 0) acc)
            = String "0" (String "0" (zeros j +:+ acc))).
    now rewrite IHj.
  - rewrite Nat.add_succ_r. cbn [fixed_digits]. apply IH.
    rewrite Nat2N.inj_succ, N.pow_succ_r' in Hn.
    apply N.Div0.div_lt_upper_bound. lia.
Qed.

Lemma N_digits_go_fixed fuel n acc :
  (n < 10 ^ N.of_nat (S fuel))%N ->
  exists k, (1 <= k <= S fuel)%nat /\ (n < 10 ^ N.of_nat k)%N
            /\ (k = 1%nat \/ 10 ^ N.of_nat (k - 1) <= n)%N
            /\ N_digits_go fuel n acc = fixed_digits k n acc.
Proof.
  revert n acc. induction fuel as [|fuel IH]; intros n acc Hn.
  - exists 1%nat. repeat split; [lia | lia | exact Hn | now left].
  - cbn [N_digits_go]. destruct (N.eqb_spec (n / 10) 0) as [Hz|Hz].
    + exists 1%nat. repeat split; [lia | lia | | now left].
      change (10 ^ N.of_nat 1)%N with 10%N. lia.
    + assert (Hd : (n / 10 < 10 ^ N.of_nat (S fuel))%N).
      { rewrite (Nat2N.inj_succ (S fuel)), N.pow_succ_r' in Hn.
        apply N.Div0.div_lt_upper_bound. lia. }
      destruct (IH (n / 10)%N (String (digit_char (n mod 10)) acc) Hd)
        as (k & Hk & Hlt & Hlow & Heq).
      exists (S k). repeat split; [lia | lia | | | exact Heq].
      * rewrite Nat2N.inj_succ, N.pow_succ_r'. lia.
      * right. replace (S k - 1)%nat with (S (k - 1)) by lia.
        rewrite Nat2N.inj_succ, N.pow_succ_r'.
        destruct Hlow as [->|Hlow]; [cbn; lia | lia].
Qed.

Lemma str_N_fixed n :
  exists k, (1 <= k)%nat /\ (n < 10 ^ N.of_nat k)%N
            /\ (k = 1%nat \/ 10 ^ N.of_nat (k - 1) <= n)%N
            /\ str_N n = fixed_digits k n EmptyString.
Proof.
  unfold str_N.
  destruct (N_digits_go_fixed (N.to_nat (N.size n)) n EmptyString)
    as (k & Hk & Hlt & Hlow & Heq).
  - rewrite Nat2N.inj_succ, N2Nat.id, N.pow_succ_r'.
    assert (n < 2 ^ N.size n)%N by apply N.size_gt.
    assert (2 ^ N.size n <= 10 ^ N.size n)%N by (apply N.pow_le_mono_l; lia).
    lia.
  - exists k. repeat split; [lia | exact Hlt | exact Hlow | exact Heq].
Qed.

Lemma pow10_digits_le k w n :
  (1 <= k)%nat -> (n < 10 ^ N.of_nat w)%N ->
  (k = 1%nat \/ 10 ^ N.of_nat (k - 1) <= n)%N -> (1 <= w)%nat -> (k <= w)%nat.
Proof.
  intros Hk Hn [->|Hlow] Hw; [exact Hw|].
  destruct (Nat.le_gt_cases k w) as [?|Hgt]; [assumption|exfalso].
  assert (10 ^ N.of_nat w <= 10 ^ N.of_nat (k - 1))%N by (apply N.pow_le_mono_r; lia).
  lia.
Qed.

Lemma fmt_0d_fixed w n :
  (1 <= w)%nat -> 0 <= n < 10 ^ Z.of_nat w ->
  fmt_0d w n = fixed_digits w (Z.to_N n) EmptyString.
Proof.
  intros Hw [Hn0 Hn]. unfold fmt_0d.
  destruct (Z.ltb_spec n 0) as [?|_]; [lia|].
  assert (Hb : (Z.to_N n < 10 ^ N.of_nat w)%N).
  { apply N2Z.inj_lt. rewrite N2Z.inj_pow, Z2N.id, nat_N_Z by lia. exact Hn. }
  destruct (str_N_fixed (Z.to_N n)) as (k & Hk & Hlt & Hlow & ->).
  assert (Hkw : (k <= w)%nat) by (eapply pow10_digits_le; eassumption).
  unfold zfill. rewrite length_fixed_digits, Nat.add_0_r.
  rewrite <- (fixed_digits_zeros (w - k) k) by exact Hlt.
  f_equal. lia.
Qed.

Lemma py_int_2 a b :
  py_int (String (digit_char (a mod 10)) (String (digit_char (b mod 10)) EmptyString))
  = Ok (Z.of_N (digits_value [a; b] 0)).
Proof. exact (py_int_digits a [b]). Qed.

Lemma py_int_4 a b c d :
  py_int (String (digit_char (a mod 10)) (String (digit_char (b mod 10))
           (String (digit_char (c mod 10)) (String (digit_char (d mod 10)) EmptyString))))
  = Ok (Z.of_N (digits_value [a; b; c; d] 0)).
Proof. exact (py_int_digits a [b; c; d]). Qed.

Lemma py_int_6 a b c d e f :
  py_int (String (digit_char (a mod 10)) (String (digit_char (b mod 10))
           (String (digit_char (c mod 10)) (String (digit_char (d mod 10))
             (String (digit_char (e mod 10)) (String (digit_char (f mod 10)) EmptyString))))))
  = Ok (Z.of_N (digits_value [a; b; c; d; e; f] 0)).
Proof. exact (py_int_digits a [b; c; d; e; f]). Qed.


Lemma digits_value_shifts k n :
  digits_value (shifts k n) 0 = (n mod 10 ^ N.of_nat k)%N.
Proof.
  revert n. induction k as [|k IH]; intros n.
  - cbn. now rewrite N.mod_1_r.
  - cbn [shifts]. unfold digits_value in *. rewrite fold_left_app. cbn [fold_left].
    rewrite IH, Nat2N.inj_succ, N.pow_succ_r', N.Div0.mod_mul_r. lia.
Qed.

Lemma digits_value_small k n :
  0 <= n < 10 ^ Z.of_nat k -> Z.of_N (digits_value (shifts k (Z.to_N n)) 0) = n.
Proof.
  intros [Hn0 Hn]. rewrite digits_value_shifts, N.mod_small; [lia|].
  apply N2Z.inj_lt. rewrite N2Z.inj_pow, Z2N.id, nat_N_Z by lia. exact Hn.
Qed.

Lemma digits_value_2 n :
  0 <= n < 100 -> Z.of_N (digits_value [(Z.to_N n / 10)%N; Z.to_N n] 0) = n.
Proof. exact (digits_value_small 2 n). Qed.

Lemma digits_value_4 n :
  0 <= n < 10000 ->
  Z.of_N (digits_value [(Z.to_N n / 10 / 10 / 10)%N; (Z.to_N n / 10 / 10)%N;
                        (Z.to_N n / 10)%N; Z.to_N n] 0) = n.
Proof. exact (digits_value_small 4 n). Qed.

Lemma digits_value_6 n :
  0 <= n < 1000000 ->
  Z.of_N (digits_value [(Z.to_N n / 10 / 10 / 10 / 10 / 10)%N;
                        (Z.to_N n / 10 / 10 / 10 / 10)%N;
                        (Z.to_N n / 10 / 10 / 10)%N; (Z.to_N n / 10 / 10)%N;
                        (Z.to_N n / 10)%N; Z.to_N n] 0) = n.
Proof. exact (digits_value_small 6 n). Qed.

Lemma is_ascii_string_cons c s :
  is_ascii_string (String c s) = (N_of_ascii c <? 128)%N && is_ascii_string s.
Proof. reflexivity. Qed.

Lemma new_datetime_valid y m d h mi s us tz :
  valid_datetime (mk_datetime y m d h mi s us tz) = true ->
  new_datetime y m d h mi s us tz = Ok (mk_datetime y m d h mi s us tz).
Proof.
  unfold valid_datetime, new_datetime. cbn.
  intros [-> ->]%andb_true_iff. reflexivity.
Qed.

Ltac literal_ascii :=
  repeat match goal with
         | |- context [(N_of_ascii ?c <? 128)%N] =>
             change (N_of_ascii c <? 128)%N with true
         end.

Section RoundTrip.
Variable unc : string -> result ((Z * Z * Z) * nat).
Local Arguments digit_char : simpl never.
Local Arguments N.div : simpl never.
Local Arguments N.modulo : simpl never.
Local Arguments py_int : simpl never.
Local Arguments Z.of_N : simpl never.
Local Arguments new_datetime : simpl never.
Local Arguments digits_value : simpl never.

Lemma isoparse_str_datetime d :
  valid_datetime d = true -> tzinfo d = None ->
  isoparse unc (str_datetime d) = Ok d.
Proof.
  destruct d as [y m dd h mi s us tz]. unfold valid_datetime. cbn [year month day hour minute second microsecond tzinfo].
  intros Hv ->.
  apply andb_true_iff in Hv as [Hd Ht].
  assert (Hdb : 1 <= y <= 9999 /\ 1 <= m <= 12 /\ 1 <= dd <= 31).
  { unfold check_date_fields in Hd. 
    repeat (apply andb_true_iff in Hd as [Hd ?]).
    assert (_days_in_month y m <= 31).
    { unfold _days_in_month. destruct ((m =? 2) && _is_leap y); [lia|].
      assert (m = 1 \/ m = 2 \/ m = 3 \/ m = 4 \/ m = 5 \/ m = 6 \/ m = 7 \/ m = 8 \/ m = 9 \/ m = 10 \/ m = 11 \/ m = 12) as Hm by lia.
      destruct Hm as [-> | [-> | [-> | [-> | [-> | [-> | [-> | [-> | [-> | [-> | [-> | ->]]]]]]]]]]]; vm_compute; discriminate. }
    lia. }
  assert (Htb : 0 <= h <= 23 /\ 0 <= mi <= 59 /\ 0 <= s <= 59 /\ 0 <= us <= 999999).
  { unfold check_time_fields in Ht. repeat (apply andb_true_iff in Ht as [Ht ?]). lia. }
  unfold str_datetime, isoformat, _format_time, _format_offset.
  cbn [year month day hour minute second microsecond tzinfo].
  rewrite (fmt_0d_fixed 4 y), (fmt_0d_fixed 2 m), (fmt_0d_fixed 2 dd),
    (fmt_0d_fixed 2 h), (fmt_0d_fixed 2 mi), (fmt_0d_fixed 2 s) by (cbn; lia).
  assert (Hh : (h =? 24) = false) by lia.
  assert (Hnew := new_datetime_valid y m dd h mi s us None).
  unfold valid_datetime in Hnew. cbn [year month day hour minute second microsecond] in Hnew.
  rewrite Hd, Ht in Hnew. specialize (Hnew eq_refl).
  destruct (Z.eqb_spec us 0) as [Hus|Hus].
  - subst us. cbv [fixed_digits String.append].
    unfold isoparse.
    rewrite !is_ascii_string_cons, !digit_char_ascii. literal_ascii.
    unfold _parse_isodate, _parse_isodate_common. cbn.
    rewrite py_int_4. cbn. rewrite !py_int_2. cbn.
    rewrite !digit_char_eqb by reflexivity. cbn.
    rewrite !py_int_2. cbn.
    rewrite digits_value_4, !digits_value_2 by lia.
    rewrite Hh. cbn. rewrite Hh. exact Hnew.
  - rewrite (fmt_0d_fixed 6 us) by (cbn; lia).
    cbv [fixed_digits String.append].
    unfold isoparse.
    rewrite !is_ascii_string_cons, !digit_char_ascii. literal_ascii.
    unfold _parse_isodate, _parse_isodate_common. cbn.
    rewrite py_int_4. cbn. rewrite !py_int_2. cbn.
    rewrite !digit_char_eqb by reflexivity. cbn.
    rewrite !py_int_2. cbn.
    rewrite !digit_val_digit_char. cbn.
    rewrite py_int_6. cbn.
    rewrite digits_value_6, digits_value_4, !digits_value_2 by lia.
    rewrite Hh, Z.mul_1_r. cbn. rewrite Hh. exact Hnew.
Qed.
End RoundTrip.

(** *** The monad *)

Lemma bind_Ok {A B} (m : M A) (k : A -> M B) w b w' :
  bind m k w = (Ok b, w') ->
  exists a w1, m w = (Ok a, w1) /\ k a w1 = (Ok b, w').
Proof.
  unfold bind. destruct (m w) as [[a|e] w1]; [eauto|discriminate].
Qed.

Lemma bind_Err {A B} (m : M A) (k : A -> M B) w e w' :
  bind m k w = (Err e, w') ->
  m w = (Err e, w') \/ exists a w1, m w = (Ok a, w1) /\ k a w1 = (Err e, w').
Proof.
  unfold bind. destruct (m w) as [[a|e0] w1]; [eauto|].
  intros [= -> ->]. now left.
Qed.

Lemma bind_eq_Ok {A B} (m : M A) (k : A -> M B) w a w1 :
  m w = (Ok a, w1) -> bind m k w = k a w1.
Proof. unfold bind. now intros ->. Qed.

Lemma bind_eq_Err {A B} (m : M A) (k : A -> M B) w e w1 :
  m w = (Err e, w1) -> bind m k w = (Err e, w1).
Proof. unfold bind. now intros ->. Qed.

(** Steps of a preorder compose. *)
Section Steps.
Variable R : world -> world -> Prop.
Hypothesis R_refl : forall w, R w w.
Hypothesis R_trans : forall w1 w2 w3, R w1 w2 -> R w2 w3 -> R w1 w3.

Lemma steps_ret {A} (a : A) : steps R (ret a).
Proof. intros w. apply R_refl. Qed.

Lemma steps_raise {A} e : steps R (@raise A e).
Proof. intros w. apply R_refl. Qed.

Lemma steps_lift {A} (r : result A) : steps R (lift r).
Proof. intros w. apply R_refl. Qed.

Lemma steps_bind {A B} (m : M A) (k : A -> M B) :
  steps R m -> (forall a, steps R (k a)) -> steps R (bind m k).
Proof.
  intros Hm Hk w. unfold bind. specialize (Hm w).
  destruct (m w) as [[a|e] w1]; cbn in *; [|exact Hm].
  eapply R_trans; [exact Hm | apply Hk].
Qed.

Lemma steps_try_except {A} (m : M A) (h : exn -> M A) :
  steps R m -> (forall e, steps R (h e)) -> steps R (try_except m h).
Proof.
  intros Hm Hh w. unfold try_except. specialize (Hm w).
  destruct (m w) as [[a|e] w1]; cbn in *; [exact Hm|].
  eapply R_trans; [exact Hm | apply Hh].
Qed.

Lemma steps_for_each {A} (l : list A) (body : A -> M unit) :
  (forall x, steps R (body x)) -> steps R (for_each l body).
Proof.
  intros Hb. induction l as [|x l IH]; cbn [for_each].
  - apply steps_ret.
  - apply steps_bind; [apply Hb | intros _; exact IH].
Qed.

Lemma steps_if {A} (b : bool) (m1 m2 : M A) :
  steps R m1 -> steps R m2 -> steps R (if b then m1 else m2).
Proof. now destruct b. Qed.

(** A client call, when logging it and serving it are steps. *)
Lemma steps_request {A} c (serve : world -> result A * world) :
  (forall w, R w (log c w)) -> (forall w, R w (serve w).2) ->
  steps R (request c serve).
Proof.
  intros Hl Hs w. unfold request.
  destruct (faults w (length (trace w))); cbn; [apply Hl|].
  eapply R_trans; [apply Hl | apply Hs].
Qed.
End Steps.

(** [solve_steps refl trans fin]: a program is made of steps of a preorder,
    [fin] closing the goal a primitive leaves for each of its outcomes. *)
Ltac unfold_prims :=
  repeat first
    [ progress unfold os_environ | progress unfold datetime_utcnow
    | progress unfold datetime_now | progress unfold random_choice
    | progress unfold ec2_describe_nat_gateways
    | progress unfold ec2_describe_addresses
    | progress unfold ec2_describe_subnets
    | progress unfold ec2_describe_route_tables
    | progress unfold ec2_create_nat_gateway | progress unfold ec2_create_tags
    | progress unfold ec2_wait_nat_gateway_available
    | progress unfold ec2_delete_route | progress unfold ec2_create_route
    | progress unfold ec2_delete_nat_gateway | progress unfold lambda_invoke
    | progress unfold cp_put_job_success_result
    | progress unfold cp_put_job_failure_result
    | progress unfold ret | progress unfold raise | progress unfold lift
    | progress unfold request ].

Ltac solve_steps refl trans fin :=
  repeat first
    [ progress intros
    | lazymatch goal with
      | |- steps _ (bind _ _) => apply (steps_bind _ trans)
      | |- steps _ (try_except _ _) => apply (steps_try_except _ trans)
      | |- steps _ (for_each _ _) => apply (steps_for_each _ refl trans)
      | |- steps _ (match _ with _ => _ end) => case_match
      | |- steps _ _ =>
          solve [ let w := fresh "w" in
                  intros w; unfold_prims; repeat case_match; cbn; fin ]
      end ].

Lemma calls_in_refl P w : calls_in P w w.
Proof. exists []. now rewrite app_nil_r. Qed.

Lemma calls_in_trans P w1 w2 w3 :
  calls_in P w1 w2 -> calls_in P w2 w3 -> calls_in P w1 w3.
Proof.
  intros (l1 & H1 & F1) (l2 & H2 & F2). exists (l1 ++ l2). split.
  - now rewrite H2, H1, app_assoc.
  - now rewrite forallb_app, F1, F2.
Qed.

Lemma calls_in_log P c w : P c = true -> calls_in P w (log c w).
Proof. intros Hc. exists [c]. cbn. now rewrite Hc. Qed.

Lemma calls_in_same_trace P w w' : trace w' = trace w -> calls_in P w w'.
Proof. intros H. exists []. now rewrite app_nil_r. Qed.

Lemma calls_in_new_calls P w w' :
  calls_in P w w' -> forallb P (new_calls w w') = true.
Proof.
  intros (l & H & F). unfold new_calls. now rewrite H, drop_app_length.
Qed.

(** *** Route tables are left alone *)

Lemma keeps_routes_refl w : keeps_routes w w.
Proof. split; [reflexivity | apply calls_in_refl]. Qed.

Lemma keeps_routes_trans w1 w2 w3 :
  keeps_routes w1 w2 -> keeps_routes w2 w3 -> keeps_routes w1 w3.
Proof.
  intros [E1 C1] [E2 C2]. split; [congruence | eapply calls_in_trans; eauto].
Qed.

Abbreviation routes_kept := (steps keeps_routes).

Ltac kr_request :=
  apply steps_request;
  [ exact keeps_routes_trans
  | intros w; split; [reflexivity | now apply calls_in_log]
  | intros w; repeat case_match; cbn;
    (split; [reflexivity | now apply calls_in_same_trace]) ].

Lemma kr_os_environ k : routes_kept (os_environ k).
Proof. intros w. unfold os_environ. case_match; apply keeps_routes_refl. Qed.

Lemma kr_datetime_utcnow : routes_kept datetime_utcnow.
Proof. intros w. split; [reflexivity | now apply calls_in_same_trace]. Qed.

Lemma kr_datetime_now tz : routes_kept (datetime_now tz).
Proof.
  intros w. unfold datetime_now.
  destruct tz; (split; [reflexivity | now apply calls_in_same_trace]).
Qed.

Lemma kr_random_choice {A} (l : list A) : routes_kept (random_choice l).
Proof.
  intros w. destruct l; (split; [reflexivity | now apply calls_in_same_trace]).
Qed.

Lemma kr_describe_nat_gateways st v : routes_kept (ec2_describe_nat_gateways st v).
Proof. kr_request. Qed.

Lemma kr_describe_addresses a b : routes_kept (ec2_describe_addresses a b).
Proof. kr_request. Qed.

Lemma kr_describe_subnets a b : routes_kept (ec2_describe_subnets a b).
Proof. kr_request. Qed.

Lemma kr_create_nat_gateway a b : routes_kept (ec2_create_nat_gateway a b).
Proof. kr_request. Qed.

Lemma kr_create_tags a b : routes_kept (ec2_create_tags a b).
Proof. kr_request. Qed.

Lemma kr_wait a : routes_kept (ec2_wait_nat_gateway_available a).
Proof. kr_request. Qed.

Lemma kr_delete_nat_gateway a : routes_kept (ec2_delete_nat_gateway a).
Proof. kr_request. Qed.

Lemma kr_lambda_invoke a b c : routes_kept (lambda_invoke a b c).
Proof. kr_request. Qed.

Lemma kr_job_success a : routes_kept (cp_put_job_success_result a).
Proof. kr_request. Qed.

Lemma kr_job_failure a b c : routes_kept (cp_put_job_failure_result a b c).
Proof. kr_request. Qed.

Create HintDb routes_kept.
#[export] Hint Resolve kr_os_environ kr_datetime_utcnow kr_datetime_now
  kr_random_choice kr_describe_nat_gateways kr_describe_addresses
  kr_describe_subnets kr_create_nat_gateway kr_create_tags kr_wait
  kr_delete_nat_gateway kr_lambda_invoke kr_job_success kr_job_failure
  : routes_kept.

Ltac kr :=
  repeat first
    [ progress intros
    | solve [auto with routes_kept]
    | apply (steps_bind _ keeps_routes_trans)
    | apply (steps_try_except _ keeps_routes_trans)
    | apply (steps_for_each _ keeps_routes_refl keeps_routes_trans)
    | apply (steps_ret _ keeps_routes_refl)
    | apply (steps_raise _ keeps_routes_refl)
    | apply (steps_lift _ keeps_routes_refl)
    | progress case_match ].

Lemma kr_list_nat_gateways : routes_kept list_nat_gateways.
Proof. unfold list_nat_gateways. kr. Qed.

Lemma kr_create : routes_kept create_nat_gateway.
Proof. unfold create_nat_gateway. kr. Qed.

Lemma kr_invoke_lambda p : routes_kept (invoke_lambda p).
Proof. unfold invoke_lambda. kr. Qed.

Lemma kr_touch g : routes_kept (touch_gateway g).
Proof. unfold touch_gateway. destruct g as [[[? ?] ?] ?]. kr. Qed.

Lemma kr_finish ev info : routes_kept (request_gateway_finish ev info).
Proof. unfold request_gateway_finish. pose proof kr_invoke_lambda. kr. Qed.

Lemma kr_except ev e : routes_kept (request_gateway_except ev e).
Proof. unfold request_gateway_except. kr. Qed.

Lemma kr_reap id a i : routes_kept (reap id a i).
Proof. unfold reap. kr. Qed.

Lemma kr_compute_inactivity unc g : routes_kept (compute_inactivity unc g).
Proof. unfold compute_inactivity. destruct g as [[[? ?] ?] ?]. kr. Qed.

Lemma kr_check_gateways unc l acc : routes_kept (check_gateways unc l acc).
Proof.
  revert acc. induction l as [|g l IH]; intros acc; cbn [check_gateways].
  - kr.
  - apply (steps_bind _ keeps_routes_trans); [|intros r; apply IH].
    unfold check_gateway. pose proof kr_reap. pose proof kr_compute_inactivity. kr.
Qed.

Lemma kr_check_report ev l : routes_kept (check_gateway_report ev l).
Proof. unfold check_gateway_report. pose proof kr_invoke_lambda. kr. Qed.

Lemma kr_check unc ev : routes_kept (check_gateway_required unc ev).
Proof.
  unfold check_gateway_required.
  pose proof kr_list_nat_gateways. pose proof kr_check_gateways.
  pose proof kr_check_report. kr.
Qed.

Lemma kr_for_each_touch l : routes_kept (for_each l touch_gateway).
Proof. apply (steps_for_each _ keeps_routes_refl keeps_routes_trans), kr_touch. Qed.

(** After the [try] block has reached a world [w1], whatever remains of the
    handler (the rest of the block, or the [except] clause) keeps the routes. *)
Lemma kr_after {A} ev (m : M A) (k : A -> M json) w :
  (forall a, routes_kept (k a)) ->
  keeps_routes (m w).2 (try_except (bind m k) (request_gateway_except ev) w).2.
Proof.
  intros Hk. unfold try_except, bind.
  destruct (m w) as [[a|e] w1]; cbn.
  - specialize (Hk a w1). destruct (k a w1) as [[b|e] w2]; cbn in *; [exact Hk|].
    eapply keeps_routes_trans; [exact Hk | apply kr_except].
  - apply kr_except.
Qed.

(** C9: route tables are changed by the route converger only. *)
Theorem C9_routes_changed_only_by_converger
    (unc : string -> result ((Z * Z * Z) * nat)) (ev : list (string * json))
    (w : world) :
  keeps_routes w (check_gateway_required unc ev w).2
  /\ (keeps_routes w (request_gateway_handler ev w).2
      \/ exists w0 g w1,
           list_nat_gateways w = (Ok None, w0)
           /\ create_nat_gateway w0 = (Ok g, w1)
           /\ keeps_routes w w1
           /\ keeps_routes (update_route_tables g w1).2
                (request_gateway_handler ev w).2).
Proof.
  split; [apply kr_check|].
  unfold request_gateway_handler, request_gateway_try.
  pose proof (kr_list_nat_gateways w) as Hl.
  destruct (list_nat_gateways w) as [[[l|]|e] w0] eqn:El; cbn in Hl.
  - (* an inventory: the activity tags are refreshed *)
    left. eapply keeps_routes_trans; [exact Hl|].
    pose proof (kr_after ev
                  (bind (for_each l touch_gateway)
                     (fun _ => ret (assoc_set "nat-existing" (JBool true)
                                      [("statusCode", JNum 200)])))
                  (request_gateway_finish ev) w0 (kr_finish ev)) as Ha.
    unfold request_gateway_ensure.
    eapply keeps_routes_trans; [|].
    2:{ unfold try_except, bind in *. rewrite El. cbn. exact Ha. }
    unfold bind. pose proof (kr_for_each_touch l w0) as Ht.
    destruct (for_each l touch_gateway w0) as [[[]|?] ?]; exact Ht.
  - (* no inventory: provisioning, then the converger *)
    pose proof (kr_create w0) as Hc.
    destruct (create_nat_gateway w0) as [[g|e] w1] eqn:Ec; cbn in Hc.
    + right. exists w0, g, w1.
      split; [reflexivity|]. split; [exact Ec|]. split.
      * apply (keeps_routes_trans _ _ _ Hl Hc).
      * pose proof (kr_after ev
                      (bind (update_route_tables g)
                         (fun _ => ret [("statusCode", JNum 200)]))
                      (request_gateway_finish ev) w1 (kr_finish ev)) as Ha.
        unfold request_gateway_ensure, try_except, bind in *.
        rewrite El, Ec. cbn.
        destruct (update_route_tables g w1) as [[[]|?] ?]; exact Ha.
    + left. apply (keeps_routes_trans _ _ _ Hl).
      apply (keeps_routes_trans _ _ _ Hc).
      unfold request_gateway_ensure, try_except, bind.
      rewrite El, Ec. cbn. apply kr_except.
  - left. apply (keeps_routes_trans _ _ _ Hl).
    unfold request_gateway_ensure, try_except, bind. rewrite El. cbn.
    apply kr_except.
Qed.

(** *** The inventory *)

Lemma new_calls_app w w' l : trace w' = trace w ++ l -> new_calls w w' = l.
Proof. intros H. unfold new_calls. now rewrite H, drop_app_length. Qed.

Lemma list_nat_gateways_eq w :
  list_nat_gateways w
  = match environ w !! "VPC_ID" with
    | None => (Err (KeyError "VPC_ID"), w)
    | Some vpc_id =>
        let w0 := log (DescribeNatGateways ["pending"; "available"] vpc_id) w in
        match faults w (length (trace w)) with
        | Some e => (Err e, w0)
        | None =>
            (Ok (match inventory w vpc_id with [] => None | l => Some l end), w0)
        end
    end.
Proof.
  unfold list_nat_gateways, bind, os_environ.
  destruct (environ w !! "VPC_ID") as [vpc_id|]; [|reflexivity].
  unfold ec2_describe_nat_gateways, request.
  destruct (faults w (length (trace w))); [reflexivity|].
  cbn. fold (inventory w vpc_id).
  change (nat_gateways (log _ w)) with (nat_gateways w).
  fold (inventory w vpc_id).
  destruct (inventory w vpc_id); reflexivity.
Qed.

Lemma list_nat_gateways_None w w0 :
  list_nat_gateways w = (Ok None, w0) ->
  exists vpc_id,
    environ w !! "VPC_ID" = Some vpc_id
    /\ faults w (length (trace w)) = None
    /\ inventory w vpc_id = []
    /\ w0 = log (DescribeNatGateways ["pending"; "available"] vpc_id) w.
Proof.
  rewrite list_nat_gateways_eq.
  destruct (environ w !! "VPC_ID") as [vpc_id|]; [|discriminate].
  cbn. destruct (faults w (length (trace w))); [discriminate|].
  destruct (inventory w vpc_id) eqn:Ei; [|discriminate].
  intros [= <-]. exists vpc_id. auto.
Qed.

Lemma list_nat_gateways_Some w l w0 :
  list_nat_gateways w = (Ok (Some l), w0) ->
  exists vpc_id,
    environ w !! "VPC_ID" = Some vpc_id
    /\ faults w (length (trace w)) = None
    /\ inventory w vpc_id = l /\ l <> []
    /\ w0 = log (DescribeNatGateways ["pending"; "available"] vpc_id) w.
Proof.
  rewrite list_nat_gateways_eq.
  destruct (environ w !! "VPC_ID") as [vpc_id|]; [|discriminate].
  cbn. destruct (faults w (length (trace w))); [discriminate|].
  destruct (inventory w vpc_id) eqn:Ei; [discriminate|].
  intros [= <- <-]. exists vpc_id. repeat split; auto; discriminate.
Qed.


(** C5: with an empty inventory the check flow only queries the inventory:
    it deletes nothing, notifies nobody and returns no action list. *)
Theorem C5_empty_inventory_check_is_noop
    (unc : string -> result ((Z * Z * Z) * nat)) (ev : list (string * json))
    (w w0 : world) :
  list_nat_gateways w = (Ok None, w0) ->
  check_gateway_required unc ev w = (Ok JNull, w0)
  /\ nat_gateways w0 = nat_gateways w
  /\ route_tables w0 = route_tables w
  /\ exists vpc_id,
       new_calls w w0 = [DescribeNatGateways ["pending"; "available"] vpc_id].
Proof.
  intros H. split.
  - unfold check_gateway_required, bind. now rewrite H.
  - apply list_nat_gateways_None in H as (vpc_id & _ & _ & _ & ->).
    split; [reflexivity|]. split; [reflexivity|].
    exists vpc_id. now apply new_calls_app.
Qed.

(** *** The route converger *)

Lemma update_route_table_eq g rt w :
  update_route_table g rt w
  = match ec2_delete_route rt "0.0.0.0/0" w with
    | (Ok _, w1) => ec2_create_route rt "0.0.0.0/0" g w1
    | (Err (ClientError code m o), w1) =>
        if String.eqb code "InvalidRoute.NotFound"
        then ec2_create_route rt "0.0.0.0/0" g w1
        else (Err (ClientError code m o), w1)
    | (Err e, w1) => (Err e, w1)
    end.
Proof.
  unfold update_route_table, bind, try_except.
  destruct (ec2_delete_route rt "0.0.0.0/0" w) as [[[]|e] w1]; [reflexivity|].
  destruct e; try reflexivity. cbn.
  destruct (String.eqb code "InvalidRoute.NotFound"); reflexivity.
Qed.

Lemma for_each_app_Err {A} (body : A -> M unit) l1 x l2 w w1 e w2 :
  for_each l1 body w = (Ok tt, w1) -> body x w1 = (Err e, w2) ->
  for_each (l1 ++ x :: l2) body w = (Err e, w2).
Proof.
  revert w. induction l1 as [|y l1 IH]; intros w H1 H2; cbn [for_each app] in *.
  - injection H1 as <-. unfold bind. now rewrite H2.
  - unfold bind in *. destruct (body y w) as [[[]|?] w']; [|discriminate].
    now apply IH.
Qed.

Lemma delete_route_other rt cidr w rt' :
  rt' <> rt ->
  route_tables (ec2_delete_route rt cidr w).2 !! rt' = route_tables w !! rt'.
Proof.
  intros Hne. unfold ec2_delete_route, request.
  repeat case_match; cbn; try reflexivity.
  now rewrite lookup_insert_ne.
Qed.

Lemma create_route_other rt cidr g w rt' :
  rt' <> rt ->
  route_tables (ec2_create_route rt cidr g w).2 !! rt' = route_tables w !! rt'.
Proof.
  intros Hne. unfold ec2_create_route, request.
  repeat case_match; cbn; try reflexivity.
  now rewrite lookup_insert_ne.
Qed.

Lemma create_route_Ok rt cidr g w w' :
  ec2_create_route rt cidr g w = (Ok tt, w') ->
  match route_tables w' !! rt with
  | Some t => rt_Routes t !! cidr = Some g
  | None => False
  end.
Proof.
  unfold ec2_create_route, request.
  destruct (faults w (length (trace w))); [discriminate|].
  destruct (route_tables (log (CreateRoute rt cidr g) w) !! rt) as [t|];
    [|discriminate].
  destruct (rt_Routes t !! cidr); [discriminate|].
  destruct (nat_gateways (log (CreateRoute rt cidr g) w) !! g); [|discriminate].
  intros [= <-]. cbn. rewrite lookup_insert_eq. cbn. apply lookup_insert_eq.
Qed.

Lemma update_route_table_other g rt w rt' :
  rt' <> rt ->
  route_tables (update_route_table g rt w).2 !! rt' = route_tables w !! rt'.
Proof.
  intros Hne. rewrite update_route_table_eq.
  pose proof (delete_route_other rt "0.0.0.0/0" w rt' Hne) as Hd.
  destruct (ec2_delete_route rt "0.0.0.0/0" w) as [[[]|e] w1]; cbn in Hd.
  - now rewrite create_route_other.
  - destruct e; try exact Hd.
    destruct (String.eqb code "InvalidRoute.NotFound"); [|exact Hd].
    now rewrite create_route_other.
Qed.

Lemma update_route_table_Ok g rt w w' :
  update_route_table g rt w = (Ok tt, w') -> default_route w' rt = Some g.
Proof.
  rewrite update_route_table_eq. unfold default_route.
  destruct (ec2_delete_route rt "0.0.0.0/0" w) as [[[]|e] w1].
  - intros H%create_route_Ok. now destruct (route_tables w' !! rt).
  - destruct e; try discriminate.
    destruct (String.eqb code "InvalidRoute.NotFound"); [|discriminate].
    intros H%create_route_Ok. now destruct (route_tables w' !! rt).
Qed.

Lemma update_route_table_keeps g rt w w' rt' :
  update_route_table g rt w = (Ok tt, w') ->
  default_route w rt' = Some g -> default_route w' rt' = Some g.
Proof.
  intros H Hd. destruct (decide (rt' = rt)) as [->|Hne].
  - eapply update_route_table_Ok; eauto.
  - unfold default_route in *.
    pose proof (update_route_table_other g rt w rt' Hne) as Ho.
    rewrite H in Ho. cbn in Ho. now rewrite Ho.
Qed.

Lemma for_each_update_Ok g l w w' :
  for_each l (update_route_table g) w = (Ok tt, w') ->
  forall rt, rt ∈ l \/ default_route w rt = Some g -> default_route w' rt = Some g.
Proof.
  revert w. induction l as [|x l IH]; intros w H rt Hrt; cbn [for_each] in H.
  - injection H as <-. destruct Hrt as [Hin|?]; [|assumption].
    now apply elem_of_nil in Hin.
  - apply bind_Ok in H as ([] & w1 & Hx & Hl).
    apply (IH _ Hl). destruct Hrt as [Hin|Hd].
    + apply elem_of_cons in Hin as [->|Hin]; [right|now left].
      eapply update_route_table_Ok; eauto.
    + right. eapply update_route_table_keeps; eauto.
Qed.

Lemma update_route_tables_Ok g w w' :
  update_route_tables g w = (Ok tt, w') ->
  forall rt t,
    route_tables w !! rt = Some t -> on_demand_table t = true ->
    default_route w' rt = Some g.
Proof.
  unfold update_route_tables. intros H rt t Ht Htag.
  apply bind_Ok in H as (ids & w1 & Hd & Hl).
  apply (for_each_update_Ok _ _ _ _ Hl). left.
  unfold ec2_describe_route_tables, request in Hd.
  destruct (faults w (length (trace w))); [discriminate|].
  injection Hd as <- <-. cbn.
  apply list_elem_of_fmap. exists (rt, t). split; [reflexivity|].
  apply list_elem_of_filter. split; [exact Htag|].
  now apply elem_of_map_to_list.
Qed.

Lemma delete_route_trace rt cidr w :
  trace (ec2_delete_route rt cidr w).2 = trace w ++ [DeleteRoute rt cidr].
Proof. unfold ec2_delete_route, request. repeat case_match; reflexivity. Qed.

(** C2: the route converger deletes the default route of every tagged table,
    tolerating a missing route, then creates the route to the gateway; other
    failures propagate; after a successful run every tagged table routes to
    the gateway. *)
Theorem C2_route_convergence (g : string) :
  (forall rt w,
      trace (ec2_delete_route rt "0.0.0.0/0" w).2
      = trace w ++ [DeleteRoute rt "0.0.0.0/0"]
      /\ update_route_table g rt w
         = match ec2_delete_route rt "0.0.0.0/0" w with
           | (Ok _, w1) => ec2_create_route rt "0.0.0.0/0" g w1
           | (Err (ClientError code m o), w1) =>
               if String.eqb code "InvalidRoute.NotFound"
               then ec2_create_route rt "0.0.0.0/0" g w1
               else (Err (ClientError code m o), w1)
           | (Err e, w1) => (Err e, w1)
           end)
  /\ (forall l1 rt l2 w w1 e w2,
         for_each l1 (update_route_table g) w = (Ok tt, w1) ->
         update_route_table g rt w1 = (Err e, w2) ->
         for_each (l1 ++ rt :: l2) (update_route_table g) w = (Err e, w2))
  /\ (forall w w',
         update_route_tables g w = (Ok tt, w') ->
         forall rt t,
           route_tables w !! rt = Some t -> on_demand_table t = true ->
           default_route w' rt = Some g).
Proof.
  split; [|split].
  - intros rt w. split; [apply delete_route_trace | apply update_route_table_eq].
  - intros. eapply for_each_app_Err; eauto.
  - apply update_route_tables_Ok.
Qed.

(** *** The inactivity of a gateway *)

Lemma compute_inactivity_no_tag unc id st created w :
  compute_inactivity unc (id, st, created, None) w
  = match datetime_now (tzinfo created) w with
    | (Ok now, w1) =>
        match datetime_sub now created with
        | Ok age => (Ok (age, age), w1)
        | Err e => (Err e, w1)
        end
    | (Err e, w1) => (Err e, w1)
    end.
Proof.
  unfold compute_inactivity, bind, lift, ret.
  destruct (datetime_now (tzinfo created) w) as [[now|e] w1]; [|reflexivity].
  destruct (datetime_sub now created); reflexivity.
Qed.

Lemma compute_inactivity_tag unc id st created s w :
  compute_inactivity unc (id, st, created, Some s) w
  = match datetime_now (tzinfo created) w with
    | (Ok now, w1) =>
        match datetime_sub now created with
        | Ok age =>
            let w2 := set_ticks (S (ticks w1)) w1 in
            match isoparse unc s with
            | Ok parsed =>
                match datetime_sub (utcnow_at w1 (ticks w1)) parsed with
                | Ok inactive => (Ok (age, inactive), w2)
                | Err e => (Err e, w2)
                end
            | Err e => (Err e, w2)
            end
        | Err e => (Err e, w1)
        end
    | (Err e, w1) => (Err e, w1)
    end.
Proof.
  unfold compute_inactivity, bind, lift, ret, datetime_utcnow, utcnow_at.
  destruct (datetime_now (tzinfo created) w) as [[now|e] w1]; [|reflexivity].
  destruct (datetime_sub now created); [|reflexivity].
  destruct (isoparse unc s); [|reflexivity].
  destruct (datetime_sub _ _); reflexivity.
Qed.

Lemma datetime_now_world tz w :
  (datetime_now tz w).2 = set_ticks (S (ticks w)) w.
Proof. unfold datetime_now. now destruct tz. Qed.

Lemma compute_inactivity_tag_Ok unc id st created s w age inactive w1 :
  compute_inactivity unc (id, st, created, Some s) w = (Ok (age, inactive), w1) ->
  exists parsed,
    isoparse unc s = Ok parsed
    /\ datetime_sub (utcnow_at w (S (ticks w))) parsed = Ok inactive.
Proof.
  rewrite compute_inactivity_tag.
  pose proof (datetime_now_world (tzinfo created) w) as Hw.
  destruct (datetime_now (tzinfo created) w) as [[now|e] w']; [|discriminate].
  cbn in Hw. subst w'.
  destruct (datetime_sub now created); [|discriminate]. cbv zeta.
  destruct (isoparse unc s) as [parsed|]; [|discriminate].
  change (utcnow_at (set_ticks (S (ticks w)) w) (ticks (set_ticks (S (ticks w)) w)))
    with (utcnow_at w (S (ticks w))).
  destruct (datetime_sub (utcnow_at w (S (ticks w))) parsed) eqn:Es; [|discriminate].
  intros [= _ <- _]. eauto.
Qed.

(** C3: without a last-requested tag the inactivity is now minus the
    creation time; with a tag it is now minus the parsed tag, whatever the
    creation time. *)
Theorem C3_inactivity_fallback
    (unc : string -> result ((Z * Z * Z) * nat)) (id st : string)
    (created : datetime) (w : world) :
  (forall age inactive w1,
      compute_inactivity unc (id, st, created, None) w = (Ok (age, inactive), w1) ->
      exists now,
        (datetime_now (tzinfo created) w).1 = Ok now
        /\ datetime_sub now created = Ok inactive)
  /\ (forall s age inactive w1,
         compute_inactivity unc (id, st, created, Some s) w
         = (Ok (age, inactive), w1) ->
         exists parsed,
           isoparse unc s = Ok parsed
           /\ datetime_sub (utcnow_at w (S (ticks w))) parsed = Ok inactive)
  /\ (forall s id' st' created' age inactive w1 age' inactive' w1',
         compute_inactivity unc (id, st, created, Some s) w
         = (Ok (age, inactive), w1) ->
         compute_inactivity unc (id', st', created', Some s) w
         = (Ok (age', inactive'), w1') ->
         inactive' = inactive).
Proof.
  split; [|split].
  - intros age inactive w1. rewrite compute_inactivity_no_tag.
    destruct (datetime_now (tzinfo created) w) as [[now|e] w']; [|discriminate].
    destruct (datetime_sub now created) eqn:Es; [|discriminate].
    intros [= _ <- _]. exists now. now split.
  - intros s age inactive w1. apply compute_inactivity_tag_Ok.
  - intros s id' st' created' age inactive w1 age' inactive' w1' H1 H2.
    apply compute_inactivity_tag_Ok in H1 as (p1 & Hp1 & Hs1).
    apply compute_inactivity_tag_Ok in H2 as (p2 & Hp2 & Hs2).
    congruence.
Qed.

(** *** The reaper *)

Lemma compute_inactivity_trace unc g w :
  trace (compute_inactivity unc g w).2 = trace w.
Proof.
  destruct g as [[[id st] created] [s|]].
  - rewrite compute_inactivity_tag.
    pose proof (datetime_now_world (tzinfo created) w) as Hw.
    destruct (datetime_now (tzinfo created) w) as [[now|e] w1]; cbn in Hw; subst w1;
      [|reflexivity].
    repeat case_match; reflexivity.
  - rewrite compute_inactivity_no_tag.
    pose proof (datetime_now_world (tzinfo created) w) as Hw.
    destruct (datetime_now (tzinfo created) w) as [[now|e] w1]; cbn in Hw; subst w1;
      [|reflexivity].
    repeat case_match; reflexivity.
Qed.

Lemma delete_nat_gateway_trace id w :
  trace (ec2_delete_nat_gateway id w).2 = trace w ++ [DeleteNatGateway id].
Proof. unfold ec2_delete_nat_gateway, request. repeat case_match; reflexivity. Qed.

Lemma reap_deleted id age inactive w :
  timedelta_minutes 45 <= inactive ->
  reap id age inactive w
  = match ec2_delete_nat_gateway id w with
    | (Ok _, w2) => (Ok (action_record "deleted" id age inactive), w2)
    | (Err e, w2) => (Err e, w2)
    end.
Proof.
  intros H. unfold reap, REAP_THRESHOLD.
  destruct (Z.leb_spec (timedelta_minutes 45) inactive); [|lia].
  unfold bind, ret. now destruct (ec2_delete_nat_gateway id w) as [[[]|?] ?].
Qed.

Lemma reap_skipped id age inactive w :
  inactive < timedelta_minutes 45 ->
  reap id age inactive w = (Ok (action_record "skipped" id age inactive), w).
Proof.
  intros H. unfold reap, REAP_THRESHOLD.
  destruct (Z.leb_spec (timedelta_minutes 45) inactive); [lia|reflexivity].
Qed.

Lemma check_gateway_eq unc g w :
  check_gateway unc g w
  = match compute_inactivity unc g w with
    | (Ok (age, inactive), w1) => reap g.1.1.1 age inactive w1
    | (Err e, w1) => (Err e, w1)
    end.
Proof.
  unfold check_gateway, bind.
  now destruct (compute_inactivity unc g w) as [[[age inactive]|e] w1].
Qed.

Lemma check_gateways_cons unc g l acc w :
  check_gateways unc (g :: l) acc w
  = match check_gateway unc g w with
    | (Ok r, w1) => check_gateways unc l (acc ++ [r]) w1
    | (Err e, w1) => (Err e, w1)
    end.
Proof. reflexivity. Qed.




(** *** Which calls a program makes *)

Ltac ci_fin :=
  idtac;
  first [ now apply calls_in_same_trace
        | now apply calls_in_log
        | solve [eexists [_]; split; reflexivity] ].

Ltac ci :=
  intros;
  lazymatch goal with
  | |- steps (calls_in ?P) _ =>
      solve_steps (calls_in_refl P) (calls_in_trans P) ltac:(ci_fin)
  end.



(** *** Failure reporting on the request path *)

Lemma event_job_id_mem ev job_id :
  event_job_id ev = Ok job_id -> dict_mem "CodePipeline.job" ev = true.
Proof.
  unfold event_job_id, dict_mem. cbn.
  destruct (assoc_lookup "CodePipeline.job" ev); [reflexivity|discriminate].
Qed.

Lemma job_failure_trace job_id t m w :
  trace (cp_put_job_failure_result job_id t m w).2
  = trace w ++ [PutJobFailureResult job_id t m].
Proof.
  unfold cp_put_job_failure_result, request. now repeat case_match.
Qed.

Lemma except_no_job ev e w :
  dict_mem "CodePipeline.job" ev = false ->
  request_gateway_except ev e w = (Err e, w).
Proof. unfold request_gateway_except. now intros ->. Qed.

Lemma except_job ev e w job_id :
  event_job_id ev = Ok job_id ->
  request_gateway_except ev e w
  = match cp_put_job_failure_result job_id "JobFailed" (str_exn e) w with
    | (Ok _, w') => (Err e, w')
    | (Err e', w') => (Err e', w')
    end.
Proof.
  intros Hid. unfold request_gateway_except.
  rewrite (event_job_id_mem _ _ Hid), Hid. unfold bind, lift, raise.
  now destruct (cp_put_job_failure_result job_id "JobFailed" (str_exn e) w)
    as [[[]|?] ?].
Qed.

Lemma except_is_Err ev e w : is_Err (request_gateway_except ev e w).1.
Proof.
  unfold request_gateway_except, bind, raise, lift.
  destruct (dict_mem "CodePipeline.job" ev); [|exact I].
  destruct (event_job_id ev) as [a|]; [|exact I].
  now destruct (cp_put_job_failure_result a "JobFailed" (str_exn e) w)
    as [[[]|?] ?].
Qed.

Lemma handler_of_try_Err ev w e w1 :
  request_gateway_try ev w = (Err e, w1) ->
  request_gateway_handler ev w = request_gateway_except ev e w1.
Proof. unfold request_gateway_handler, try_except. now intros ->. Qed.

Lemma handler_of_try_Ok ev w out w1 :
  request_gateway_try ev w = (Ok out, w1) ->
  request_gateway_handler ev w = (Ok out, w1).
Proof. unfold request_gateway_handler, try_except. now intros ->. Qed.



(** *** The last-requested tag *)

Lemma isoparse_utcnow unc w k :
  valid_datetime (clock w k) = true ->
  isoparse unc (str_datetime (utcnow_at w k)) = Ok (utcnow_at w k).
Proof. intros H. apply isoparse_str_datetime; [exact H|reflexivity]. Qed.

Lemma same_time_refl w : same_time w w.
Proof. now split. Qed.

Lemma same_time_trans w1 w2 w3 : same_time w1 w2 -> same_time w2 w3 -> same_time w1 w3.
Proof. intros [? ?] [? ?]. split; congruence. Qed.

Ltac st_request :=
  apply steps_request;
  [ exact same_time_trans
  | intros w; now split
  | intros w; repeat case_match; now split ].

Lemma st_os_environ k : steps same_time (os_environ k).
Proof. intros w. unfold os_environ. case_match; now split. Qed.

Lemma st_random_choice {A} (l : list A) : steps same_time (random_choice l).
Proof. intros w. destruct l; now split. Qed.

Lemma st_describe_addresses a b : steps same_time (ec2_describe_addresses a b).
Proof. st_request. Qed.

Lemma st_describe_subnets a b : steps same_time (ec2_describe_subnets a b).
Proof. st_request. Qed.

Lemma st_create_nat_gateway a b : steps same_time (ec2_create_nat_gateway a b).
Proof. st_request. Qed.

Lemma create_tags_Ok g tags w w' :
  ec2_create_tags [g] tags w = (Ok tt, w') ->
  is_Some (nat_gateways w !! g)
  /\ nat_gateways w' = alter (add_tags tags) g (nat_gateways w)
  /\ same_time w w'
  /\ trace w' = trace w ++ [CreateTags [g] tags].
Proof.
  unfold ec2_create_tags, request.
  destruct (faults w (length (trace w))); [discriminate|].
  cbn [forallb]. rewrite andb_true_r.
  change (nat_gateways (log _ w)) with (nat_gateways w).
  destruct (bool_decide_reflect (is_Some (nat_gateways w !! g))) as [Hs|];
    [|discriminate].
  intros [= <-]. repeat split. exact Hs.
Qed.

Lemma wait_Ok_tags g w w' :
  ec2_wait_nat_gateway_available [g] w = (Ok tt, w') ->
  last_requested w' g = last_requested w g.
Proof.
  unfold ec2_wait_nat_gateway_available, request.
  destruct (faults w (length (trace w))); [discriminate|].
  case_match; [|discriminate]. intros [= <-].
  unfold last_requested. cbn. rewrite lookup_alter_eq.
  now destruct (nat_gateways w !! g).
Qed.

Lemma add_tags_last_requested s g :
  gw_Tags (add_tags [("LastRequested", s)] g) !! "LastRequested" = Some s.
Proof. cbn. apply lookup_insert_eq. Qed.

Lemma create_nat_gateway_Ok w g w' :
  create_nat_gateway w = (Ok g, w') ->
  last_requested w' g = Some (str_datetime (utcnow_at w (ticks w))).
Proof.
  unfold create_nat_gateway. intros H.
  apply bind_Ok in H as (name & w1 & H1 & H).
  apply bind_Ok in H as (alloc & w2 & H2 & H).
  apply bind_Ok in H as (vpc & w3 & H3 & H).
  apply bind_Ok in H as (sns & w4 & H4 & H).
  apply bind_Ok in H as (sn & w5 & H5 & H).
  apply bind_Ok in H as (g' & w6 & H6 & H).
  apply bind_Ok in H as (now & w7 & H7 & H).
  apply bind_Ok in H as (name' & w8 & H8 & H).
  apply bind_Ok in H as ([] & w9 & H9 & H).
  apply bind_Ok in H as ([] & w10 & H10 & H).
  injection H as -> <-.
  assert (Ht : same_time w w6).
  { pose proof (st_os_environ "VPC_NAME" w) as S1. rewrite H1 in S1.
    pose proof (st_describe_addresses "OnDemandNAT-IPAddr" name w1) as S2.
    rewrite H2 in S2.
    pose proof (st_os_environ "VPC_ID" w2) as S3. rewrite H3 in S3.
    pose proof (st_describe_subnets "Yes" vpc w3) as S4. rewrite H4 in S4.
    pose proof (st_random_choice sns w4) as S5. rewrite H5 in S5.
    pose proof (st_create_nat_gateway alloc sn w5) as S6. rewrite H6 in S6.
    cbn [snd] in *.
    repeat (eapply same_time_trans; [eassumption|]). apply same_time_refl. }
  injection H7 as <- <-.
  destruct Ht as [Hc Hk]. rewrite Hc, Hk in H9.
  assert (w8 = set_ticks (S (ticks w6)) w6) as ->.
  { unfold os_environ in H8. case_match; now simplify_eq. }
  apply create_tags_Ok in H9 as ([gw Hgw] & Hm & _ & _).
  rewrite (wait_Ok_tags _ _ _ H10). unfold last_requested.
  rewrite Hm, lookup_alter_eq.
  change (nat_gateways (set_ticks _ w6)) with (nat_gateways w6) in *.
  rewrite Hgw. cbn. rewrite lookup_insert_ne by discriminate.
  rewrite lookup_insert_ne by discriminate.
  rewrite lookup_insert_ne by discriminate.
  apply lookup_insert_eq.
Qed.

Lemma touch_gateway_Ok g w w' :
  touch_gateway g w = (Ok tt, w') ->
  last_requested w' g.1.1.1 = Some (str_datetime (utcnow_at w (ticks w)))
  /\ new_calls w w'
     = [CreateTags [g.1.1.1]
          [("LastRequested", str_datetime (utcnow_at w (ticks w)))]]
  /\ ticks w' = S (ticks w) /\ clock w' = clock w.
Proof.
  destruct g as [[[id st] created] tag]. unfold touch_gateway. intros H.
  apply bind_Ok in H as (now & w1 & H1 & H). injection H1 as <- <-.
  apply create_tags_Ok in H as ([gw Hgw] & Hm & [Hc Hk] & Htr).
  change (nat_gateways (set_ticks _ w)) with (nat_gateways w) in *.
  repeat split.
  - unfold last_requested. rewrite Hm, lookup_alter_eq, Hgw. cbn.
    apply lookup_insert_eq.
  - now apply new_calls_app.
  - exact Hk.
  - exact Hc.
Qed.

(** C8: the value written as the last-requested tag, by provisioning or by
    a refresh, is parsed back by [isoparse] to the instant that was written. *)
Theorem C8_last_requested_round_trip
    (unc : string -> result ((Z * Z * Z) * nat)) (w : world) :
  (forall k, valid_datetime (clock w k) = true) ->
  (forall k, isoparse unc (str_datetime (utcnow_at w k)) = Ok (utcnow_at w k))
  /\ (forall g w',
      create_nat_gateway w = (Ok g, w') ->
      exists s,
        last_requested w' g = Some s
        /\ s = str_datetime (utcnow_at w (ticks w))
        /\ isoparse unc s = Ok (utcnow_at w (ticks w)))
  /\ (forall g w',
         touch_gateway g w = (Ok tt, w') ->
         exists s,
           last_requested w' g.1.1.1 = Some s
           /\ s = str_datetime (utcnow_at w (ticks w))
           /\ isoparse unc s = Ok (utcnow_at w (ticks w))).
Proof.
  intros Hv. split; [|split].
  - intros k. apply isoparse_utcnow, Hv.
  - intros g w' H. eexists. split; [eapply create_nat_gateway_Ok; eauto|].
    split; [reflexivity|]. apply isoparse_utcnow, Hv.
  - intros g w' H. apply touch_gateway_Ok in H as (Hl & _).
    eexists. split; [exact Hl|]. split; [reflexivity|]. apply isoparse_utcnow, Hv.
Qed.

(** *** Preorders on worlds kept by the steps of the request flow *)

Lemma gu_refl w : gateways_untouched w w.
Proof. now repeat split. Qed.

Lemma gu_trans w1 w2 w3 :
  gateways_untouched w1 w2 -> gateways_untouched w2 w3 -> gateways_untouched w1 w3.
Proof. intros (?&?&?&?) (?&?&?&?). repeat split; congruence. Qed.

Ltac gu := solve_steps gu_refl gu_trans ltac:(now repeat split).

Lemma gu_list : steps gateways_untouched list_nat_gateways.
Proof. unfold list_nat_gateways. gu. Qed.

Lemma gu_finish ev info : steps gateways_untouched (request_gateway_finish ev info).
Proof. unfold request_gateway_finish, invoke_lambda. gu. Qed.

Lemma gu_except ev e : steps gateways_untouched (request_gateway_except ev e).
Proof. unfold request_gateway_except. gu. Qed.

Lemma gk_refl w : gateways_kept w w.
Proof. now intros id. Qed.

Lemma gk_trans w1 w2 w3 :
  gateways_kept w1 w2 -> gateways_kept w2 w3 -> gateways_kept w1 w3.
Proof. intros H1 H2 id H. auto. Qed.

Lemma is_Some_foldl_alter (f : nat_gateway -> nat_gateway) ids
    (m : gmap string nat_gateway) id :
  is_Some (m !! id) -> is_Some (foldl (fun m r => alter f r m) m ids !! id).
Proof.
  revert m. induction ids as [|r ids IH]; intros m H; [exact H|].
  cbn. apply IH. rewrite lookup_alter. case_decide; [subst|exact H].
  destruct H as [x Hx]. rewrite Hx. now eexists.
Qed.

Ltac gk_fin :=
  idtac;
  let id := fresh "id" in let H := fresh "H" in
  intros id H;
  first [ exact H
        | now apply is_Some_foldl_alter
        | now apply (is_Some_foldl_alter _ [_])
        | rewrite lookup_insert; case_decide; [now eexists | exact H] ].

Ltac gk := solve_steps gk_refl gk_trans ltac:(gk_fin).

Lemma gk_update_route_tables g : steps gateways_kept (update_route_tables g).
Proof.
  unfold update_route_tables, update_route_table, ignore_route_not_found. gk.
Qed.

Lemma gk_finish ev info : steps gateways_kept (request_gateway_finish ev info).
Proof. unfold request_gateway_finish, invoke_lambda. gk. Qed.

Lemma gk_create_tags rs tags : steps gateways_kept (ec2_create_tags rs tags).
Proof. gk. Qed.

Lemma gk_wait ids : steps gateways_kept (ec2_wait_nat_gateway_available ids).
Proof. gk. Qed.

(** *** The request flow over an existing inventory *)

Lemma ro_refl w : refreshed_only w w.
Proof. repeat split; try reflexivity. apply calls_in_refl. Qed.

Lemma ro_trans w1 w2 w3 :
  refreshed_only w1 w2 -> refreshed_only w2 w3 -> refreshed_only w1 w3.
Proof.
  intros (?&?&?&Hc1&?) (?&?&?&Hc2&?).
  split; [congruence|]. split; [congruence|]. split; [lia|]. split.
  - intros id. now rewrite Hc2.
  - eapply calls_in_trans; eauto.
Qed.

Lemma core_foldl_alter tags ids (m : gmap string nat_gateway) id :
  gateway_core <$> foldl (fun m r => alter (add_tags tags) r m) m ids !! id
  = gateway_core <$> m !! id.
Proof.
  revert m. induction ids as [|r ids IH]; intros m; [reflexivity|].
  cbn. rewrite IH, lookup_alter. case_decide; [subst|reflexivity].
  now destruct (m !! id).
Qed.

Ltac ro_fin :=
  idtac;
  repeat split; cbn;
  first [ reflexivity | lia | apply core_foldl_alter
        | now apply calls_in_same_trace
        | now apply calls_in_log
        | solve [eexists [_]; split; reflexivity]
        | let id := fresh "id" in
          intros id; rewrite lookup_alter; case_decide; subst;
          [destruct (_ !! _)|]; reflexivity ].

Ltac ro := solve_steps ro_refl ro_trans ltac:(ro_fin).

Lemma ro_list : steps refreshed_only list_nat_gateways.
Proof. unfold list_nat_gateways. ro. Qed.

Lemma ro_touch g : steps refreshed_only (touch_gateway g).
Proof. unfold touch_gateway. ro. Qed.

Lemma ro_finish ev info : steps refreshed_only (request_gateway_finish ev info).
Proof. unfold request_gateway_finish, invoke_lambda. ro. Qed.

Lemma ro_except ev e : steps refreshed_only (request_gateway_except ev e).
Proof. unfold request_gateway_except. ro. Qed.

(** The handler after the inventory query. *)
Lemma handler_touch_eq ev w l w0 :
  list_nat_gateways w = (Ok (Some l), w0) ->
  request_gateway_handler ev w
  = try_except
      (bind (bind (for_each l touch_gateway)
               (fun _ => ret [("statusCode", JNum 200); ("nat-existing", JBool true)]))
         (request_gateway_finish ev))
      (request_gateway_except ev) w0.
Proof.
  intros H. unfold request_gateway_handler, try_except, request_gateway_try,
    request_gateway_ensure.
  unfold bind at 1 2 5. now rewrite H.
Qed.

Lemma handler_provision_eq ev w w0 :
  list_nat_gateways w = (Ok None, w0) ->
  request_gateway_handler ev w
  = try_except
      (bind (bind create_nat_gateway
               (fun g => bind (update_route_tables g)
                           (fun _ => ret [("statusCode", JNum 200)])))
         (request_gateway_finish ev))
      (request_gateway_except ev) w0.
Proof.
  intros H. unfold request_gateway_handler, try_except, request_gateway_try,
    request_gateway_ensure.
  unfold bind at 1 2 7. now rewrite H.
Qed.

Lemma try_except_Ok {A} (m : M A) h w a w' :
  (forall e w1, is_Err (h e w1).1) ->
  try_except m h w = (Ok a, w') -> m w = (Ok a, w').
Proof.
  intros Hh. unfold try_except. destruct (m w) as [[x|e] w1]; [easy|].
  intros H. specialize (Hh e w1). rewrite H in Hh. contradiction.
Qed.

Lemma finish_Ok ev info w out w' :
  request_gateway_finish ev info w = (Ok out, w') -> out = JDict info.
Proof.
  unfold request_gateway_finish. intros H.
  apply bind_Ok in H as (? & ? & _ & H).
  apply bind_Ok in H as (? & ? & _ & H).
  apply bind_Ok in H as (? & ? & _ & H).
  now injection H as <- _.
Qed.

Lemma ro_handler_touch ev w l w0 :
  list_nat_gateways w = (Ok (Some l), w0) ->
  refreshed_only w (request_gateway_handler ev w).2.
Proof.
  intros H. rewrite (handler_touch_eq _ _ _ _ H).
  pose proof (ro_list w) as Hl. rewrite H in Hl. cbn in Hl.
  apply (ro_trans _ _ _ Hl).
  assert (Hs : steps refreshed_only
                 (try_except
                    (bind (bind (for_each l touch_gateway)
                             (fun _ => ret [("statusCode", JNum 200);
                                            ("nat-existing", JBool true)]))
                       (request_gateway_finish ev))
                    (request_gateway_except ev))).
  { apply (steps_try_except _ ro_trans); [|apply ro_except].
    apply (steps_bind _ ro_trans); [|apply ro_finish].
    apply (steps_bind _ ro_trans); [|ro].
    apply (steps_for_each _ ro_refl ro_trans), ro_touch. }
  apply Hs.
Qed.

Lemma last_requested_alter_ne f (w w' : world) g id :
  nat_gateways w' = alter f g (nat_gateways w) -> id <> g ->
  last_requested w' id = last_requested w id.
Proof.
  intros H Hne. unfold last_requested. now rewrite H, lookup_alter_ne.
Qed.

Lemma touch_gateway_other g w w' id :
  touch_gateway g w = (Ok tt, w') -> id <> g.1.1.1 ->
  last_requested w' id = last_requested w id.
Proof.
  destruct g as [[[gid st] created] tag]. unfold touch_gateway. intros H Hne.
  apply bind_Ok in H as (now & w1 & H1 & H). injection H1 as <- <-.
  apply create_tags_Ok in H as (_ & Hm & _ & _).
  eapply last_requested_alter_ne; eauto.
Qed.

Lemma touch_loop_tags base l w0 w1 :
  clock w0 = clock base -> (ticks base <= ticks w0)%nat ->
  for_each l touch_gateway w0 = (Ok tt, w1) ->
  clock w1 = clock base /\ (ticks w0 <= ticks w1)%nat
  /\ forall id,
       (exists g, g ∈ l /\ g.1.1.1 = id) \/ refreshed_since base w0 id ->
       refreshed_since base w1 id.
Proof.
  revert w0. induction l as [|g l IH]; intros w0 Hc Hk H; cbn [for_each] in H.
  - injection H as <-. repeat split; [exact Hc | lia |].
    intros id [(g & Hin & _)|Hq]; [|exact Hq]. now apply elem_of_nil in Hin.
  - apply bind_Ok in H as ([] & w' & Hg & Hl).
    pose proof (touch_gateway_Ok _ _ _ Hg) as (Hlr & _ & Hk' & Hc').
    destruct (IH w') as (Hc1 & Hk1 & Hq1); [congruence | lia | exact Hl |].
    repeat split; [exact Hc1 | lia |].
    intros id Hid. apply Hq1.
    destruct (decide (id = g.1.1.1)) as [->|Hne].
    + right. exists (ticks w0). split; [lia|].
      rewrite Hlr. unfold utcnow_at. now rewrite Hc.
    + destruct Hid as [(g' & Hin & Heq)|(k & Hk0 & Hq)].
      * apply elem_of_cons in Hin as [->|Hin]; [congruence|]. left. eauto.
      * right. exists k. split; [lia|].
        now rewrite (touch_gateway_other _ _ _ _ Hg Hne).
Qed.

Lemma handler_touch_Ok ev w l w0 out w' :
  list_nat_gateways w = (Ok (Some l), w0) ->
  request_gateway_handler ev w = (Ok out, w') ->
  out = JDict [("statusCode", JNum 200); ("nat-existing", JBool true)]
  /\ forall g, g ∈ l -> refreshed_between w w' g.1.1.1.
Proof.
  intros Hl H. rewrite (handler_touch_eq _ _ _ _ Hl) in H.
  apply try_except_Ok in H; [|apply except_is_Err].
  apply bind_Ok in H as (info & w2 & He & Hf).
  apply bind_Ok in He as ([] & w1 & Ht & Hr). injection Hr as <- <-.
  split; [eapply finish_Ok; eauto|].
  pose proof (gu_list w) as Hgl. rewrite Hl in Hgl. destruct Hgl as (_ & Hc0 & Hk0 & _).
  cbn [snd] in *.
  destruct (touch_loop_tags w0 l w0 w1) as (Hc1 & Hk1 & Hq); [reflexivity|lia|exact Ht|].
  pose proof (gu_finish ev [("statusCode", JNum 200); ("nat-existing", JBool true)] w1)
    as Hgf.
  rewrite Hf in Hgf. destruct Hgf as (Hg2 & Hc2 & Hk2 & _). cbn [snd] in *.
  intros g Hin. destruct (Hq g.1.1.1) as (k & Hk & Hlr); [left; eauto|].
  exists k. split; [lia|].
  unfold last_requested in *. rewrite Hg2, Hlr. unfold utcnow_at. congruence.
Qed.

(** *** Two requests in a row *)

Lemma inventory_elem w vpc id :
  (exists g, g ∈ inventory w vpc /\ g.1.1.1 = id)
  <-> exists gw, nat_gateways w !! id = Some gw
                 /\ gateway_matches ["pending"; "available"] vpc (id, gw) = true.
Proof.
  unfold inventory. split.
  - intros (g & Hin & <-).
    apply list_elem_of_fmap in Hin as ([id gw] & -> & Hin).
    apply list_elem_of_filter in Hin as [Hm Hin].
    apply elem_of_map_to_list in Hin. eauto.
  - intros (gw & Hl & Hm). exists (project_gateway (id, gw)). split; [|reflexivity].
    apply list_elem_of_fmap. exists (id, gw). split; [reflexivity|].
    apply list_elem_of_filter. split; [exact Hm|]. now apply elem_of_map_to_list.
Qed.

Lemma inventory_core w w1 vpc id :
  (forall id, gateway_core <$> nat_gateways w1 !! id
              = gateway_core <$> nat_gateways w !! id) ->
  (exists g, g ∈ inventory w vpc /\ g.1.1.1 = id) ->
  exists g, g ∈ inventory w1 vpc /\ g.1.1.1 = id.
Proof.
  intros Hc. rewrite !inventory_elem. intros (gw & Hl & Hm).
  specialize (Hc id). rewrite Hl in Hc.
  destruct (nat_gateways w1 !! id) as [gw1|]; [|discriminate].
  injection Hc as Hs Hv. exists gw1. split; [reflexivity|].
  unfold gateway_matches in *. cbn in *. now rewrite Hs, Hv.
Qed.

Lemma same_ids_of_core w w' :
  (forall id, gateway_core <$> nat_gateways w' !! id
              = gateway_core <$> nat_gateways w !! id) ->
  same_gateway_ids w w'.
Proof.
  intros Hc id. specialize (Hc id).
  destruct (nat_gateways w' !! id), (nat_gateways w !! id); try discriminate;
    split; intros [? ?]; try discriminate; eauto.
Qed.

Lemma handler_Ok_list ev w out w' :
  request_gateway_handler ev w = (Ok out, w') ->
  exists gl w0, list_nat_gateways w = (Ok gl, w0).
Proof.
  intros H. apply try_except_Ok in H; [|apply except_is_Err].
  apply bind_Ok in H as (info & w1 & He & _).
  apply bind_Ok in He as (gl & w0 & Hl & _). eauto.
Qed.

Lemma two_requests ev ev2 w l w0 out1 w1 out2 w2 :
  list_nat_gateways w = (Ok (Some l), w0) ->
  request_gateway_handler ev w = (Ok out1, w1) ->
  request_gateway_handler ev2 w1 = (Ok out2, w2) ->
  forallb no_create_gateway (new_calls w w2) = true
  /\ same_gateway_ids w w2
  /\ forall g, g ∈ l ->
       refreshed_between w w1 g.1.1.1 /\ refreshed_between w1 w2 g.1.1.1.
Proof.
  intros Hl H1 H2.
  pose proof (ro_handler_touch ev w l w0 Hl) as R1. rewrite H1 in R1. cbn [snd] in R1.
  destruct (handler_touch_Ok _ _ _ _ _ _ Hl H1) as [_ Hq1].
  destruct (handler_Ok_list _ _ _ _ H2) as (gl & w1' & Hl2).
  apply list_nat_gateways_Some in Hl as (vpc & Hv & _ & Hinv & Hne & _).
  destruct R1 as (He & Hc & Hk & Hcore & Hcalls).
  assert (Hids : forall g, g ∈ l -> exists g2, g2 ∈ inventory w1 vpc /\ g2.1.1.1 = g.1.1.1).
  { intros g Hin. apply (inventory_core w); [exact Hcore|]. subst l. eauto. }
  assert (Hgl : gl = Some (inventory w1 vpc)).
  { rewrite list_nat_gateways_eq, He, Hv in Hl2. cbn in Hl2.
    destruct (faults w1 (length (trace w1))); [discriminate|].
    destruct (inventory w1 vpc) eqn:Ei; [|now injection Hl2 as <- _].
    destruct l as [|g l]; [contradiction|].
    destruct (Hids g) as (g2 & Hin & _); [left|]. now apply elem_of_nil in Hin. }
  subst gl.
  pose proof (ro_handler_touch ev2 w1 _ w1' Hl2) as R2. rewrite H2 in R2. cbn [snd] in R2.
  destruct (handler_touch_Ok _ _ _ _ _ _ Hl2 H2) as [_ Hq2].
  destruct R2 as (He2 & Hc2 & Hk2 & Hcore2 & Hcalls2).
  split; [|split].
  - apply calls_in_new_calls. eapply calls_in_trans; eauto.
  - apply same_ids_of_core. intros id. now rewrite Hcore2.
  - intros g Hin. split; [now apply Hq1|].
    destruct (Hids g Hin) as (g2 & Hin2 & <-). now apply Hq2.
Qed.

(** *** The request flow over an empty inventory *)

Lemma grows_list : steps (calls_in any_call) list_nat_gateways.
Proof. unfold list_nat_gateways. ci. Qed.

Lemma grows_update g : steps (calls_in any_call) (update_route_tables g).
Proof.
  unfold update_route_tables, update_route_table, ignore_route_not_found. ci.
Qed.

Lemma grows_finish ev info : steps (calls_in any_call) (request_gateway_finish ev info).
Proof. unfold request_gateway_finish, invoke_lambda. ci. Qed.

Lemma elem_of_new_calls_middle w a b z c :
  calls_in any_call w a -> trace b = trace a ++ [c] -> calls_in any_call b z ->
  c ∈ new_calls w z.
Proof.
  intros (l1 & H1 & _) Hb (l2 & H2 & _).
  rewrite (new_calls_app w z (l1 ++ [c] ++ l2)).
  - apply elem_of_app. right. now left.
  - rewrite H2, Hb, H1. now rewrite <- !app_assoc.
Qed.

Lemma ec2_create_nat_gateway_Ok alloc sn w g w' :
  ec2_create_nat_gateway alloc sn w = (Ok g, w') ->
  nat_gateways w !! g = None /\ is_Some (nat_gateways w' !! g)
  /\ trace w' = trace w ++ [CreateNatGateway alloc sn].
Proof.
  unfold ec2_create_nat_gateway, request.
  destruct (faults w (length (trace w))); [discriminate|].
  destruct alloc as [a|]; [|discriminate].
  case_match; [discriminate|]. case_match; [discriminate|].
  intros [= <- <-]. cbn. split; [apply fresh_string_fresh|].
  split; [|reflexivity]. rewrite lookup_insert_eq. now eexists.
Qed.

Lemma create_nat_gateway_new w g w' :
  create_nat_gateway w = (Ok g, w') ->
  nat_gateways w !! g = None /\ is_Some (nat_gateways w' !! g)
  /\ exists alloc sn, CreateNatGateway alloc sn ∈ new_calls w w'.
Proof.
  unfold create_nat_gateway. intros H.
  apply bind_Ok in H as (name & w1 & H1 & H).
  apply bind_Ok in H as (alloc & w2 & H2 & H).
  apply bind_Ok in H as (vpc & w3 & H3 & H).
  apply bind_Ok in H as (sns & w4 & H4 & H).
  apply bind_Ok in H as (sn & w5 & H5 & H).
  apply bind_Ok in H as (g' & w6 & H6 & H).
  apply bind_Ok in H as (now & w7 & H7 & H).
  apply bind_Ok in H as (name' & w8 & H8 & H).
  apply bind_Ok in H as ([] & w9 & H9 & H).
  apply bind_Ok in H as ([] & w10 & H10 & H).
  injection H as -> <-.
  assert (Hgk : gateways_kept w6 w10 /\ calls_in any_call w6 w10).
  { assert (Hs : forall m : M unit,
               steps gateways_kept m -> steps (calls_in any_call) m ->
               forall wa, gateways_kept wa (m wa).2
                          /\ calls_in any_call wa (m wa).2) by (intros; auto).
    pose proof (Hs (bind datetime_utcnow
                      (fun _ => bind (os_environ "VPC_NAME")
                         (fun _ => bind (ec2_create_tags [g]
                                    [("OnDemandNAT", "True");
                                     ("Name", "OnDemandNAT-Gateway");
                                     ("LastRequested", str_datetime now);
                                     ("ForVpc", name');
                                     ("Application", "OnDemandNAT");
                                     ("Environment", "Infrastructure")])
                            (fun _ => ec2_wait_nat_gateway_available [g]))))
                  ltac:(gk) ltac:(ci) w6) as Hp.
    unfold bind in Hp. rewrite H7, H8, H9, H10 in Hp. exact Hp. }
  destruct Hgk as [Hgk Hci].
  assert (Hpre : gateways_untouched w w5 /\ calls_in any_call w w5).
  { assert (Hs : forall m : M string,
               steps gateways_untouched m -> steps (calls_in any_call) m ->
               forall wa, gateways_untouched wa (m wa).2
                          /\ calls_in any_call wa (m wa).2) by (intros; auto).
    pose proof (Hs (bind (os_environ "VPC_NAME")
                      (fun name => bind (ec2_describe_addresses "OnDemandNAT-IPAddr" name)
                         (fun _ => bind (os_environ "VPC_ID")
                            (fun vpc => bind (ec2_describe_subnets "Yes" vpc)
                               (fun sns => random_choice sns)))))
                  ltac:(gu) ltac:(ci) w) as Hp.
    unfold bind in Hp. rewrite H1, H2, H3, H4, H5 in Hp. exact Hp. }
  destruct Hpre as [(Hg5 & _) Hc5].
  apply ec2_create_nat_gateway_Ok in H6 as (Hfresh & Hsome & Htr).
  split; [now rewrite <- Hg5|]. split; [now apply Hgk|].
  exists alloc, sn. eapply elem_of_new_calls_middle; eauto.
Qed.

Lemma handler_provision_Ok ev w w0 out w' :
  list_nat_gateways w = (Ok None, w0) ->
  request_gateway_handler ev w = (Ok out, w') ->
  out = JDict [("statusCode", JNum 200)]
  /\ exists g w1,
       create_nat_gateway w0 = (Ok g, w1)
       /\ nat_gateways w !! g = None
       /\ is_Some (nat_gateways w' !! g)
       /\ (exists alloc sn, CreateNatGateway alloc sn ∈ new_calls w w')
       /\ forall rt t,
            route_tables w !! rt = Some t -> on_demand_table t = true ->
            default_route w' rt = Some g.
Proof.
  intros Hl H. rewrite (handler_provision_eq _ _ _ Hl) in H.
  apply try_except_Ok in H; [|apply except_is_Err].
  apply bind_Ok in H as (info & w3 & He & Hf).
  apply bind_Ok in He as (g & w1 & Hc & He).
  apply bind_Ok in He as ([] & w2 & Hu & Hr). injection Hr as <- <-.
  split; [eapply finish_Ok; eauto|].
  exists g, w1. split; [exact Hc|].
  destruct (create_nat_gateway_new _ _ _ Hc) as (Hfresh & Hsome & alloc & sn & Hcall).
  pose proof (gu_list w) as Hgl. rewrite Hl in Hgl. destruct Hgl as (Hg0 & _).
  pose proof (kr_list_nat_gateways w) as Hkl. rewrite Hl in Hkl.
  pose proof (kr_create w0) as Hkc. rewrite Hc in Hkc.
  pose proof (kr_finish ev [("statusCode", JNum 200)] w2) as Hkf. rewrite Hf in Hkf.
  pose proof (gk_update_route_tables g w1) as Hgu. rewrite Hu in Hgu.
  pose proof (gk_finish ev [("statusCode", JNum 200)] w2) as Hgf. rewrite Hf in Hgf.
  pose proof (grows_list w) as Hcl. rewrite Hl in Hcl.
  pose proof (grows_update g w1) as Hcu. rewrite Hu in Hcu.
  pose proof (grows_finish ev [("statusCode", JNum 200)] w2) as Hcf. rewrite Hf in Hcf.
  cbn [snd] in *.
  split; [now rewrite <- Hg0|]. split; [now apply Hgf, Hgu|]. split.
  - exists alloc, sn.
    destruct Hcl as (l1 & T1 & _), Hcu as (l3 & T3 & _), Hcf as (l4 & T4 & _).
    unfold new_calls in Hcall. 
    assert (exists l2, trace w1 = trace w0 ++ l2) as (l2 & T2).
    { destruct (kr_create w0) as (_ & l2 & T2 & _). rewrite Hc in T2. eauto. }
    rewrite T2, drop_app_length in Hcall.
    rewrite (new_calls_app w w' (l1 ++ l2 ++ l3 ++ l4)).
    + rewrite !elem_of_app. eauto.
    + rewrite T4, T3, T2, T1. now rewrite <- !app_assoc.
  - intros rt t Ht Htag. destruct Hkl as [Er0 _], Hkc as [Er1 _], Hkf as [Er2 _].
    unfold default_route. rewrite Er2.
    apply (update_route_tables_Ok g w1 w2 Hu rt t); [|exact Htag].
    now rewrite Er1, Er0.
Qed.

(** C4: with an empty inventory the request flow provisions a gateway and
    converges the routes to it, and returns status 200 without [nat-existing];
    with an inventory it provisions nothing, refreshes the last-requested tag
    of every gateway found and returns [nat-existing]; two requests in a row
    over an inventory provision nothing and refresh the tags both times. *)
Theorem C4_request_flow (ev : list (string * json)) (w : world) :
  (forall w0 out w',
      list_nat_gateways w = (Ok None, w0) ->
      request_gateway_handler ev w = (Ok out, w') ->
      out = JDict [("statusCode", JNum 200)]
      /\ exists g w1,
           create_nat_gateway w0 = (Ok g, w1)
           /\ nat_gateways w !! g = None
           /\ is_Some (nat_gateways w' !! g)
           /\ (exists alloc sn, CreateNatGateway alloc sn ∈ new_calls w w')
           /\ forall rt t,
                route_tables w !! rt = Some t -> on_demand_table t = true ->
                default_route w' rt = Some g)
  /\ (forall l w0 out w',
         list_nat_gateways w = (Ok (Some l), w0) ->
         request_gateway_handler ev w = (Ok out, w') ->
         out = JDict [("statusCode", JNum 200); ("nat-existing", JBool true)]
         /\ forallb no_create_gateway (new_calls w w') = true
         /\ same_gateway_ids w w'
         /\ forall g, g ∈ l -> refreshed_between w w' g.1.1.1)
  /\ (forall ev2 l w0 out1 w1 out2 w2,
         list_nat_gateways w = (Ok (Some l), w0) ->
         request_gateway_handler ev w = (Ok out1, w1) ->
         request_gateway_handler ev2 w1 = (Ok out2, w2) ->
         forallb no_create_gateway (new_calls w w2) = true
         /\ same_gateway_ids w w2
         /\ forall g, g ∈ l ->
              refreshed_between w w1 g.1.1.1 /\ refreshed_between w1 w2 g.1.1.1).
Proof.
  split; [|split].
  - intros w0 out w'. apply handler_provision_Ok.
  - intros l w0 out w' Hl H.
    destruct (handler_touch_Ok _ _ _ _ _ _ Hl H) as [Ho Hq].
    pose proof (ro_handler_touch ev w l w0 Hl) as R. rewrite H in R.
    destruct R as (_ & _ & _ & Hcore & Hcalls).
    split; [exact Ho|]. split; [now apply calls_in_new_calls|].
    split; [now apply same_ids_of_core | exact Hq].
  - intros ev2 l w0 out1 w1 out2 w2. apply two_requests.
Qed.

(** *** Provisioning with a missing address or subnet *)

Lemma request_no_fault {A} c (serve : world -> result A * world) w :
  faults w (length (trace w)) = None -> request c serve w = serve (log c w).
Proof. unfold request. now intros ->. Qed.

Lemma create_nat_gateway_describe w vpc_name vpc_id :
  environ w !! "VPC_NAME" = Some vpc_name ->
  environ w !! "VPC_ID" = Some vpc_id ->
  (forall k, faults w k = None) ->
  create_nat_gateway w
  = let w2 := log (DescribeSubnets "Yes" vpc_id)
                (log (DescribeAddresses "OnDemandNAT-IPAddr" vpc_name) w) in
    bind (random_choice
            (sn_SubnetId
               <$> filter (fun s => subnet_matches "Yes" vpc_id s = true) (subnets w)))
      (fun subnetId =>
         bind (ec2_create_nat_gateway
                 (head (addr_AllocationId
                          <$> filter
                                (fun a => address_matches "OnDemandNAT-IPAddr" vpc_name a
                                          = true) (addresses w)))
                 subnetId)
           (fun gatewayId =>
              bind datetime_utcnow
                (fun now =>
                   bind (os_environ "VPC_NAME")
                     (fun vpc_name =>
                        bind (ec2_create_tags [gatewayId]
                                [("OnDemandNAT", "True"); ("Name", "OnDemandNAT-Gateway");
                                 ("LastRequested", str_datetime now);
                                 ("ForVpc", vpc_name); ("Application", "OnDemandNAT");
                                 ("Environment", "Infrastructure")])
                          (fun _ =>
                             bind (ec2_wait_nat_gateway_available [gatewayId])
                               (fun _ => ret gatewayId)))))) w2.
Proof.
  intros Hn Hv Hf. unfold create_nat_gateway.
  unfold bind at 1. unfold os_environ at 1. rewrite Hn.
  unfold bind at 1. unfold ec2_describe_addresses.
  rewrite request_no_fault by apply Hf.
  unfold bind at 1. unfold os_environ at 1.
  change (environ (log _ w)) with (environ w). rewrite Hv.
  unfold bind at 1. unfold ec2_describe_subnets.
  rewrite request_no_fault by (cbn; apply Hf).
  reflexivity.
Qed.

(** C6, amended: with no tagged address the null allocation is passed on to
    the create call of the provider client, which refuses it; with no tagged
    public subnet the choice of a subnet raises [IndexError] before any
    create call. *)
Theorem C6_missing_inputs (w : world) (vpc_name vpc_id : string) :
  environ w !! "VPC_NAME" = Some vpc_name ->
  environ w !! "VPC_ID" = Some vpc_id ->
  (forall k, faults w k = None) ->
  (filter (fun a => address_matches "OnDemandNAT-IPAddr" vpc_name a = true)
     (addresses w) = [] ->
   filter (fun s => subnet_matches "Yes" vpc_id s = true) (subnets w) <> [] ->
   exists subnet_id,
     (create_nat_gateway w).1
     = Err (ParamValidationError "Invalid type for parameter AllocationId, value: None")
     /\ new_calls w (create_nat_gateway w).2
        = [DescribeAddresses "OnDemandNAT-IPAddr" vpc_name;
           DescribeSubnets "Yes" vpc_id;
           CreateNatGateway None subnet_id]
     /\ nat_gateways (create_nat_gateway w).2 = nat_gateways w)
  /\ (filter (fun s => subnet_matches "Yes" vpc_id s = true) (subnets w) = [] ->
      (create_nat_gateway w).1 = Err (IndexError "Cannot choose from an empty sequence")
      /\ new_calls w (create_nat_gateway w).2
         = [DescribeAddresses "OnDemandNAT-IPAddr" vpc_name;
            DescribeSubnets "Yes" vpc_id]
      /\ nat_gateways (create_nat_gateway w).2 = nat_gateways w).
Proof.
  intros Hn Hv Hf. rewrite (create_nat_gateway_describe w vpc_name vpc_id Hn Hv Hf).
  cbv zeta. split.
  - intros -> Hs.
    destruct (filter (fun s => subnet_matches "Yes" vpc_id s = true) (subnets w))
      as [|s l]; [contradiction|].
    set (w2 := log (DescribeSubnets "Yes" vpc_id)
                 (log (DescribeAddresses "OnDemandNAT-IPAddr" vpc_name) w)).
    destruct (random_choice (sn_SubnetId <$> s :: l) w2) as [[sn|e] w3] eqn:Er;
      [|discriminate].
    assert (w3 = set_draws (S (draws w2)) w2) as -> by now injection Er.
    exists sn. rewrite (bind_eq_Ok _ _ _ _ _ Er).
    assert (Ec : ec2_create_nat_gateway None sn (set_draws (S (draws w2)) w2)
                 = (Err (ParamValidationError
                           "Invalid type for parameter AllocationId, value: None"),
                    log (CreateNatGateway None sn) (set_draws (S (draws w2)) w2))).
    { unfold ec2_create_nat_gateway. now rewrite request_no_fault by apply Hf. }
    cbn [head fmap list_fmap]. rewrite (bind_eq_Err _ _ _ _ _ Ec).
    cbn [fst snd]. repeat split.
    apply new_calls_app. cbn. now rewrite <- !app_assoc.
  - intros ->. cbn. repeat split.
    apply new_calls_app. cbn. now rewrite <- !app_assoc.
Qed.

(** *** The theorems at the example worlds *)

Section AtExamples.
Import Examples.


Lemma C2_witness :
  default_route (update_route_tables "nat-a" w_inventory).2 "rtb-1" = Some "nat-a"
  /\ default_route (update_route_tables "nat-a" w_inventory).2 "rtb-2" = Some "nat-a"
  /\ default_route (update_route_tables "nat-a" w_inventory).2 "rtb-4" = Some "nat-a".
Proof.
  assert (H : update_route_tables "nat-a" w_inventory
              = (Ok tt, (update_route_tables "nat-a" w_inventory).2))
    by (vm_compute; reflexivity).
  pose proof (proj2 (proj2 (C2_route_convergence "nat-a")) w_inventory _ H) as Hc.
  repeat split; eapply Hc; vm_compute; reflexivity.
Defined.

Lemma C3_witness :
  (exists now,
      (datetime_now (Some 0) w_inventory).1 = Ok now
      /\ datetime_sub now (mk_datetime 2024 1 1 11 0 0 0 (Some 0))
         = Ok (timedelta_minutes 60))
  /\ (exists parsed,
         isoparse no_uncommon "2024-01-01 11:30:00" = Ok parsed
         /\ datetime_sub (utcnow_at w_inventory (S (ticks w_inventory))) parsed
            = Ok (timedelta_minutes 30)).
Proof.
  destruct (C3_inactivity_fallback no_uncommon "nat-a" "available"
              (mk_datetime 2024 1 1 11 0 0 0 (Some 0)) w_inventory) as (Hn & Ht & _).
  split.
  - eapply (Hn (timedelta_minutes 60) (timedelta_minutes 60)).
    vm_compute. reflexivity.
  - eapply (Ht "2024-01-01 11:30:00" (timedelta_minutes 60) (timedelta_minutes 30)).
    vm_compute. reflexivity.
Defined.

Lemma C4_witness :
  (request_gateway_handler ev_job w_empty).1 = Ok (JDict [("statusCode", JNum 200)])
  /\ (forall g, g ∈ inventory w_inventory "vpc-1" ->
        refreshed_between w_inventory (request_gateway_handler ev_job w_inventory).2
          g.1.1.1)
  /\ forallb no_create_gateway
       (new_calls w_inventory
          (request_gateway_handler ev_job
             (request_gateway_handler ev_job w_inventory).2).2) = true.
Proof.
  split; [|split].
  - assert (H : request_gateway_handler ev_job w_empty
                = (Ok (JDict [("statusCode", JNum 200)]),
                   (request_gateway_handler ev_job w_empty).2))
      by (vm_compute; reflexivity).
    rewrite H at 1. reflexivity.
  - apply (proj1 (proj2 (C4_request_flow ev_job w_inventory))
             (inventory w_inventory "vpc-1") (list_nat_gateways w_inventory).2
             (JDict [("statusCode", JNum 200); ("nat-existing", JBool true)])
             (request_gateway_handler ev_job w_inventory).2).
    + vm_compute. reflexivity.
    + vm_compute. reflexivity.
  - apply (proj2 (proj2 (C4_request_flow ev_job w_inventory)) ev_job
             (inventory w_inventory "vpc-1") (list_nat_gateways w_inventory).2
             (JDict [("statusCode", JNum 200); ("nat-existing", JBool true)])
             (request_gateway_handler ev_job w_inventory).2
             (JDict [("statusCode", JNum 200); ("nat-existing", JBool true)])
             (request_gateway_handler ev_job
                (request_gateway_handler ev_job w_inventory).2).2).
    + vm_compute. reflexivity.
    + vm_compute. reflexivity.
    + vm_compute. reflexivity.
Defined.

Lemma C5_witness :
  check_gateway_required no_uncommon ev_plain w_empty
  = (Ok JNull, (list_nat_gateways w_empty).2)
  /\ new_calls w_empty (list_nat_gateways w_empty).2
     = [DescribeNatGateways ["pending"; "available"] "vpc-1"].
Proof.
  destruct (C5_empty_inventory_check_is_noop no_uncommon ev_plain w_empty
              (list_nat_gateways w_empty).2) as (Hr & _ & _ & vpc & Hc).
  - vm_compute. reflexivity.
  - split; [exact Hr|]. vm_compute. reflexivity.
Defined.

Lemma C6_witness :
  (exists subnet_id,
      (create_nat_gateway w_no_address).1
      = Err (ParamValidationError "Invalid type for parameter AllocationId, value: None")
      /\ new_calls w_no_address (create_nat_gateway w_no_address).2
         = [DescribeAddresses "OnDemandNAT-IPAddr" "main";
            DescribeSubnets "Yes" "vpc-1";
            CreateNatGateway None subnet_id]
      /\ nat_gateways (create_nat_gateway w_no_address).2 = nat_gateways w_no_address)
  /\ (create_nat_gateway w_no_subnet).1
     = Err (IndexError "Cannot choose from an empty sequence").
Proof.
  split.
  - apply (proj1 (C6_missing_inputs w_no_address "main" "vpc-1"
                    ltac:(vm_compute; reflexivity) ltac:(vm_compute; reflexivity)
                    ltac:(intros k; reflexivity))).
    + vm_compute. reflexivity.
    + vm_compute. discriminate.
  - apply (proj2 (C6_missing_inputs w_no_subnet "main" "vpc-1"
                    ltac:(vm_compute; reflexivity) ltac:(vm_compute; reflexivity)
                    ltac:(intros k; reflexivity))).
    vm_compute. reflexivity.
Defined.


Lemma C8_witness :
  exists s,
    last_requested (touch_gateway ("nat-a", "available", noon, None) w_inventory).2
      "nat-a" = Some s
    /\ s = str_datetime (utcnow_at w_inventory (ticks w_inventory))
    /\ isoparse no_uncommon s = Ok (utcnow_at w_inventory (ticks w_inventory)).
Proof.
  apply (proj2 (proj2 (C8_last_requested_round_trip no_uncommon w_inventory
                         ltac:(intros k; reflexivity)))
           ("nat-a", "available", noon, None)).
  vm_compute. reflexivity.
Defined.


(** C6 as the specification words it fails where no address is tagged: the
    error is not one named [AddressNotFound]. *)
Lemma C6_counterexample : ~ spec_missing_input_errors w_no_address.
Proof.
  intros H.
  destruct (H "main" "vpc-1") as [Ha _]; [vm_compute; reflexivity..|].
  destruct Ha as [(e & He & Hname) _]; [vm_compute; reflexivity|].
  vm_compute in He. injection He as <-. discriminate Hname.
Qed.

End AtExamples.

(** * Further properties of the handlers *)

(** *** What a served call tells *)

Lemma request_Ok {A} c (serve : world -> result A * world) w a w' :
  request c serve w = (Ok a, w') ->
  faults w (length (trace w)) = None /\ serve (log c w) = (Ok a, w').
Proof.
  unfold request. destruct (faults w (length (trace w))); [discriminate|].
  now split.
Qed.

Lemma os_environ_Ok k w v w' :
  os_environ k w = (Ok v, w') -> environ w !! k = Some v /\ w' = w.
Proof.
  unfold os_environ. destruct (environ w !! k); [|discriminate].
  now intros [= -> ->].
Qed.

Lemma random_choice_Ok {A} (l : list A) w x w' :
  random_choice l w = (Ok x, w') -> x ∈ l /\ w' = set_draws (S (draws w)) w.
Proof.
  unfold random_choice. destruct l as [|y l]; [discriminate|].
  set (n := (random w (draws w) mod length (y :: l))%nat).
  assert (Hn : (n < length (y :: l))%nat)
    by (apply Nat.mod_upper_bound; discriminate).
  clearbody n. intros H.
  assert (Hx : x = nth n (y :: l) y) by now injection H.
  assert (Hw : w' = set_draws (S (draws w)) w) by now injection H.
  split; [|exact Hw]. rewrite Hx. apply list_elem_of_In. now apply nth_In.
Qed.

Lemma describe_addresses_Ok name vpc_name w r w' :
  ec2_describe_addresses name vpc_name w = (Ok r, w') ->
  faults w (length (trace w)) = None
  /\ r = head (addr_AllocationId
                 <$> filter (fun a => address_matches name vpc_name a = true)
                       (addresses w))
  /\ w' = log (DescribeAddresses name vpc_name) w.
Proof.
  unfold ec2_describe_addresses. intros [Hf H]%request_Ok.
  now injection H as <- <-.
Qed.

Lemma describe_subnets_Ok public vpc_id w r w' :
  ec2_describe_subnets public vpc_id w = (Ok r, w') ->
  faults w (length (trace w)) = None
  /\ r = sn_SubnetId
           <$> filter (fun s => subnet_matches public vpc_id s = true) (subnets w)
  /\ w' = log (DescribeSubnets public vpc_id) w.
Proof.
  unfold ec2_describe_subnets. intros [Hf H]%request_Ok.
  now injection H as <- <-.
Qed.

Lemma ec2_create_nat_gateway_inv alloc sn w id w' :
  ec2_create_nat_gateway alloc sn w = (Ok id, w') ->
  exists a s,
    alloc = Some a
    /\ faults w (length (trace w)) = None
    /\ a ∈ addr_AllocationId <$> addresses w
    /\ head (filter (fun s => sn_SubnetId s = sn) (subnets w)) = Some s
    /\ id = fresh_string "nat-" (nat_gateways w)
    /\ w' = set_nat_gateways
              (<[id := mk_nat_gateway "pending" (sn_VpcId s)
                         (replace_tzinfo (clock w (ticks w)) (Some 0)) ∅]>
                 (nat_gateways w))
              (log (CreateNatGateway alloc sn) w).
Proof.
  unfold ec2_create_nat_gateway. intros [Hf H]%request_Ok.
  destruct alloc as [a|]; [|discriminate].
  change (addresses (log _ w)) with (addresses w) in H.
  change (subnets (log _ w)) with (subnets w) in H.
  destruct (bool_decide_reflect (a ∈ addr_AllocationId <$> addresses w)) as [Ha|];
    [|discriminate]. cbn [negb] in H.
  destruct (filter (fun s => sn_SubnetId s = sn) (subnets w)) as [|s l] eqn:Es;
    [discriminate|].
  injection H as <- <-. exists a, s. repeat split; auto.
Qed.

Lemma create_tags_inv g tags w w' :
  ec2_create_tags [g] tags w = (Ok tt, w') ->
  faults w (length (trace w)) = None
  /\ is_Some (nat_gateways w !! g)
  /\ w' = set_nat_gateways (alter (add_tags tags) g (nat_gateways w))
            (log (CreateTags [g] tags) w).
Proof.
  unfold ec2_create_tags. intros [Hf H]%request_Ok.
  cbn [forallb] in H. rewrite andb_true_r in H.
  change (nat_gateways (log _ w)) with (nat_gateways w) in H.
  destruct (bool_decide_reflect (is_Some (nat_gateways w !! g))) as [Hs|];
    [|discriminate].
  now injection H as <-.
Qed.

Lemma wait_inv g w w' :
  ec2_wait_nat_gateway_available [g] w = (Ok tt, w') ->
  faults w (length (trace w)) = None
  /\ (exists gw, nat_gateways w !! g = Some gw
                 /\ gw_State gw ∈ ["pending"; "available"])
  /\ w' = set_nat_gateways (alter (set_state "available") g (nat_gateways w))
            (log (WaitNatGatewayAvailable [g]) w).
Proof.
  unfold ec2_wait_nat_gateway_available. intros [Hf H]%request_Ok.
  cbn [forallb] in H. rewrite andb_true_r in H.
  change (nat_gateways (log _ w)) with (nat_gateways w) in H.
  destruct (nat_gateways w !! g) as [gw|] eqn:Eg; [|discriminate].
  destruct (bool_decide_reflect (gw_State gw ∈ ["pending"; "available"])) as [Hs|];
    [|discriminate].
  injection H as <-. split; [exact Hf|]. split; [eauto|reflexivity].
Qed.

(** *** Tags *)

Lemma assoc_lookup_None {A} k (d : list (string * A)) :
  k ∉ d.*1 -> assoc_lookup k d = None.
Proof.
  induction d as [|[k' v] d IH]; [reflexivity|]. cbn. intros Hn.
  apply not_elem_of_cons in Hn as [Hne Hn].
  destruct (String.eqb_spec k k'); [contradiction|]. now apply IH.
Qed.

Lemma foldl_insert_lookup (tags : list (string * string)) (m : gmap string string) k :
  NoDup tags.*1 ->
  foldl (fun m kv => <[kv.1 := kv.2]> m) m tags !! k
  = match assoc_lookup k tags with
    | Some v => Some v
    | None => m !! k
    end.
Proof.
  revert m. induction tags as [|[k' v'] tags IH]; intros m Hnd; [reflexivity|].
  cbn in Hnd. apply NoDup_cons in Hnd as [Hn Hnd]. cbn [foldl assoc_lookup].
  rewrite IH by exact Hnd. cbn [fst snd].
  destruct (String.eqb_spec k k') as [->|Hne].
  - rewrite assoc_lookup_None by exact Hn. apply lookup_insert_eq.
  - destruct (assoc_lookup k tags); [reflexivity|]. now apply lookup_insert_ne.
Qed.

Lemma add_tags_lookup tags g k :
  NoDup tags.*1 ->
  gw_Tags (add_tags tags g) !! k
  = match assoc_lookup k tags with
    | Some v => Some v
    | None => gw_Tags g !! k
    end.
Proof. apply foldl_insert_lookup. Qed.

Lemma provision_tags_NoDup now name : NoDup (provision_tags now name).*1.
Proof.
  cbn. repeat (apply NoDup_cons; split;
               [rewrite ?elem_of_cons, elem_of_nil; intros H;
                repeat (destruct H as [H|H]; try discriminate H); exact H|]).
  apply NoDup_nil_2.
Qed.

(** *** Provisioning, step by step *)

(** The gateway a successful [create_nat_gateway] leaves behind. *)
Lemma create_nat_gateway_inv w id w' :
  create_nat_gateway w = (Ok id, w') ->
  exists name vpc alloc sn s,
    environ w !! "VPC_NAME" = Some name
    /\ environ w !! "VPC_ID" = Some vpc
    /\ head (tagged_allocations w name) = Some alloc
    /\ sn ∈ public_subnet_ids w vpc
    /\ head (filter (fun s => sn_SubnetId s = sn) (subnets w)) = Some s
    /\ id = fresh_string "nat-" (nat_gateways w)
    /\ nat_gateways w'
       = <[id := set_state "available"
                   (add_tags (provision_tags (utcnow_at w (ticks w)) name)
                      (mk_nat_gateway "pending" (sn_VpcId s)
                         (replace_tzinfo (clock w (ticks w)) (Some 0)) ∅))]>
           (nat_gateways w)
    /\ trace w'
       = trace w
         ++ [DescribeAddresses "OnDemandNAT-IPAddr" name;
             DescribeSubnets "Yes" vpc;
             CreateNatGateway (Some alloc) sn;
             CreateTags [id] (provision_tags (utcnow_at w (ticks w)) name);
             WaitNatGatewayAvailable [id]]
    /\ environ w' = environ w /\ route_tables w' = route_tables w
    /\ clock w' = clock w /\ ticks w' = S (ticks w)
    /\ faults w' = faults w /\ subnets w' = subnets w
    /\ addresses w' = addresses w.
Proof.
  unfold create_nat_gateway. intros H.
  apply bind_Ok in H as (name & w1 & H1 & H).
  apply os_environ_Ok in H1 as [Hname ->].
  apply bind_Ok in H as (alloc & w2 & H2 & H).
  apply describe_addresses_Ok in H2 as (_ & -> & ->).
  apply bind_Ok in H as (vpc & w3 & H3 & H).
  apply os_environ_Ok in H3 as [Hvpc ->].
  apply bind_Ok in H as (sns & w4 & H4 & H).
  apply describe_subnets_Ok in H4 as (_ & -> & ->).
  apply bind_Ok in H as (sn & w5 & H5 & H).
  apply random_choice_Ok in H5 as [Hsn ->].
  apply bind_Ok in H as (g & w6 & H6 & H).
  apply ec2_create_nat_gateway_inv in H6 as (a & s & Ha & _ & _ & Hs & Hid & ->).
  apply bind_Ok in H as (now & w7 & H7 & H). injection H7 as <- <-.
  apply bind_Ok in H as (name' & w8 & H8 & H).
  apply os_environ_Ok in H8 as [Hname' ->].
  apply bind_Ok in H as ([] & w9 & H9 & H).
  apply create_tags_inv in H9 as (_ & _ & ->).
  apply bind_Ok in H as ([] & w10 & H10 & H).
  apply wait_inv in H10 as (_ & _ & ->).
  injection H as -> <-.
  cbn in Hname', Hvpc. rewrite Hname in Hname'. injection Hname' as <-.
  exists name, vpc, a, sn, s. cbn.
  repeat split; try assumption; try reflexivity.
  - rewrite !alter_insert_eq. reflexivity.
  - rewrite <- !app_assoc. cbn. now rewrite Ha.
Qed.

(** *** What a call is served with *)

Lemma create_nat_gateway_served a sn s w :
  faults w (length (trace w)) = None ->
  a ∈ addr_AllocationId <$> addresses w ->
  head (filter (fun s => sn_SubnetId s = sn) (subnets w)) = Some s ->
  ec2_create_nat_gateway (Some a) sn w
  = (Ok (fresh_string "nat-" (nat_gateways w)),
     set_nat_gateways
       (<[fresh_string "nat-" (nat_gateways w)
          := mk_nat_gateway "pending" (sn_VpcId s)
               (replace_tzinfo (clock w (ticks w)) (Some 0)) ∅]>
          (nat_gateways w))
       (log (CreateNatGateway (Some a) sn) w)).
Proof.
  intros Hf Ha Hs. unfold ec2_create_nat_gateway. rewrite request_no_fault by exact Hf.
  change (addresses (log _ w)) with (addresses w).
  change (subnets (log _ w)) with (subnets w).
  rewrite bool_decide_true by exact Ha. cbn [negb].
  destruct (filter (fun s => sn_SubnetId s = sn) (subnets w)); [discriminate|].
  now injection Hs as ->.
Qed.

Lemma create_tags_served g tags w :
  faults w (length (trace w)) = None ->
  is_Some (nat_gateways w !! g) ->
  ec2_create_tags [g] tags w
  = (Ok tt,
     set_nat_gateways (alter (add_tags tags) g (nat_gateways w))
       (log (CreateTags [g] tags) w)).
Proof.
  intros Hf Hs. unfold ec2_create_tags. rewrite request_no_fault by exact Hf.
  cbn [forallb]. change (nat_gateways (log _ w)) with (nat_gateways w).
  now rewrite bool_decide_true by exact Hs.
Qed.

Lemma wait_served g gw w :
  faults w (length (trace w)) = None ->
  nat_gateways w !! g = Some gw ->
  gw_State gw ∈ ["pending"; "available"] ->
  ec2_wait_nat_gateway_available [g] w
  = (Ok tt,
     set_nat_gateways (alter (set_state "available") g (nat_gateways w))
       (log (WaitNatGatewayAvailable [g]) w)).
Proof.
  intros Hf Hg Hs. unfold ec2_wait_nat_gateway_available.
  rewrite request_no_fault by exact Hf.
  cbn [forallb]. change (nat_gateways (log _ w)) with (nat_gateways w).
  rewrite Hg. now rewrite bool_decide_true by exact Hs.
Qed.

Lemma trace_log c w : length (trace (log c w)) = S (length (trace w)).
Proof. cbn. rewrite length_app. cbn. lia. Qed.

Lemma head_filter_elem {A} (f : A -> string) (P : A -> Prop)
    `{forall x, Decision (P x)} (l : list A) x :
  x ∈ f <$> filter P l ->
  exists s, head (filter (fun s => f s = x) l) = Some s /\ f s = x.
Proof.
  intros Hin. apply list_elem_of_fmap in Hin as (s & -> & Hin).
  apply list_elem_of_filter in Hin as [_ Hin].
  destruct (filter (fun s0 => f s0 = f s) l) as [|s' r] eqn:Ef.
  - assert (Hs : s ∈ filter (fun s0 => f s0 = f s) l)
      by (apply list_elem_of_filter; now split).
    rewrite Ef in Hs. now apply elem_of_nil in Hs.
  - exists s'. split; [reflexivity|].
    assert (Hs : s' ∈ filter (fun s0 => f s0 = f s) l) by (rewrite Ef; left).
    now apply list_elem_of_filter in Hs as [Hs _].
Qed.

(** *** Provisioning succeeds when its inputs are there *)

Lemma create_nat_gateway_runs w name vpc alloc :
  environ w !! "VPC_NAME" = Some name ->
  environ w !! "VPC_ID" = Some vpc ->
  (forall k, (length (trace w) <= k < length (trace w) + 5)%nat ->
             faults w k = None) ->
  head (tagged_allocations w name) = Some alloc ->
  public_subnet_ids w vpc <> [] ->
  exists id w', create_nat_gateway w = (Ok id, w').
Proof.
  intros Hname Hvpc Hf Ha Hs. unfold create_nat_gateway.
  unfold bind at 1. unfold os_environ at 1. rewrite Hname.
  unfold bind at 1. unfold ec2_describe_addresses.
  rewrite request_no_fault by (apply Hf; lia).
  unfold bind at 1. unfold os_environ at 1.
  change (environ (log _ w)) with (environ w). rewrite Hvpc.
  unfold bind at 1. unfold ec2_describe_subnets.
  rewrite request_no_fault by (cbn [faults log]; rewrite trace_log; apply Hf; lia).
  change (addresses (log _ w)) with (addresses w).
  change (subnets (log _ (log _ w))) with (subnets w).
  fold (tagged_allocations w name). fold (public_subnet_ids w vpc). rewrite Ha.
  set (w2 := log (DescribeSubnets "Yes" vpc)
               (log (DescribeAddresses "OnDemandNAT-IPAddr" name) w)).
  assert (L2 : length (trace w2) = (length (trace w) + 2)%nat)
    by (unfold w2; rewrite !trace_log; lia).
  assert (F2 : faults w2 = faults w) by reflexivity.
  assert (E2 : environ w2 = environ w) by reflexivity.
  assert (G2 : nat_gateways w2 = nat_gateways w) by reflexivity.
  assert (A2 : addresses w2 = addresses w) by reflexivity.
  assert (S2 : subnets w2 = subnets w) by reflexivity.
  clearbody w2.
  destruct (random_choice (public_subnet_ids w vpc) w2) as [[sn|e] w3] eqn:Er.
  2:{ unfold random_choice in Er.
      destruct (public_subnet_ids w vpc); [contradiction|discriminate]. }
  rewrite (bind_eq_Ok _ _ _ _ _ Er).
  apply random_choice_Ok in Er as [Hsn ->].
  destruct (head_filter_elem sn_SubnetId _ _ _ Hsn) as (s & Hhead & _).
  assert (Hal : alloc ∈ addr_AllocationId <$> addresses w).
  { unfold tagged_allocations in Ha.
    destruct (filter _ (addresses w)) as [|a r] eqn:Ef; [discriminate|].
    injection Ha as <-. apply list_elem_of_fmap. exists a. split; [reflexivity|].
    assert (Hin : a ∈ filter (fun a => address_matches "OnDemandNAT-IPAddr" name a = true)
                        (addresses w)) by (rewrite Ef; left).
    now apply list_elem_of_filter in Hin as [_ Hin]. }
  erewrite bind_eq_Ok;
    [|apply (create_nat_gateway_served alloc sn s);
      [cbn [faults set_draws trace]; rewrite F2, L2; apply Hf; lia
      |cbn [addresses set_draws]; now rewrite A2
      |cbn [subnets set_draws]; now rewrite S2]].
  cbn [nat_gateways set_draws]. rewrite G2.
  set (id := fresh_string "nat-" (nat_gateways w)).
  unfold bind at 1. unfold datetime_utcnow at 1. cbn [fst snd].
  unfold bind at 1. unfold os_environ at 1.
  cbn [environ set_ticks set_nat_gateways log set_draws].
  rewrite E2, Hname.
  erewrite bind_eq_Ok;
    [|apply create_tags_served;
      [cbn [faults trace set_ticks set_nat_gateways log set_draws];
       rewrite F2, length_app, L2; cbn [length]; apply Hf; lia
      |cbn [nat_gateways set_ticks set_nat_gateways log set_draws];
       rewrite lookup_insert_eq; now eexists]].
  erewrite bind_eq_Ok;
    [|eapply wait_served;
      [cbn [faults trace set_ticks set_nat_gateways log set_draws];
       rewrite F2, !length_app, L2; cbn [length]; apply Hf; lia
      |cbn [nat_gateways set_ticks set_nat_gateways log set_draws];
       rewrite lookup_alter_eq, lookup_insert_eq; reflexivity
      |cbn; left]].
  eexists _, _. reflexivity.
Qed.

(** X1: with both environment variables set, an address tagged for the
    network, a public subnet of the network and the five calls served,
    [create_nat_gateway] returns the identity of a gateway that did not
    exist; it makes exactly the calls describe addresses, describe subnets,
    create (with the first tagged allocation and one of the public subnets),
    create tags and wait, in this order; the new gateway is available, lies
    in the network of the chosen subnet and carries exactly the six tags of
    the source; no other gateway and no route table is changed. *)
Theorem provisioning_succeeds (w : world) (name vpc alloc : string) :
  environ w !! "VPC_NAME" = Some name ->
  environ w !! "VPC_ID" = Some vpc ->
  (forall k, (length (trace w) <= k < length (trace w) + 5)%nat ->
             faults w k = None) ->
  head (tagged_allocations w name) = Some alloc ->
  public_subnet_ids w vpc <> [] ->
  exists id sn s g w',
    create_nat_gateway w = (Ok id, w')
    /\ nat_gateways w !! id = None
    /\ sn ∈ public_subnet_ids w vpc
    /\ new_calls w w'
       = [DescribeAddresses "OnDemandNAT-IPAddr" name;
          DescribeSubnets "Yes" vpc;
          CreateNatGateway (Some alloc) sn;
          CreateTags [id] (provision_tags (utcnow_at w (ticks w)) name);
          WaitNatGatewayAvailable [id]]
    /\ nat_gateways w' = <[id := g]> (nat_gateways w)
    /\ gw_State g = "available"
    /\ s ∈ subnets w /\ sn_SubnetId s = sn /\ gw_VpcId g = sn_VpcId s
    /\ (forall k, gw_Tags g !! k
                  = assoc_lookup k (provision_tags (utcnow_at w (ticks w)) name))
    /\ route_tables w' = route_tables w.
Proof.
  intros Hname Hvpc Hf Ha Hs.
  destruct (create_nat_gateway_runs w name vpc alloc Hname Hvpc Hf Ha Hs)
    as (id & w' & Hrun).
  destruct (create_nat_gateway_inv _ _ _ Hrun)
    as (name' & vpc' & alloc' & sn & s & Hn' & Hv' & Ha' & Hsn & Hhead & Hid
        & Hg & Ht & _ & Hr & _).
  assert (name' = name) as -> by congruence.
  assert (vpc' = vpc) as -> by congruence.
  assert (alloc' = alloc) as -> by congruence.
  eexists id, sn, s, _, w'. split; [exact Hrun|].
  split; [subst id; apply fresh_string_fresh|].
  split; [exact Hsn|]. split; [now apply new_calls_app|].
  split; [exact Hg|]. split; [reflexivity|].
  assert (Hin : s ∈ filter (fun s0 => sn_SubnetId s0 = sn) (subnets w)).
  { destruct (filter _ (subnets w)); [discriminate|]. injection Hhead as ->. left. }
  apply list_elem_of_filter in Hin as [Hsid Hin].
  split; [exact Hin|]. split; [exact Hsid|]. split; [reflexivity|].
  split; [|exact Hr].
  intros k. cbn [set_state gw_Tags].
  rewrite add_tags_lookup by apply provision_tags_NoDup.
  cbn [gw_Tags]. rewrite lookup_empty. now destruct (assoc_lookup k _).
Qed.

(** *** Missing configuration *)

Lemma create_nat_gateway_no_name w :
  environ w !! "VPC_NAME" = None ->
  create_nat_gateway w = (Err (KeyError "VPC_NAME"), w).
Proof.
  intros H. unfold create_nat_gateway, bind at 1, os_environ at 1. now rewrite H.
Qed.

(** X2: without [VPC_ID] in the environment the inventory query raises
    [KeyError] before any call: the check flow ends with it and changes
    nothing, and the request flow makes no call but the failure report of the
    job, if the event has one.  Without [VPC_NAME], provisioning raises
    [KeyError] before any call, so that a request over an empty inventory
    only queries the inventory. *)
Theorem missing_environment
    (unc : string -> result ((Z * Z * Z) * nat)) (ev : list (string * json))
    (w : world) :
  (environ w !! "VPC_ID" = None ->
   list_nat_gateways w = (Err (KeyError "VPC_ID"), w)
   /\ check_gateway_required unc ev w = (Err (KeyError "VPC_ID"), w)
   /\ (dict_mem "CodePipeline.job" ev = false ->
       request_gateway_handler ev w = (Err (KeyError "VPC_ID"), w))
   /\ (forall job_id,
          event_job_id ev = Ok job_id ->
          new_calls w (request_gateway_handler ev w).2
          = [PutJobFailureResult job_id "JobFailed" "'VPC_ID'"]))
  /\ (environ w !! "VPC_NAME" = None ->
      create_nat_gateway w = (Err (KeyError "VPC_NAME"), w)
      /\ forall w0,
           list_nat_gateways w = (Ok None, w0) ->
           dict_mem "CodePipeline.job" ev = false ->
           (request_gateway_handler ev w).1 = Err (KeyError "VPC_NAME")
           /\ exists vpc,
                new_calls w (request_gateway_handler ev w).2
                = [DescribeNatGateways ["pending"; "available"] vpc]).
Proof.
  split.
  - intros Hv.
    assert (Hl : list_nat_gateways w = (Err (KeyError "VPC_ID"), w))
      by (rewrite list_nat_gateways_eq; now rewrite Hv).
    assert (Ht : request_gateway_try ev w = (Err (KeyError "VPC_ID"), w)).
    { unfold request_gateway_try, request_gateway_ensure.
      unfold bind at 1 2. now rewrite Hl. }
    split; [exact Hl|]. split.
    { unfold check_gateway_required, bind. now rewrite Hl. }
    rewrite (handler_of_try_Err _ _ _ _ Ht). split.
    + intros Hj. now apply except_no_job.
    + intros job_id Hj. rewrite (except_job _ _ _ _ Hj).
      pose proof (job_failure_trace job_id "JobFailed"
                    (str_exn (KeyError "VPC_ID")) w) as Htr.
      destruct (cp_put_job_failure_result job_id "JobFailed"
                  (str_exn (KeyError "VPC_ID")) w) as [[[]|?] w1];
        cbn [fst snd] in *; now apply new_calls_app.
  - intros Hn. split; [now apply create_nat_gateway_no_name|].
    intros w0 Hl Hj.
    pose proof (list_nat_gateways_None _ _ Hl) as (vpc & _ & _ & _ & ->).
    assert (Ht : request_gateway_try ev w
                 = (Err (KeyError "VPC_NAME"),
                    log (DescribeNatGateways ["pending"; "available"] vpc) w)).
    { unfold request_gateway_try, request_gateway_ensure.
      unfold bind at 1 2. rewrite Hl. unfold bind at 1.
      now rewrite create_nat_gateway_no_name by exact Hn. }
    rewrite (handler_of_try_Err _ _ _ _ Ht), except_no_job by exact Hj.
    split; [reflexivity|]. exists vpc. now apply new_calls_app.
Qed.

(** *** The request flow and the gateways that exist *)

Lemma sbl_refl g : same_but_last_requested g g.
Proof. now repeat split. Qed.

Lemma sbl_trans g1 g2 g3 :
  same_but_last_requested g1 g2 -> same_but_last_requested g2 g3 ->
  same_but_last_requested g1 g3.
Proof.
  intros (?&?&?&T1) (?&?&?&T2). repeat split; try congruence.
  intros k Hk. now rewrite T2, T1.
Qed.

Lemma sbl_touch s g : same_but_last_requested g (add_tags [("LastRequested", s)] g).
Proof.
  repeat split. intros k Hk. cbn. now apply lookup_insert_ne.
Qed.

Lemma to_refl w : touched_only w w.
Proof. split; [|now intros id]. intros id g H. exists g. split; [exact H|apply sbl_refl]. Qed.

Lemma to_trans w1 w2 w3 : touched_only w1 w2 -> touched_only w2 w3 -> touched_only w1 w3.
Proof.
  intros [K1 N1] [K2 N2]. split.
  - intros id g H. destruct (K1 _ _ H) as (g' & H' & S1).
    destruct (K2 _ _ H') as (g'' & H'' & S2).
    exists g''. split; [exact H''|]. eapply sbl_trans; eauto.
  - intros id H. auto.
Qed.

Lemma to_same w w' : nat_gateways w' = nat_gateways w -> touched_only w w'.
Proof.
  intros E. split.
  - intros id g H. exists g. rewrite E. split; [exact H|apply sbl_refl].
  - intros id H. now rewrite E.
Qed.

Lemma to_alter s id w w' :
  nat_gateways w' = alter (add_tags [("LastRequested", s)]) id (nat_gateways w) ->
  touched_only w w'.
Proof.
  intros E. split.
  - intros id' g H. rewrite E, lookup_alter. case_decide as Hd.
    + subst id'. rewrite H. eexists. split; [reflexivity|apply sbl_touch].
    + exists g. split; [exact H|apply sbl_refl].
  - intros id' H. rewrite E, lookup_alter. case_decide; [subst|exact H].
    now rewrite H.
Qed.

Ltac to_fin :=
  idtac;
  first [ now apply to_same
        | eapply to_alter; reflexivity ].

Ltac tou := solve_steps to_refl to_trans ltac:(to_fin).

Lemma to_list : steps touched_only list_nat_gateways.
Proof. unfold list_nat_gateways. tou. Qed.

Lemma to_touch g : steps touched_only (touch_gateway g).
Proof. unfold touch_gateway. tou. Qed.

Lemma to_finish ev info : steps touched_only (request_gateway_finish ev info).
Proof. unfold request_gateway_finish, invoke_lambda. tou. Qed.

Lemma to_except ev e : steps touched_only (request_gateway_except ev e).
Proof. unfold request_gateway_except. tou. Qed.

Lemma to_update g : steps touched_only (update_route_tables g).
Proof.
  unfold update_route_tables, update_route_table, ignore_route_not_found. tou.
Qed.

(** A call that fails leaves the gateways as they were. *)
Lemma create_fails alloc sn w e w' :
  ec2_create_nat_gateway alloc sn w = (Err e, w') ->
  nat_gateways w' = nat_gateways w.
Proof.
  unfold ec2_create_nat_gateway, request. repeat case_match; now intros [= _ <-].
Qed.

Lemma create_tags_fails rs tags w e w' :
  ec2_create_tags rs tags w = (Err e, w') -> nat_gateways w' = nat_gateways w.
Proof.
  unfold ec2_create_tags, request. repeat case_match; now intros [= _ <-].
Qed.

Lemma wait_fails ids w e w' :
  ec2_wait_nat_gateway_available ids w = (Err e, w') ->
  nat_gateways w' = nat_gateways w.
Proof.
  unfold ec2_wait_nat_gateway_available, request.
  repeat case_match; now intros [= _ <-].
Qed.

Lemma gu_create_prefix :
  steps gateways_untouched
    (bind (os_environ "VPC_NAME")
       (fun name => bind (ec2_describe_addresses "OnDemandNAT-IPAddr" name)
          (fun alloc => bind (os_environ "VPC_ID")
             (fun vpc => bind (ec2_describe_subnets "Yes" vpc)
                (fun sns => bind (random_choice sns)
                   (fun sn => ret (alloc, sn))))))).
Proof. gu. Qed.

(** Whatever its outcome, [create_nat_gateway] changes no gateway but the
    one it creates. *)
Lemma create_nat_gateway_only_new w :
  only_at (fresh_string "nat-" (nat_gateways w)) w (create_nat_gateway w).2.
Proof.
  destruct (create_nat_gateway w) as [[id|e] w'] eqn:H; cbn [snd].
  - apply create_nat_gateway_inv in H
      as (name & vpc & alloc & sn & s & _ & _ & _ & _ & _ & Hid & Hg & _).
    intros id' Hne. rewrite Hg. apply lookup_insert_ne. congruence.
  - unfold create_nat_gateway in H.
    assert (Hsame : forall w1, nat_gateways w1 = nat_gateways w ->
                               only_at (fresh_string "nat-" (nat_gateways w)) w w1)
      by (intros w1 E id' _; now rewrite E).
    apply bind_Err in H as [H | (name & w1 & H1 & H)].
    { apply Hsame. unfold os_environ in H. case_match; now simplify_eq. }
    apply os_environ_Ok in H1 as [_ ->].
    apply bind_Err in H as [H | (alloc & w2 & H2 & H)].
    { apply Hsame. unfold ec2_describe_addresses, request in H.
      case_match; now simplify_eq. }
    apply describe_addresses_Ok in H2 as (_ & -> & ->).
    apply bind_Err in H as [H | (vpc & w3 & H3 & H)].
    { apply Hsame. unfold os_environ in H. case_match; now simplify_eq. }
    apply os_environ_Ok in H3 as [_ ->].
    apply bind_Err in H as [H | (sns & w4 & H4 & H)].
    { apply Hsame. unfold ec2_describe_subnets, request in H.
      case_match; now simplify_eq. }
    apply describe_subnets_Ok in H4 as (_ & -> & ->).
    apply bind_Err in H as [H | (sn & w5 & H5 & H)].
    { apply Hsame. unfold random_choice in H. case_match; now simplify_eq. }
    apply random_choice_Ok in H5 as [_ ->].
    apply bind_Err in H as [H | (g & w6 & H6 & H)].
    { apply Hsame. now rewrite (create_fails _ _ _ _ _ H). }
    apply ec2_create_nat_gateway_inv in H6 as (a & s & _ & _ & _ & _ & Hid & ->).
    cbn [nat_gateways set_draws log] in Hid.
    assert (Hnew : forall w1,
               nat_gateways w1
               = <[g := mk_nat_gateway "pending" (sn_VpcId s)
                          (replace_tzinfo (clock w (ticks w)) (Some 0)) ∅]>
                   (nat_gateways w) ->
               only_at (fresh_string "nat-" (nat_gateways w)) w w1).
    { intros w1 E id' Hne. rewrite E. apply lookup_insert_ne. congruence. }
    apply bind_Err in H as [H | (now & w7 & H7 & H)]; [discriminate|].
    injection H7 as <- <-.
    apply bind_Err in H as [H | (name' & w8 & H8 & H)].
    { apply Hnew. unfold os_environ in H. case_match; now simplify_eq. }
    apply os_environ_Ok in H8 as [_ ->].
    apply bind_Err in H as [H | ([] & w9 & H9 & H)].
    { apply Hnew. now rewrite (create_tags_fails _ _ _ _ _ H). }
    apply create_tags_inv in H9 as (_ & _ & ->).
    assert (Hnew' : forall w1,
               nat_gateways w1
               = alter (add_tags
                          [("OnDemandNAT", "True"); ("Name", "OnDemandNAT-Gateway");
                           ("LastRequested",
                            str_datetime (replace_tzinfo (clock w (ticks w)) None));
                           ("ForVpc", name'); ("Application", "OnDemandNAT");
                           ("Environment", "Infrastructure")]) g
                   (<[g := mk_nat_gateway "pending" (sn_VpcId s)
                             (replace_tzinfo (clock w (ticks w)) (Some 0)) ∅]>
                      (nat_gateways w)) ->
               only_at (fresh_string "nat-" (nat_gateways w)) w w1).
    { intros w1 E id' Hne. rewrite E.
      rewrite lookup_alter_ne by congruence. apply lookup_insert_ne. congruence. }
    apply bind_Err in H as [H | ([] & w10 & H10 & H)]; [|discriminate].
    apply Hnew'. now rewrite (wait_fails _ _ _ _ H).
Qed.

Lemma handler_no_delete ev :
  steps (calls_in no_delete_gateway) (request_gateway_handler ev).
Proof.
  unfold request_gateway_handler, request_gateway_try, request_gateway_except,
    request_gateway_ensure, request_gateway_finish, list_nat_gateways,
    create_nat_gateway, update_route_tables, update_route_table,
    ignore_route_not_found, touch_gateway, invoke_lambda.
  ci.
Qed.

Lemma gu_update g : steps gateways_untouched (update_route_tables g).
Proof.
  unfold update_route_tables, update_route_table, ignore_route_not_found. gu.
Qed.

(** The request flow after a provisioning attempt. *)
Lemma handler_after_create ev w w0 :
  list_nat_gateways w = (Ok None, w0) ->
  nat_gateways (request_gateway_handler ev w).2
  = nat_gateways (create_nat_gateway w0).2.
Proof.
  intros Hl. rewrite (handler_provision_eq _ _ _ Hl).
  unfold try_except. unfold bind at 1 2.
  destruct (create_nat_gateway w0) as [[g|e] w1]; cbn [snd].
  - assert (Hs : steps gateways_untouched
                   (try_except
                      (bind (bind (update_route_tables g)
                               (fun _ => ret [("statusCode", JNum 200)]))
                         (request_gateway_finish ev))
                      (request_gateway_except ev))).
    { apply (steps_try_except _ gu_trans); [|apply gu_except].
      apply (steps_bind _ gu_trans); [|apply gu_finish].
      apply (steps_bind _ gu_trans); [apply gu_update|gu]. }
    specialize (Hs w1) as [Hg _]. unfold try_except, bind at 1 2 in Hg.
    unfold bind at 1. exact Hg.
  - now destruct (gu_except ev e w1) as [Hg _].
Qed.

(** The gateways the refresh loop does not visit are left as they are. *)
Lemma touch_loop_other l w id :
  (forall g, g ∈ l -> g.1.1.1 <> id) ->
  nat_gateways (for_each l touch_gateway w).2 !! id = nat_gateways w !! id.
Proof.
  revert w. induction l as [|g l IH]; intros w Hl; [reflexivity|].
  cbn [for_each]. unfold bind.
  destruct (touch_gateway g w) as [[[]|e] w1] eqn:Ht; cbn [snd].
  - rewrite IH by (intros g' Hin; apply Hl; now right).
    destruct g as [[[gid st] created] tag]. unfold touch_gateway in Ht.
    apply bind_Ok in Ht as (now & w' & H1 & Ht). injection H1 as <- <-.
    apply create_tags_inv in Ht as (_ & _ & ->). cbn.
    apply lookup_alter_ne. apply (Hl (gid, st, created, tag)). left.
  - destruct g as [[[gid st] created] tag]. unfold touch_gateway in Ht.
    apply bind_Err in Ht as [Ht | (now & w' & H1 & Ht)]; [discriminate|].
    injection H1 as <- <-. now rewrite (create_tags_fails _ _ _ _ _ Ht).
Qed.

Lemma handler_after_touch ev w l w0 :
  list_nat_gateways w = (Ok (Some l), w0) ->
  nat_gateways (request_gateway_handler ev w).2
  = nat_gateways (for_each l touch_gateway w0).2.
Proof.
  intros Hl. rewrite (handler_touch_eq _ _ _ _ Hl).
  unfold try_except. unfold bind at 1 2.
  destruct (for_each l touch_gateway w0) as [[[]|e] w1]; cbn [snd].
  - unfold ret.
    pose proof (gu_finish ev [("statusCode", JNum 200); ("nat-existing", JBool true)] w1)
      as [Hf _].
    destruct (request_gateway_finish ev _ w1) as [[out|e] w2]; cbn [snd] in *;
      [exact Hf|].
    destruct (gu_except ev e w2) as [Hg _]. congruence.
  - now destruct (gu_except ev e w1) as [Hg _].
Qed.

Lemma request_frame (ev : list (string * json)) (w : world) :
  forallb no_delete_gateway (new_calls w (request_gateway_handler ev w).2) = true
  /\ existing_gateways_kept w (request_gateway_handler ev w).2
  /\ (forall vpc id g,
         environ w !! "VPC_ID" = Some vpc ->
         nat_gateways w !! id = Some g ->
         gateway_matches ["pending"; "available"] vpc (id, g) = false ->
         nat_gateways (request_gateway_handler ev w).2 !! id = Some g)
  /\ (forall id id',
         nat_gateways w !! id = None -> nat_gateways w !! id' = None ->
         is_Some (nat_gateways (request_gateway_handler ev w).2 !! id) ->
         is_Some (nat_gateways (request_gateway_handler ev w).2 !! id') ->
         id = id')
  /\ (forall l w0,
         list_nat_gateways w = (Ok (Some l), w0) ->
         no_new_gateway w (request_gateway_handler ev w).2).
Proof.
  split; [apply calls_in_new_calls, handler_no_delete|].
  pose proof (gu_list w) as Hgl.
  destruct (list_nat_gateways w) as [[[l|]|e] w0] eqn:Hl; cbn [snd] in Hgl;
    destruct Hgl as (Hg0 & _).
  - (* an inventory: the refresh loop *)
    pose proof (handler_after_touch ev w l w0 Hl) as Hh.
    assert (Hto : touched_only w0 (for_each l touch_gateway w0).2).
    { apply (steps_for_each _ to_refl to_trans). apply to_touch. }
    destruct Hto as [Hk Hn].
    assert (Hkeep : existing_gateways_kept w (request_gateway_handler ev w).2).
    { intros id g Hid. rewrite Hh. apply Hk. now rewrite Hg0. }
    assert (Hnew : no_new_gateway w (request_gateway_handler ev w).2).
    { intros id Hid. rewrite Hh. apply Hn. now rewrite Hg0. }
    split; [exact Hkeep|]. split; [|split].
    + intros vpc id g Hv Hid Hm. rewrite Hh, touch_loop_other; [now rewrite Hg0|].
      intros g' Hin <-.
      apply list_nat_gateways_Some in Hl as (vpc' & Hv' & _ & <- & _).
      assert (vpc' = vpc) as -> by congruence.
      destruct (proj1 (inventory_elem w vpc g'.1.1.1)) as (gw & Hgw & Hmatch); [eauto|].
      congruence.
    + intros id id' Hid _ [x Hx] _. rewrite (Hnew _ Hid) in Hx. discriminate.
    + intros l' w0' [= <- <-]. exact Hnew.
  - (* no inventory: provisioning *)
    pose proof (handler_after_create ev w w0 Hl) as Hh.
    pose proof (create_nat_gateway_only_new w0) as Ho. rewrite Hg0 in Ho.
    assert (Hsame : forall id, is_Some (nat_gateways w !! id) \/
                               id <> fresh_string "nat-" (nat_gateways w) ->
                  nat_gateways (request_gateway_handler ev w).2 !! id
                  = nat_gateways w !! id).
    { intros id Hid. rewrite Hh, Ho; [now rewrite Hg0|].
      destruct Hid as [[x Hx]|Hne]; [|exact Hne]. intros ->.
      rewrite fresh_string_fresh in Hx. discriminate. }
    split; [|split; [|split]].
    + intros id g Hid. exists g. rewrite Hsame by (left; rewrite Hid; eauto).
      split; [exact Hid|apply sbl_refl].
    + intros vpc id g _ Hid _. rewrite Hsame by (left; rewrite Hid; eauto).
      exact Hid.
    + intros id id' Hid Hid' [x Hx] [x' Hx'].
      destruct (decide (id = fresh_string "nat-" (nat_gateways w))) as [->|Hne];
        [|rewrite Hsame in Hx by (now right); congruence].
      destruct (decide (id' = fresh_string "nat-" (nat_gateways w))) as [->|Hne'];
        [reflexivity|rewrite Hsame in Hx' by (now right); congruence].
    + intros l' w0' [=].
  - (* the inventory query fails *)
    assert (Hh : nat_gateways (request_gateway_handler ev w).2 = nat_gateways w).
    { unfold request_gateway_handler, try_except, request_gateway_try,
        request_gateway_ensure. unfold bind at 1 2. rewrite Hl.
      destruct (gu_except ev e w0) as [Hg _]. congruence. }
    split; [|split; [|split]].
    + intros id g Hid. exists g. rewrite Hh. split; [exact Hid|apply sbl_refl].
    + intros vpc id g _ Hid _. now rewrite Hh.
    + intros id id' Hid _ [x Hx] _. rewrite Hh, Hid in Hx. discriminate.
    + intros l' w0' [=].
Qed.

(** X3: the request flow never deletes a gateway.  Whatever its outcome,
    every gateway that existed is still there with its state, network and
    creation time, and with its tags but for [LastRequested]; a gateway the
    inventory query does not match (another network, or neither pending nor
    available) is left exactly as it was; at most one gateway is new, and
    none is when the inventory was not empty. *)
Theorem request_keeps_existing_gateways (ev : list (string * json)) (w : world) :
  forallb no_delete_gateway (new_calls w (request_gateway_handler ev w).2) = true
  /\ existing_gateways_kept w (request_gateway_handler ev w).2
  /\ (forall vpc id g,
         environ w !! "VPC_ID" = Some vpc ->
         nat_gateways w !! id = Some g ->
         gateway_matches ["pending"; "available"] vpc (id, g) = false ->
         nat_gateways (request_gateway_handler ev w).2 !! id = Some g)
  /\ (forall id id',
         nat_gateways w !! id = None -> nat_gateways w !! id' = None ->
         is_Some (nat_gateways (request_gateway_handler ev w).2 !! id) ->
         is_Some (nat_gateways (request_gateway_handler ev w).2 !! id') ->
         id = id')
  /\ (forall l w0,
         list_nat_gateways w = (Ok (Some l), w0) ->
         no_new_gateway w (request_gateway_handler ev w).2).
Proof. apply request_frame. Qed.

(** *** The check flow and the gateways *)

Lemma new_calls_trans w1 w2 w3 l1 l2 :
  trace w2 = trace w1 ++ l1 -> trace w3 = trace w2 ++ l2 ->
  new_calls w1 w3 = new_calls w1 w2 ++ new_calls w2 w3.
Proof.
  intros H1 H2. rewrite (new_calls_app w1 w2 l1 H1), (new_calls_app w2 w3 l2 H2).
  apply new_calls_app. now rewrite H2, H1, app_assoc.
Qed.

Lemma reaped_only_refl w : reaped_only w w.
Proof. split; [apply calls_in_refl|]. intros id. now left. Qed.

Lemma reaped_only_trans w1 w2 w3 :
  reaped_only w1 w2 -> reaped_only w2 w3 -> reaped_only w1 w3.
Proof.
  intros [C1 G1] [C2 G2]. split; [eapply calls_in_trans; eauto|].
  destruct C1 as (l1 & T1 & _), C2 as (l2 & T2 & _).
  pose proof (new_calls_trans _ _ _ _ _ T1 T2) as Hn.
  intros id. destruct (G2 id) as [E2|(g2 & Hg2 & Hd2 & Hc2)].
  - destruct (G1 id) as [E1|(g1 & Hg1 & Hd1 & Hc1)].
    + left. congruence.
    + right. exists g1. split; [exact Hg1|]. split; [congruence|].
      rewrite Hn. apply elem_of_app. now left.
  - destruct (G1 id) as [E1|(g1 & Hg1 & Hd1 & Hc1)].
    + right. exists g2. split; [congruence|]. split; [exact Hd2|].
      rewrite Hn. apply elem_of_app. now right.
    + right. exists g1. split; [exact Hg1|]. split.
      * rewrite Hd2. rewrite Hd1 in Hg2. now injection Hg2 as <-.
      * rewrite Hn. apply elem_of_app. now left.
Qed.

Lemma reaped_only_same w w' :
  nat_gateways w' = nat_gateways w -> calls_in is_check_call w w' ->
  reaped_only w w'.
Proof. intros E C. split; [exact C|]. intros id. left. now rewrite E. Qed.

Lemma rp_delete id : steps reaped_only (ec2_delete_nat_gateway id).
Proof.
  intros w. unfold ec2_delete_nat_gateway, request.
  destruct (faults w (length (trace w))).
  { apply reaped_only_same; [reflexivity|now apply calls_in_log]. }
  change (nat_gateways (log (DeleteNatGateway id) w)) with (nat_gateways w).
  destruct (nat_gateways w !! id) as [g|] eqn:Eg; cbn [snd].
  2:{ apply reaped_only_same; [reflexivity|now apply calls_in_log]. }
  split; [now apply calls_in_log|].
  intros id'. cbn [nat_gateways set_nat_gateways].
  destruct (decide (id' = id)) as [->|Hne].
  - right. exists g. split; [exact Eg|]. split; [apply lookup_insert_eq|].
    rewrite (new_calls_app w _ [DeleteNatGateway id]) by reflexivity. left.
  - left. now apply lookup_insert_ne.
Qed.

Ltac rp_fin :=
  idtac;
  apply reaped_only_same;
  [ reflexivity
  | first [ now apply calls_in_same_trace | now apply calls_in_log ] ].

Ltac rp := solve_steps reaped_only_refl reaped_only_trans ltac:(rp_fin).

Lemma rp_list : steps reaped_only list_nat_gateways.
Proof. unfold list_nat_gateways. rp. Qed.

Lemma rp_compute unc g : steps reaped_only (compute_inactivity unc g).
Proof. unfold compute_inactivity. destruct g as [[[? ?] ?] ?]. rp. Qed.

Lemma rp_reap id age inactive : steps reaped_only (reap id age inactive).
Proof.
  unfold reap. case_match; [|rp].
  apply (steps_bind _ reaped_only_trans); [apply rp_delete|rp].
Qed.

Lemma rp_check_gateways unc l acc : steps reaped_only (check_gateways unc l acc).
Proof.
  revert acc. induction l as [|g l IH]; intros acc; cbn [check_gateways]; [rp|].
  apply (steps_bind _ reaped_only_trans); [|intros r; apply IH].
  unfold check_gateway.
  apply (steps_bind _ reaped_only_trans); [apply rp_compute|intros; apply rp_reap].
Qed.

Lemma rp_report ev rs : steps reaped_only (check_gateway_report ev rs).
Proof. unfold check_gateway_report, invoke_lambda. rp. Qed.

Lemma rp_check unc ev : steps reaped_only (check_gateway_required unc ev).
Proof.
  unfold check_gateway_required.
  apply (steps_bind _ reaped_only_trans); [apply rp_list|].
  intros [l|]; [|rp].
  apply (steps_bind _ reaped_only_trans); [apply rp_check_gateways|].
  intros rs. apply rp_report.
Qed.

(** X4: the check flow makes no call but the inventory query, delete
    requests and the notification; it creates no gateway and writes no tag:
    every gateway is left exactly as it was, or is the same gateway in state
    deleting after a delete request for it. *)
Theorem check_only_reaps
    (unc : string -> result ((Z * Z * Z) * nat)) (ev : list (string * json))
    (w : world) :
  forallb is_check_call (new_calls w (check_gateway_required unc ev w).2) = true
  /\ forall id,
       nat_gateways (check_gateway_required unc ev w).2 !! id = nat_gateways w !! id
       \/ exists g,
            nat_gateways w !! id = Some g
            /\ nat_gateways (check_gateway_required unc ev w).2 !! id
               = Some (set_state "deleting" g)
            /\ DeleteNatGateway id
               ∈ new_calls w (check_gateway_required unc ev w).2.
Proof.
  destruct (rp_check unc ev w) as [Hc Hg].
  split; [now apply calls_in_new_calls | exact Hg].
Qed.

(** *** Which gateways the check flow deletes *)

Lemma check_gateways_deletes unc l acc w :
  exists del,
    trace (check_gateways unc l acc w).2 = trace w ++ (DeleteNatGateway <$> del)
    /\ del `sublist_of` entry_ids l.
Proof.
  revert acc w. induction l as [|g l IH]; intros acc w.
  - exists []. cbn. now rewrite app_nil_r.
  - rewrite check_gateways_cons, check_gateway_eq.
    pose proof (compute_inactivity_trace unc g w) as Ht.
    destruct (compute_inactivity unc g w) as [[[age inactive]|e] w1];
      cbn [fst snd] in *.
    2:{ exists []. cbn. rewrite app_nil_r. split; [exact Ht|apply sublist_nil_l]. }
    destruct (Z.le_gt_cases (timedelta_minutes 45) inactive) as [Hge|Hlt].
    + rewrite reap_deleted by exact Hge.
      pose proof (delete_nat_gateway_trace g.1.1.1 w1) as Hd.
      destruct (ec2_delete_nat_gateway g.1.1.1 w1) as [[[]|e] w2];
        cbn [fst snd] in *.
      * destruct (IH (acc ++ [action_record "deleted" g.1.1.1 age inactive]) w2)
          as (del & Hdel & Hsub).
        exists (g.1.1.1 :: del). split.
        -- rewrite Hdel, Hd, Ht. cbn. now rewrite <- app_assoc.
        -- cbn. now apply sublist_skip.
      * exists [g.1.1.1]. split; [now rewrite Hd, Ht|].
        cbn. apply sublist_skip, sublist_nil_l.
    + rewrite reap_skipped by exact Hlt.
      destruct (IH (acc ++ [action_record "skipped" g.1.1.1 age inactive]) w1)
        as (del & Hdel & Hsub).
      exists del. split; [now rewrite Hdel, Ht|]. cbn. now apply sublist_cons.
Qed.

Lemma entry_ids_inventory w vpc :
  entry_ids (inventory w vpc)
  = (filter (fun kv => gateway_matches ["pending"; "available"] vpc kv = true)
       (map_to_list (nat_gateways w))).*1.
Proof.
  unfold entry_ids, inventory. rewrite <- list_fmap_compose. reflexivity.
Qed.

Lemma sublist_map {A B} (f : A -> B) (l1 l2 : list A) :
  l1 `sublist_of` l2 -> (f <$> l1) `sublist_of` (f <$> l2).
Proof.
  induction 1; cbn; [constructor|now apply sublist_skip|now apply sublist_cons].
Qed.

Lemma entry_ids_NoDup w vpc : NoDup (entry_ids (inventory w vpc)).
Proof.
  rewrite entry_ids_inventory.
  eapply sublist_NoDup; [apply (NoDup_fst_map_to_list (nat_gateways w))|].
  apply sublist_map, sublist_filter.
Qed.

Lemma entry_ids_elem w vpc id :
  id ∈ entry_ids (inventory w vpc) ->
  exists g, nat_gateways w !! id = Some g
            /\ gateway_matches ["pending"; "available"] vpc (id, g) = true.
Proof.
  intros Hin. apply inventory_elem.
  apply list_elem_of_fmap in Hin as (g & -> & Hin). eauto.
Qed.

Lemma report_trace ev rs w :
  trace (check_gateway_report ev rs w).2
  = trace w ++ match event_body ev with
               | Ok body => [LambdaInvoke "afipApi" "Event" body]
               | Err _ => []
               end.
Proof.
  unfold check_gateway_report, bind, lift, invoke_lambda, lambda_invoke, request.
  destruct (event_body ev) as [body|e]; cbn; [|now rewrite app_nil_r].
  repeat case_match; simplify_eq; reflexivity.
Qed.

Lemma check_calls_shape
    (unc : string -> result ((Z * Z * Z) * nat)) (ev : list (string * json))
    (w : world) (vpc : string) :
  environ w !! "VPC_ID" = Some vpc ->
  exists del rest,
    new_calls w (check_gateway_required unc ev w).2
    = DescribeNatGateways ["pending"; "available"] vpc
      :: (DeleteNatGateway <$> del) ++ rest
    /\ del `sublist_of` entry_ids (inventory w vpc)
    /\ NoDup del
    /\ (rest = []
        \/ exists body,
             event_body ev = Ok body /\ rest = [LambdaInvoke "afipApi" "Event" body])
    /\ forall id,
         id ∈ del ->
         exists g,
           nat_gateways w !! id = Some g
           /\ gw_VpcId g = vpc
           /\ gw_State g ∈ ["pending"; "available"].
Proof.
  intros Hv.
  assert (Hscope : forall del, del `sublist_of` entry_ids (inventory w vpc) ->
            NoDup del
            /\ forall id, id ∈ del ->
                 exists g, nat_gateways w !! id = Some g /\ gw_VpcId g = vpc
                           /\ gw_State g ∈ ["pending"; "available"]).
  { intros del Hsub. split; [eapply sublist_NoDup; [apply entry_ids_NoDup|eauto]|].
    intros id Hin. eapply elem_of_sublist in Hin; [|exact Hsub].
    apply entry_ids_elem in Hin as (g & Hg & Hm). exists g. split; [exact Hg|].
    unfold gateway_matches in Hm. cbn in Hm.
    apply andb_true_iff in Hm as [Hs Hvpc].
    split; [now apply String.eqb_eq in Hvpc|].
    now apply bool_decide_eq_true in Hs. }
  unfold check_gateway_required, bind at 1.
  rewrite list_nat_gateways_eq, Hv. cbv zeta.
  set (w0 := log (DescribeNatGateways ["pending"; "available"] vpc) w).
  assert (T0 : trace w0 = trace w ++ [DescribeNatGateways ["pending"; "available"] vpc])
    by reflexivity.
  destruct (faults w (length (trace w))).
  { exists [], []. cbn [snd]. split; [now apply new_calls_app|].
    destruct (Hscope []) as [? ?]; [apply sublist_nil_l|].
    split; [apply sublist_nil_l|]. split; [assumption|]. split; [now left|assumption]. }
  destruct (inventory w vpc) as [|g l] eqn:Ei.
  { exists [], []. cbn [snd]. split; [now apply new_calls_app|].
    destruct (Hscope []) as [? ?]; [apply sublist_nil_l|].
    split; [apply sublist_nil_l|]. split; [assumption|]. split; [now left|assumption]. }
  destruct (check_gateways_deletes unc (g :: l) [] w0) as (del & Hdel & Hsub).
  destruct (Hscope del Hsub) as [Hnd Hin].
  unfold bind.
  destruct (check_gateways unc (g :: l) [] w0) as [[rs|e] w1]; cbn [fst snd] in *.
  - pose proof (report_trace ev rs w1) as Hr.
    exists del. destruct (event_body ev) as [body|e] eqn:Eb.
    + exists [LambdaInvoke "afipApi" "Event" body].
      split; [|split; [exact Hsub|split; [exact Hnd|split; [right; eauto|exact Hin]]]].
      apply new_calls_app. rewrite Hr, Hdel, T0. now rewrite <- !app_assoc.
    + exists [].
      split; [|split; [exact Hsub|split; [exact Hnd|split; [now left|exact Hin]]]].
      apply new_calls_app. rewrite Hr, Hdel, T0. now rewrite <- !app_assoc.
  - exists del, [].
    split; [|split; [exact Hsub|split; [exact Hnd|split; [now left|exact Hin]]]].
    apply new_calls_app. rewrite Hdel, T0, app_nil_r. now rewrite <- !app_assoc.
Qed.

(** X5: the calls of the check flow are the inventory query, then delete
    requests for distinct gateways that the query listed, in the order of
    the inventory, then at most the notification; every gateway a delete
    request names is one of the configured network that was pending or
    available. *)
Theorem check_deletes_listed_gateways
    (unc : string -> result ((Z * Z * Z) * nat)) (ev : list (string * json))
    (w : world) (vpc : string) :
  environ w !! "VPC_ID" = Some vpc ->
  exists del rest,
    new_calls w (check_gateway_required unc ev w).2
    = DescribeNatGateways ["pending"; "available"] vpc
      :: (DeleteNatGateway <$> del) ++ rest
    /\ del `sublist_of` entry_ids (inventory w vpc)
    /\ NoDup del
    /\ (rest = []
        \/ exists body,
             event_body ev = Ok body /\ rest = [LambdaInvoke "afipApi" "Event" body])
    /\ forall id,
         id ∈ del ->
         exists g,
           nat_gateways w !! id = Some g
           /\ gw_VpcId g = vpc
           /\ gw_State g ∈ ["pending"; "available"].
Proof. apply check_calls_shape. Qed.


(** *** The action list and the delete requests *)

Lemma deleted_ids_deleted id age inactive rs :
  deleted_ids (action_record "deleted" id age inactive :: rs) = id :: deleted_ids rs.
Proof. reflexivity. Qed.

Lemma deleted_ids_skipped id age inactive rs :
  deleted_ids (action_record "skipped" id age inactive :: rs) = deleted_ids rs.
Proof. reflexivity. Qed.

Lemma delete_inv id w w' :
  ec2_delete_nat_gateway id w = (Ok tt, w') ->
  exists g,
    nat_gateways w !! id = Some g
    /\ w' = set_nat_gateways (<[id := set_state "deleting" g]> (nat_gateways w))
              (log (DeleteNatGateway id) w).
Proof.
  unfold ec2_delete_nat_gateway. intros [_ H]%request_Ok.
  change (nat_gateways (log _ w)) with (nat_gateways w) in H.
  destruct (nat_gateways w !! id) as [g|]; [|discriminate].
  injection H as <-. eauto.
Qed.

Lemma reaped_only_deleting w w' id :
  reaped_only w w' ->
  gw_State <$> nat_gateways w !! id = Some "deleting" ->
  gw_State <$> nat_gateways w' !! id = Some "deleting".
Proof.
  intros [_ Hg] Hs. destruct (Hg id) as [E|(g & Hw & Hw' & _)].
  - now rewrite E.
  - now rewrite Hw'.
Qed.

Lemma check_gateways_Ok unc l acc w rs w' :
  check_gateways unc l acc w = (Ok rs, w') ->
  exists rs',
    rs = acc ++ rs'
    /\ record_gateway <$> rs' = Some <$> entry_ids l
    /\ Forall (fun r => record_action r = Some "deleted"
                        \/ record_action r = Some "skipped") rs'
    /\ trace w' = trace w ++ (DeleteNatGateway <$> deleted_ids rs')
    /\ forall id, id ∈ deleted_ids rs' ->
                  gw_State <$> nat_gateways w' !! id = Some "deleting".
Proof.
  revert acc w. induction l as [|g l IH]; intros acc w H.
  - injection H as <- <-. exists []. rewrite !app_nil_r.
    repeat split; [constructor|]. intros id Hin. now apply elem_of_nil in Hin.
  - rewrite check_gateways_cons, check_gateway_eq in H.
    pose proof (compute_inactivity_trace unc g w) as Ht.
    destruct (compute_inactivity unc g w) as [[[age inactive]|e] w1];
      cbn [fst snd] in *; [|discriminate].
    destruct (Z.le_gt_cases (timedelta_minutes 45) inactive) as [Hge|Hlt].
    + rewrite reap_deleted in H by exact Hge.
      destruct (ec2_delete_nat_gateway g.1.1.1 w1) as [[[]|e] w2] eqn:Ed;
        [|discriminate].
      pose proof (rp_check_gateways unc l
                    (acc ++ [action_record "deleted" g.1.1.1 age inactive]) w2) as Hrp.
      rewrite H in Hrp. cbn [snd] in Hrp.
      apply IH in H as (rs' & -> & Hids & Hact & Htr & Hst).
      apply delete_inv in Ed as (gw & Hgw & ->).
      exists (action_record "deleted" g.1.1.1 age inactive :: rs').
      split; [now rewrite <- app_assoc|]. split; [cbn; now rewrite Hids|].
      split; [constructor; [now left|exact Hact]|].
      rewrite deleted_ids_deleted. split.
      * rewrite Htr. cbn. rewrite Ht. now rewrite <- app_assoc.
      * intros id [->|Hin]%elem_of_cons; [|now apply Hst].
        apply (reaped_only_deleting _ _ _ Hrp). cbn. now rewrite lookup_insert_eq.
    + rewrite reap_skipped in H by exact Hlt.
      apply IH in H as (rs' & -> & Hids & Hact & Htr & Hst).
      exists (action_record "skipped" g.1.1.1 age inactive :: rs').
      split; [now rewrite <- app_assoc|]. split; [cbn; now rewrite Hids|].
      split; [constructor; [now right|exact Hact]|].
      rewrite deleted_ids_skipped. split; [now rewrite Htr, Ht|exact Hst].
Qed.

Lemma report_Ok ev rs w out w' :
  check_gateway_report ev rs w = (Ok out, w') ->
  exists payload,
    event_body ev = Ok (JStr payload)
    /\ out = JDict [("nat-changed", JList rs)]
    /\ nat_gateways w' = nat_gateways w
    /\ trace w' = trace w ++ [LambdaInvoke "afipApi" "Event" (JStr payload)].
Proof.
  unfold check_gateway_report. intros H.
  apply bind_Ok in H as (body & w1 & Hb & H).
  unfold lift in Hb. injection Hb as Hb <-.
  apply bind_Ok in H as ([] & w2 & Hi & H). injection H as <- <-.
  unfold invoke_lambda, lambda_invoke in Hi. apply request_Ok in Hi as [_ Hi].
  destruct body; try discriminate. injection Hi as <-. exists s.
  repeat split. exact Hb.
Qed.

Lemma check_Ok unc ev w l w0 out w' :
  list_nat_gateways w = (Ok (Some l), w0) ->
  check_gateway_required unc ev w = (Ok out, w') ->
  exists rs payload,
    out = JDict [("nat-changed", JList rs)]
    /\ record_gateway <$> rs = Some <$> entry_ids l
    /\ Forall (fun r => record_action r = Some "deleted"
                        \/ record_action r = Some "skipped") rs
    /\ event_body ev = Ok (JStr payload)
    /\ trace w'
       = trace w0 ++ (DeleteNatGateway <$> deleted_ids rs)
         ++ [LambdaInvoke "afipApi" "Event" (JStr payload)]
    /\ forall id, id ∈ deleted_ids rs ->
                  gw_State <$> nat_gateways w' !! id = Some "deleting".
Proof.
  intros Hl H. unfold check_gateway_required, bind at 1 in H. rewrite Hl in H.
  apply bind_Ok in H as (rs & w1 & Hc & Hr).
  apply check_gateways_Ok in Hc as (rs' & -> & Hids & Hact & Htr & Hst).
  apply report_Ok in Hr as (payload & Hb & -> & Hg & Htr').
  exists rs', payload. cbn [app].
  split; [reflexivity|]. split; [exact Hids|]. split; [exact Hact|].
  split; [exact Hb|]. split.
  - rewrite Htr', Htr. now rewrite <- app_assoc.
  - intros id Hin. rewrite Hg. now apply Hst.
Qed.

(** X6: when the check flow returns over an inventory, its result is the
    dictionary with the action list under [nat-changed]; the list has one
    record per gateway of the inventory, in the order of the inventory, each
    marked deleted or skipped; the calls made after the inventory query are
    the delete requests for exactly the gateways marked deleted, in that
    order, and then one asynchronous invocation of the downstream function
    with the body of the first record of the event; every gateway marked
    deleted is in state deleting afterwards. *)
Theorem check_report_matches_calls
    (unc : string -> result ((Z * Z * Z) * nat)) (ev : list (string * json))
    (w : world) (l : list inventory_entry) (w0 : world) (out : json) (w' : world) :
  list_nat_gateways w = (Ok (Some l), w0) ->
  check_gateway_required unc ev w = (Ok out, w') ->
  exists rs payload,
    out = JDict [("nat-changed", JList rs)]
    /\ record_gateway <$> rs = Some <$> entry_ids l
    /\ Forall (fun r => record_action r = Some "deleted"
                        \/ record_action r = Some "skipped") rs
    /\ event_body ev = Ok (JStr payload)
    /\ new_calls w0 w'
       = (DeleteNatGateway <$> deleted_ids rs)
         ++ [LambdaInvoke "afipApi" "Event" (JStr payload)]
    /\ forall id, id ∈ deleted_ids rs ->
                  gw_State <$> nat_gateways w' !! id = Some "deleting".
Proof.
  intros Hl H.
  destruct (check_Ok _ _ _ _ _ _ _ Hl H)
    as (rs & payload & Ho & Hids & Hact & Hb & Htr & Hst).
  exists rs, payload. repeat (split; [assumption|]).
  split; [now apply new_calls_app | exact Hst].
Qed.

(** *** After a gateway was reaped *)

Lemma deleting_not_listed w vpc id :
  gw_State <$> nat_gateways w !! id = Some "deleting" ->
  id ∉ entry_ids (inventory w vpc).
Proof.
  intros Hs Hin. apply entry_ids_elem in Hin as (g & Hg & Hm).
  rewrite Hg in Hs. injection Hs as Hs.
  unfold gateway_matches in Hm. cbn in Hm. rewrite Hs in Hm.
  apply andb_true_iff in Hm as [Hm _]. apply bool_decide_eq_true in Hm.
  rewrite !elem_of_cons, elem_of_nil in Hm.
  destruct Hm as [Hm|[Hm|[]]]; discriminate.
Qed.

Lemma check_Ok_deleted unc ev w out w' id :
  check_gateway_required unc ev w = (Ok out, w') ->
  DeleteNatGateway id ∈ new_calls w w' ->
  gw_State <$> nat_gateways w' !! id = Some "deleting".
Proof.
  intros H Hin.
  destruct (list_nat_gateways w) as [[[l|]|e] w0] eqn:Hl.
  - destruct (check_Ok _ _ _ _ _ _ _ Hl H)
      as (rs & payload & _ & _ & _ & _ & Htr & Hst).
    apply list_nat_gateways_Some in Hl as (vpc & _ & _ & _ & _ & ->).
    cbn [trace log] in Htr. rewrite <- app_assoc in Htr.
    rewrite (new_calls_app _ _ _ Htr) in Hin.
    apply elem_of_app in Hin as [Hin|Hin];
      [apply list_elem_of_singleton in Hin; discriminate|].
    apply elem_of_app in Hin as [Hin|Hin];
      [|apply list_elem_of_singleton in Hin; discriminate].
    apply list_elem_of_fmap in Hin as (id' & [= <-] & Hin). now apply Hst.
  - unfold check_gateway_required, bind in H. rewrite Hl in H.
    injection H as _ <-.
    apply list_nat_gateways_None in Hl as (vpc & _ & _ & _ & ->).
    rewrite (new_calls_app w _ [DescribeNatGateways ["pending"; "available"] vpc])
      in Hin by reflexivity.
    apply list_elem_of_singleton in Hin. discriminate.
  - unfold check_gateway_required, bind in H. rewrite Hl in H. discriminate.
Qed.

Lemma check_no_delete_unlisted unc ev w id :
  (forall vpc, id ∉ entry_ids (inventory w vpc)) ->
  DeleteNatGateway id ∉ new_calls w (check_gateway_required unc ev w).2.
Proof.
  intros Hnot Hin. destruct (environ w !! "VPC_ID") as [vpc|] eqn:Hv.
  - destruct (check_calls_shape unc ev w vpc Hv)
      as (del & rest & Hc & Hsub & _ & Hrest & _).
    rewrite Hc in Hin.
    apply elem_of_cons in Hin as [Hin|Hin]; [discriminate|].
    apply elem_of_app in Hin as [Hin|Hin].
    + apply list_elem_of_fmap in Hin as (id' & [= <-] & Hin).
      apply (Hnot vpc). eapply elem_of_sublist; eauto.
    + destruct Hrest as [->|(body & _ & ->)].
      * now apply elem_of_nil in Hin.
      * apply list_elem_of_singleton in Hin. discriminate.
  - unfold check_gateway_required, bind in Hin.
    rewrite list_nat_gateways_eq, Hv in Hin. cbn [snd] in Hin.
    unfold new_calls in Hin. rewrite drop_all in Hin. now apply elem_of_nil in Hin.
Qed.

Lemma handler_no_vpc_id ev w :
  environ w !! "VPC_ID" = None ->
  nat_gateways (request_gateway_handler ev w).2 = nat_gateways w.
Proof.
  intros Hv.
  assert (Ht : request_gateway_try ev w = (Err (KeyError "VPC_ID"), w)).
  { unfold request_gateway_try, request_gateway_ensure.
    unfold bind at 1 2. rewrite list_nat_gateways_eq. now rewrite Hv. }
  rewrite (handler_of_try_Err _ _ _ _ Ht).
  now destruct (gu_except ev (KeyError "VPC_ID") w).
Qed.

(** X7: a gateway for which a check flow that returned made a delete
    request is in state deleting afterwards; the inventory query no longer
    lists it, so the next check flow makes no delete request for it and the
    next request flow leaves it as it is. *)
Theorem reaped_gateway_is_left_alone
    (unc : string -> result ((Z * Z * Z) * nat)) (ev ev2 : list (string * json))
    (w : world) (out : json) (w' : world) (id : string) :
  check_gateway_required unc ev w = (Ok out, w') ->
  DeleteNatGateway id ∈ new_calls w w' ->
  gw_State <$> nat_gateways w' !! id = Some "deleting"
  /\ (forall vpc, id ∉ entry_ids (inventory w' vpc))
  /\ (DeleteNatGateway id ∉ new_calls w' (check_gateway_required unc ev2 w').2)
  /\ nat_gateways (request_gateway_handler ev2 w').2 !! id = nat_gateways w' !! id.
Proof.
  intros H Hin. pose proof (check_Ok_deleted _ _ _ _ _ _ H Hin) as Hs.
  assert (Hnot : forall vpc, id ∉ entry_ids (inventory w' vpc))
    by (intros vpc; now apply deleting_not_listed).
  split; [exact Hs|]. split; [exact Hnot|].
  split; [now apply check_no_delete_unlisted|].
  destruct (nat_gateways w' !! id) as [g|] eqn:Hg; [|discriminate].
  injection Hs as Hs.
  destruct (environ w' !! "VPC_ID") as [vpc|] eqn:Hv.
  - destruct (request_frame ev2 w') as (_ & _ & Hother & _).
    apply (Hother vpc id g Hv Hg).
    unfold gateway_matches. cbn. rewrite Hs. reflexivity.
  - now rewrite handler_no_vpc_id.
Qed.

(** *** What the route converger leaves alone *)

Lemma sbd_refl t : same_but_default_route t t.
Proof. now split. Qed.

Lemma dro_refl w : default_routes_only w w.
Proof.
  split; [reflexivity|]. intros rt. destruct (route_tables w !! rt); [apply sbd_refl|exact I].
Qed.

Lemma dro_trans w1 w2 w3 :
  default_routes_only w1 w2 -> default_routes_only w2 w3 -> default_routes_only w1 w3.
Proof.
  intros [G1 R1] [G2 R2]. split; [congruence|]. intros rt.
  specialize (R1 rt). specialize (R2 rt).
  destruct (route_tables w1 !! rt), (route_tables w2 !! rt), (route_tables w3 !! rt);
    try contradiction; try exact I.
  destruct R1 as [T1 D1], R2 as [T2 D2]. split; [congruence|].
  intros cidr Hc. now rewrite D2, D1.
Qed.

Lemma dro_same w w' :
  nat_gateways w' = nat_gateways w -> route_tables w' = route_tables w ->
  default_routes_only w w'.
Proof. intros G R. split; [exact G|]. intros rt. rewrite R. apply dro_refl. Qed.

Lemma dro_insert w w' rt t routes :
  nat_gateways w' = nat_gateways w ->
  route_tables w !! rt = Some t ->
  (forall cidr, cidr <> "0.0.0.0/0" -> routes !! cidr = rt_Routes t !! cidr) ->
  route_tables w' = <[rt := set_routes routes t]> (route_tables w) ->
  default_routes_only w w'.
Proof.
  intros G Ht Hr R. split; [exact G|]. intros rt'. rewrite R.
  destruct (decide (rt' = rt)) as [->|Hne].
  - rewrite Ht, lookup_insert_eq. split; [reflexivity|exact Hr].
  - rewrite lookup_insert_ne by congruence.
    destruct (route_tables w !! rt'); [apply sbd_refl|exact I].
Qed.

Ltac dro_fin :=
  idtac;
  first [ now apply dro_same
        | eapply dro_insert; cycle 3;
          [ reflexivity | reflexivity | eassumption
          | let c := fresh "cidr" in let H := fresh "H" in
            intros c H;
            first [ apply lookup_delete_ne; congruence
                  | apply lookup_insert_ne; congruence ] ] ].

Ltac dro := solve_steps dro_refl dro_trans ltac:(dro_fin).

Lemma dro_update g : steps default_routes_only (update_route_tables g).
Proof.
  unfold update_route_tables, update_route_table, ignore_route_not_found. dro.
Qed.

Lemma for_each_update_other g l w rt :
  rt ∉ l ->
  route_tables (for_each l (update_route_table g) w).2 !! rt = route_tables w !! rt.
Proof.
  revert w. induction l as [|x l IH]; intros w Hn; [reflexivity|].
  apply not_elem_of_cons in Hn as [Hne Hn]. cbn [for_each]. unfold bind.
  pose proof (update_route_table_other g x w rt Hne) as Ho.
  destruct (update_route_table g x w) as [[[]|e] w1]; cbn [snd] in *;
    [|exact Ho].
  now rewrite IH.
Qed.

Lemma on_demand_ids_elem w rt :
  rt ∈ on_demand_ids w <->
  exists t, route_tables w !! rt = Some t /\ on_demand_table t = true.
Proof.
  unfold on_demand_ids, on_demand_table. split.
  - intros Hin. apply list_elem_of_fmap in Hin as ([rt' t] & -> & Hin).
    apply list_elem_of_filter in Hin as [Htag Hin].
    apply elem_of_map_to_list in Hin. eauto.
  - intros (t & Ht & Htag). apply list_elem_of_fmap. exists (rt, t).
    split; [reflexivity|]. apply list_elem_of_filter. split; [exact Htag|].
    now apply elem_of_map_to_list.
Qed.

Lemma update_route_tables_eq g w :
  update_route_tables g w
  = match faults w (length (trace w)) with
    | Some e => (Err e, log (DescribeRouteTables ["Yes"; "True"]) w)
    | None =>
        for_each (on_demand_ids w) (update_route_table g)
          (log (DescribeRouteTables ["Yes"; "True"]) w)
    end.
Proof.
  unfold update_route_tables, bind, ec2_describe_route_tables, request.
  now destruct (faults w (length (trace w))).
Qed.

(** X8: whatever its outcome, [update_route_tables] changes nothing but
    default routes of route tables tagged for on-demand NAT: no gateway is
    changed, no route table appears or disappears, every table keeps its tags
    and its routes to other destinations, and a table without the tag is left
    exactly as it was. *)
Theorem route_convergence_frame (g : string) (w : world) :
  default_routes_only w (update_route_tables g w).2
  /\ forall rt t,
       route_tables w !! rt = Some t -> on_demand_table t = false ->
       route_tables (update_route_tables g w).2 !! rt = Some t.
Proof.
  split; [apply dro_update|].
  intros rt t Ht Htag. rewrite update_route_tables_eq.
  destruct (faults w (length (trace w))); [exact Ht|].
  rewrite for_each_update_other; [exact Ht|].
  intros (t' & Ht' & Htag')%on_demand_ids_elem. congruence.
Qed.

(** *** A route update that fails *)

Lemma create_route_fails rt cidr g w e w' :
  ec2_create_route rt cidr g w = (Err e, w') -> route_tables w' = route_tables w.
Proof.
  unfold ec2_create_route, request. repeat case_match; now intros [= _ <-].
Qed.

(** X9: the replacement of a default route is not atomic.  When the delete
    call of a route table was served and the update of the table fails all
    the same, the table is left without a default route (the old one is
    gone, the new one was not created), and every other table is as it was. *)
Theorem failed_route_update_leaves_no_default_route
    (g rt : string) (w : world) (e : exn) (w' : world) :
  faults w (length (trace w)) = None ->
  update_route_table g rt w = (Err e, w') ->
  default_route w' rt = None
  /\ forall rt', rt' <> rt -> route_tables w' !! rt' = route_tables w !! rt'.
Proof.
  intros Hf H. split.
  2:{ intros rt' Hne. pose proof (update_route_table_other g rt w rt' Hne) as Ho.
      now rewrite H in Ho. }
  rewrite update_route_table_eq in H. unfold ec2_delete_route in H.
  rewrite request_no_fault in H by exact Hf.
  change (route_tables (log (DeleteRoute rt "0.0.0.0/0") w)) with (route_tables w) in H.
  unfold default_route.
  destruct (route_tables w !! rt) as [t|] eqn:Ht.
  - destruct (rt_Routes t !! "0.0.0.0/0") as [old|] eqn:Hr.
    + apply create_route_fails in H. rewrite H. cbn.
      rewrite lookup_insert_eq. cbn. apply lookup_delete_eq.
    + cbn in H. apply create_route_fails in H. rewrite H. cbn. now rewrite Ht.
  - cbn in H. injection H as _ <-. cbn. now rewrite Ht.
Qed.

(** *** The route converger succeeds when the gateway exists *)

Lemma update_route_table_served g rt w t :
  faults w (length (trace w)) = None ->
  faults w (S (length (trace w))) = None ->
  route_tables w !! rt = Some t ->
  is_Some (nat_gateways w !! g) ->
  update_route_table g rt w
  = (Ok tt,
     set_route_tables
       (<[rt := set_routes (<["0.0.0.0/0" := g]> (rt_Routes t)) t]> (route_tables w))
       (log (CreateRoute rt "0.0.0.0/0" g) (log (DeleteRoute rt "0.0.0.0/0") w))).
Proof.
  intros Hf1 Hf2 Ht [gw Hg]. rewrite update_route_table_eq.
  unfold ec2_delete_route. rewrite request_no_fault by exact Hf1.
  change (route_tables (log (DeleteRoute rt "0.0.0.0/0") w)) with (route_tables w).
  rewrite Ht. destruct (rt_Routes t !! "0.0.0.0/0") as [old|] eqn:Hr.
  - unfold ec2_create_route. rewrite request_no_fault
      by (cbn [faults set_route_tables log trace]; rewrite length_app;
          cbn [length]; rewrite Nat.add_1_r; exact Hf2).
    cbn [route_tables set_route_tables log nat_gateways].
    rewrite lookup_insert_eq. cbn [rt_Routes set_routes].
    rewrite lookup_delete_eq, Hg. f_equal. unfold set_route_tables, log. cbn.
    f_equal. rewrite insert_insert_eq. unfold set_routes. cbn.
    now rewrite insert_delete_eq.
  - cbn [String.eqb Ascii.eqb Bool.eqb]. unfold ec2_create_route.
    rewrite request_no_fault by (cbn [faults log]; rewrite trace_log; exact Hf2).
    cbn [route_tables log nat_gateways]. now rewrite Ht, Hr, Hg.
Qed.

Lemma for_each_update_served g l w :
  (forall rt, rt ∈ l -> is_Some (route_tables w !! rt)) ->
  is_Some (nat_gateways w !! g) ->
  (forall k, (length (trace w) <= k < length (trace w) + 2 * length l)%nat ->
             faults w k = None) ->
  exists w',
    for_each l (update_route_table g) w = (Ok tt, w')
    /\ trace w'
       = trace w
         ++ concat ((fun rt => [DeleteRoute rt "0.0.0.0/0"; CreateRoute rt "0.0.0.0/0" g])
                      <$> l)
    /\ nat_gateways w' = nat_gateways w.
Proof.
  revert w. induction l as [|rt l IH]; intros w Ht Hg Hf.
  - exists w. cbn. now rewrite app_nil_r.
  - destruct (Ht rt) as [t Hrt]; [left|].
    cbn [for_each length] in *.
    erewrite bind_eq_Ok;
      [|apply (update_route_table_served g rt w t);
        [apply Hf; lia | apply Hf; lia | exact Hrt | exact Hg]].
    edestruct IH as (w' & Hrun & Htr & Hgw); [| |
      |exists w'; split; [exact Hrun|split; [rewrite Htr|rewrite Hgw]]].
    + intros rt' Hin. cbn [route_tables set_route_tables].
      apply lookup_insert_is_Some'. right. apply Ht. now right.
    + exact Hg.
    + intros k Hk. cbn [faults set_route_tables log trace] in *.
      rewrite !length_app in Hk. cbn [length] in Hk. apply Hf. lia.
    + cbn. now rewrite <- !app_assoc.
    + reflexivity.
Qed.

Lemma update_route_tables_served g w :
  is_Some (nat_gateways w !! g) ->
  (forall k, (length (trace w) <= k
              < length (trace w) + 1 + 2 * length (on_demand_ids w))%nat ->
             faults w k = None) ->
  exists w',
    update_route_tables g w = (Ok tt, w')
    /\ trace w' = trace w ++ converge_calls g (on_demand_ids w)
    /\ nat_gateways w' = nat_gateways w.
Proof.
  intros Hg Hf. rewrite update_route_tables_eq, Hf by lia.
  destruct (for_each_update_served g (on_demand_ids w)
              (log (DescribeRouteTables ["Yes"; "True"]) w))
    as (w' & Hrun & Htr & Hgw).
  - intros rt (t & Ht & _)%on_demand_ids_elem. cbn. rewrite Ht. eauto.
  - exact Hg.
  - intros k Hk. rewrite trace_log in Hk. cbn [faults log]. apply Hf. lia.
  - exists w'. split; [exact Hrun|]. split; [|exact Hgw].
    rewrite Htr. cbn. now rewrite <- app_assoc.
Qed.

(** X10: when the gateway exists and the calls are served,
    [update_route_tables] returns; its calls are the query of the tagged
    route tables and then, for each of them in the order of the answer, the
    deletion of the default route followed by the creation of the default
    route to the gateway; afterwards every tagged table routes to the
    gateway. *)
Theorem route_convergence_succeeds (g : string) (w : world) :
  is_Some (nat_gateways w !! g) ->
  (forall k, (length (trace w) <= k
              < length (trace w) + 1 + 2 * length (on_demand_ids w))%nat ->
             faults w k = None) ->
  exists w',
    update_route_tables g w = (Ok tt, w')
    /\ new_calls w w' = converge_calls g (on_demand_ids w)
    /\ forall rt, rt ∈ on_demand_ids w -> default_route w' rt = Some g.
Proof.
  intros Hg Hf.
  destruct (update_route_tables_served g w Hg Hf) as (w' & Hrun & Htr & _).
  exists w'. split; [exact Hrun|]. split; [now apply new_calls_app|].
  intros rt (t & Ht & Htag)%on_demand_ids_elem.
  eapply update_route_tables_Ok; eauto.
Qed.

(** *** Converging twice *)

Lemma create_route_Ok_gateway rt cidr g w w' :
  ec2_create_route rt cidr g w = (Ok tt, w') -> is_Some (nat_gateways w !! g).
Proof.
  unfold ec2_create_route. intros [_ H]%request_Ok.
  change (nat_gateways (log (CreateRoute rt cidr g) w)) with (nat_gateways w) in H.
  destruct (route_tables _ !! rt) as [t|]; [|discriminate].
  destruct (rt_Routes t !! cidr); [discriminate|].
  destruct (nat_gateways w !! g); [now eexists|discriminate].
Qed.

Lemma update_route_table_Ok_gateway g rt w w' :
  update_route_table g rt w = (Ok tt, w') -> is_Some (nat_gateways w !! g).
Proof.
  rewrite update_route_table_eq.
  destruct (ec2_delete_route rt "0.0.0.0/0" w) as [[[]|e] w1] eqn:Ed.
  - intros H%create_route_Ok_gateway.
    assert (Hs : steps gateways_untouched (ec2_delete_route rt "0.0.0.0/0")) by gu.
    specialize (Hs w) as [Hg _]. rewrite Ed in Hg. cbn in Hg. now rewrite <- Hg.
  - destruct e; try discriminate.
    destruct (String.eqb code "InvalidRoute.NotFound"); [|discriminate].
    intros H%create_route_Ok_gateway.
    assert (Hs : steps gateways_untouched (ec2_delete_route rt "0.0.0.0/0")) by gu.
    specialize (Hs w) as [Hg _]. rewrite Ed in Hg. cbn in Hg. now rewrite <- Hg.
Qed.

Lemma update_route_tables_Ok_gateway g w w' rt :
  update_route_tables g w = (Ok tt, w') -> rt ∈ on_demand_ids w ->
  is_Some (nat_gateways w !! g).
Proof.
  rewrite update_route_tables_eq.
  destruct (faults w (length (trace w))); [discriminate|].
  destruct (on_demand_ids w) as [|x l]; [intros _ Hin; now apply elem_of_nil in Hin|].
  cbn [for_each]. intros H _. apply bind_Ok in H as ([] & w1 & H & _).
  now apply update_route_table_Ok_gateway in H.
Qed.

Lemma set_routes_id t : set_routes (rt_Routes t) t = t.
Proof. now destruct t. Qed.

Lemma for_each_update_stable g l w :
  (forall rt, rt ∈ l -> default_route w rt = Some g) ->
  is_Some (nat_gateways w !! g) ->
  (forall k, (length (trace w) <= k < length (trace w) + 2 * length l)%nat ->
             faults w k = None) ->
  exists w',
    for_each l (update_route_table g) w = (Ok tt, w')
    /\ route_tables w' = route_tables w.
Proof.
  revert w. induction l as [|rt l IH]; intros w Hd Hg Hf.
  - exists w. now split.
  - assert (Hrt : exists t, route_tables w !! rt = Some t
                            /\ rt_Routes t !! "0.0.0.0/0" = Some g).
    { specialize (Hd rt ltac:(left)). unfold default_route in Hd.
      destruct (route_tables w !! rt) as [t|]; [eauto|discriminate]. }
    destruct Hrt as (t & Ht & Hr). cbn [for_each length] in *.
    erewrite bind_eq_Ok;
      [|apply (update_route_table_served g rt w t);
        [apply Hf; lia | apply Hf; lia | exact Ht | exact Hg]].
    rewrite (insert_id (rt_Routes t)) by exact Hr.
    rewrite set_routes_id, insert_id by exact Ht.
    edestruct IH as (w' & Hrun & Hsame); [| | |exists w'; split; [exact Hrun|]].
    + intros rt' Hin. unfold default_route. cbn [route_tables set_route_tables].
      apply Hd. now right.
    + exact Hg.
    + intros k Hk. cbn [faults set_route_tables log trace] in *.
      rewrite !length_app in Hk. cbn [length] in Hk. apply Hf. lia.
    + now rewrite Hsame.
Qed.

(** X11: converging is idempotent.  After [update_route_tables] returned
    for a gateway, another run for the same gateway, its calls served,
    returns as well and leaves every route table and every gateway exactly as
    the first run left them. *)
Theorem route_convergence_idempotent (g : string) (w w1 : world) :
  update_route_tables g w = (Ok tt, w1) ->
  (forall k, (length (trace w1) <= k
              < length (trace w1) + 1 + 2 * length (on_demand_ids w1))%nat ->
             faults w1 k = None) ->
  exists w2,
    update_route_tables g w1 = (Ok tt, w2)
    /\ route_tables w2 = route_tables w1
    /\ nat_gateways w2 = nat_gateways w1
    /\ new_calls w1 w2 = converge_calls g (on_demand_ids w1).
Proof.
  intros H1 Hf.
  destruct (dro_update g w) as [Hgw Hfr]. rewrite H1 in Hgw, Hfr. cbn [snd] in *.
  assert (Hvisited : forall rt, rt ∈ on_demand_ids w1 -> rt ∈ on_demand_ids w).
  { intros rt (t1 & Ht1 & Htag)%on_demand_ids_elem. apply on_demand_ids_elem.
    specialize (Hfr rt). rewrite Ht1 in Hfr.
    destruct (route_tables w !! rt) as [t|]; [|contradiction].
    exists t. split; [reflexivity|]. destruct Hfr as [Htags _].
    unfold on_demand_table in *. now rewrite <- Htags. }
  assert (Hd : forall rt, rt ∈ on_demand_ids w1 -> default_route w1 rt = Some g).
  { intros rt Hin. apply Hvisited in Hin.
    apply on_demand_ids_elem in Hin as (t & Ht & Htag).
    eapply update_route_tables_Ok; eauto. }
  rewrite update_route_tables_eq, Hf by lia.
  destruct (on_demand_ids w1) as [|rt l] eqn:El.
  { eexists. split; [reflexivity|]. cbn. repeat split.
    now apply new_calls_app. }
  assert (Hg : is_Some (nat_gateways w1 !! g)).
  { rewrite Hgw. eapply (update_route_tables_Ok_gateway g w w1 rt); [exact H1|].
    apply Hvisited. left. }
  destruct (for_each_update_stable g (rt :: l)
              (log (DescribeRouteTables ["Yes"; "True"]) w1))
    as (w2 & Hrun & Hsame).
  - intros rt' Hin. now apply Hd.
  - exact Hg.
  - intros k Hk. rewrite trace_log in Hk. cbn [faults log]. apply Hf. lia.
  - exists w2. split; [exact Hrun|]. split; [exact Hsame|].
    destruct (for_each_update_served g (rt :: l)
                (log (DescribeRouteTables ["Yes"; "True"]) w1))
      as (w2' & Hrun' & Htr & Hgw2).
    + intros rt' Hin. specialize (Hd rt' Hin). unfold default_route in Hd.
      cbn [route_tables log]. destruct (route_tables w1 !! rt'); [eauto|discriminate].
    + exact Hg.
    + intros k Hk. rewrite trace_log in Hk. cbn [faults log]. apply Hf. lia.
    + rewrite Hrun in Hrun'. injection Hrun' as <-.
      split; [exact Hgw2|]. apply new_calls_app. rewrite Htr. cbn.
      now rewrite <- app_assoc.
Qed.

(** *** The event is read after the work is done *)

Lemma job_success_Ok job w w' :
  cp_put_job_success_result job w = (Ok tt, w') ->
  w' = log (PutJobSuccessResult job) w.
Proof.
  unfold cp_put_job_success_result. intros [_ H]%request_Ok.
  destruct (validate_str "jobId" job) as [[]|]; [|discriminate].
  now injection H as <-.
Qed.

Lemma invoke_lambda_trace body w :
  trace (invoke_lambda body w).2 = trace w ++ [LambdaInvoke "afipApi" "Event" body].
Proof.
  unfold invoke_lambda, lambda_invoke, request. now repeat case_match.
Qed.

Lemma invoke_lambda_frame body w :
  nat_gateways (invoke_lambda body w).2 = nat_gateways w
  /\ route_tables (invoke_lambda body w).2 = route_tables w.
Proof.
  unfold invoke_lambda, lambda_invoke, request. now repeat case_match.
Qed.

Lemma job_failure_frame job t m w :
  nat_gateways (cp_put_job_failure_result job t m w).2 = nat_gateways w
  /\ route_tables (cp_put_job_failure_result job t m w).2 = route_tables w.
Proof.
  unfold cp_put_job_failure_result, request. now repeat case_match.
Qed.

(** The handler once the gateway is ensured and the job told of it. *)
Lemma handler_after_success ev w info w1 job w2 :
  request_gateway_ensure w = (Ok info, w1) ->
  event_job_id ev = Ok job ->
  cp_put_job_success_result job w1 = (Ok tt, w2) ->
  request_gateway_handler ev w
  = match event_body ev with
    | Err e => request_gateway_except ev e w2
    | Ok body =>
        match invoke_lambda body w2 with
        | (Ok _, w3) => (Ok (JDict info), w3)
        | (Err e, w3) => request_gateway_except ev e w3
        end
    end.
Proof.
  intros He Hj Hs.
  unfold request_gateway_handler, try_except, request_gateway_try.
  unfold bind at 1. rewrite He. unfold request_gateway_finish.
  rewrite (event_job_id_mem _ _ Hj), Hj.
  unfold bind at 1 2, lift at 1. rewrite Hs.
  unfold bind at 1, lift. destruct (event_body ev) as [body|e]; [|reflexivity].
  unfold bind, ret. now destruct (invoke_lambda body w2) as [[[]|e] w3].
Qed.

(** X12: the event is read only after the gateway is ensured and the job
    told of the success.  When the event has a job but no body to pass on (no
    [Records], an empty list, no [body]), the handler has reported success to
    the job, then reports failure to the same job with the message of the
    lookup error, and ends in an exception; the downstream function is not
    invoked, and what the first phase did to gateways and routes stays.  When
    the invocation itself fails, failure is reported after success in the
    same way. *)
Theorem success_then_failure_reported
    (ev : list (string * json)) (w : world) (info : list (string * json))
    (w1 : world) (job : json) (w2 : world) :
  request_gateway_ensure w = (Ok info, w1) ->
  event_job_id ev = Ok job ->
  cp_put_job_success_result job w1 = (Ok tt, w2) ->
  (forall e,
      event_body ev = Err e ->
      new_calls w1 (request_gateway_handler ev w).2
      = [PutJobSuccessResult job; PutJobFailureResult job "JobFailed" (str_exn e)]
      /\ is_Err (request_gateway_handler ev w).1
      /\ nat_gateways (request_gateway_handler ev w).2 = nat_gateways w1
      /\ route_tables (request_gateway_handler ev w).2 = route_tables w1)
  /\ (forall body e w3,
         event_body ev = Ok body ->
         invoke_lambda body w2 = (Err e, w3) ->
         new_calls w1 (request_gateway_handler ev w).2
         = [PutJobSuccessResult job; LambdaInvoke "afipApi" "Event" body;
            PutJobFailureResult job "JobFailed" (str_exn e)]
         /\ is_Err (request_gateway_handler ev w).1).
Proof.
  intros He Hj Hs. rewrite (handler_after_success _ _ _ _ _ _ He Hj Hs).
  pose proof (job_success_Ok _ _ _ Hs) as ->. split.
  - intros e ->. rewrite (except_job _ _ _ _ Hj).
    pose proof (job_failure_trace job "JobFailed" (str_exn e)
                  (log (PutJobSuccessResult job) w1)) as Ht.
    pose proof (job_failure_frame job "JobFailed" (str_exn e)
                  (log (PutJobSuccessResult job) w1)) as [Hg Hr].
    destruct (cp_put_job_failure_result job "JobFailed" (str_exn e) _)
      as [[[]|e'] w3]; cbn [fst snd] in *;
      (split; [apply new_calls_app; rewrite Ht; cbn; now rewrite <- app_assoc|]);
      (split; [exact I|]); now split.
  - intros body e w3 -> Hi. rewrite Hi, (except_job _ _ _ _ Hj).
    pose proof (invoke_lambda_trace body (log (PutJobSuccessResult job) w1)) as Hti.
    rewrite Hi in Hti. cbn [snd] in Hti.
    pose proof (job_failure_trace job "JobFailed" (str_exn e) w3) as Ht.
    destruct (cp_put_job_failure_result job "JobFailed" (str_exn e) w3)
      as [[[]|e'] w4]; cbn [fst snd] in *;
      (split; [apply new_calls_app; rewrite Ht, Hti; cbn; now rewrite <- !app_assoc
              |exact I]).
Qed.

(** *** The downstream notification *)

Lemma ensure_no_lambda : steps (calls_in no_lambda) request_gateway_ensure.
Proof.
  unfold request_gateway_ensure, list_nat_gateways, create_nat_gateway,
    update_route_tables, update_route_table, ignore_route_not_found,
    touch_gateway.
  ci.
Qed.

Lemma invoke_lambda_Ok body w w' :
  invoke_lambda body w = (Ok tt, w') ->
  exists payload,
    body = JStr payload /\ w' = log (LambdaInvoke "afipApi" "Event" body) w.
Proof.
  unfold invoke_lambda, lambda_invoke. intros [_ H]%request_Ok.
  destruct body; try discriminate. injection H as <-. eauto.
Qed.

Lemma finish_Ok_calls ev info w out w' :
  request_gateway_finish ev info w = (Ok out, w') ->
  exists payload pre,
    event_body ev = Ok (JStr payload)
    /\ out = JDict info
    /\ trace w' = trace w ++ pre ++ [LambdaInvoke "afipApi" "Event" (JStr payload)]
    /\ forallb no_lambda pre = true.
Proof.
  unfold request_gateway_finish. intros H.
  apply bind_Ok in H as ([] & w1 & Hj & H).
  apply bind_Ok in H as (body & w2 & Hb & H).
  unfold lift in Hb. injection Hb as Hb <-.
  apply bind_Ok in H as ([] & w3 & Hi & H). injection H as <- <-.
  apply invoke_lambda_Ok in Hi as (payload & -> & ->).
  exists payload.
  destruct (dict_mem "CodePipeline.job" ev).
  - apply bind_Ok in Hj as (job & w0 & Hid & Hs).
    unfold lift in Hid. injection Hid as Hid <-.
    apply job_success_Ok in Hs as ->. exists [PutJobSuccessResult job].
    repeat split; [exact Hb|]. cbn. now rewrite <- app_assoc.
  - injection Hj as <-. exists []. repeat split. exact Hb.
Qed.

(** X13: a run of either entry point that returns has invoked the
    downstream function [afipApi] exactly once, asynchronously, as its last
    call, with the body of the first record of the event, which is a string;
    the check flow that finds no gateway is the exception: it returns without
    reading the event and without the invocation. *)
Theorem success_notifies_downstream_once
    (unc : string -> result ((Z * Z * Z) * nat)) (ev : list (string * json))
    (w : world) (out : json) (w' : world) :
  (request_gateway_handler ev w = (Ok out, w') ->
   exists payload pre,
     event_body ev = Ok (JStr payload)
     /\ new_calls w w' = pre ++ [LambdaInvoke "afipApi" "Event" (JStr payload)]
     /\ forallb no_lambda pre = true)
  /\ (check_gateway_required unc ev w = (Ok out, w') ->
      (out = JNull /\ forallb no_lambda (new_calls w w') = true)
      \/ exists payload pre,
           event_body ev = Ok (JStr payload)
           /\ new_calls w w' = pre ++ [LambdaInvoke "afipApi" "Event" (JStr payload)]
           /\ forallb no_lambda pre = true).
Proof.
  split.
  - intros H. apply try_except_Ok in H; [|apply except_is_Err].
    apply bind_Ok in H as (info & w1 & He & Hf).
    pose proof (ensure_no_lambda w) as (l1 & T1 & F1). rewrite He in T1. cbn in T1.
    apply finish_Ok_calls in Hf as (payload & pre & Hb & _ & T2 & F2).
    exists payload, (l1 ++ pre). split; [exact Hb|]. split.
    + apply new_calls_app. rewrite T2, T1. now rewrite <- !app_assoc.
    + now rewrite forallb_app, F1, F2.
  - intros H. destruct (list_nat_gateways w) as [[[l|]|e] w0] eqn:Hl.
    + right.
      destruct (check_Ok _ _ _ _ _ _ _ Hl H)
        as (rs & payload & _ & _ & _ & Hb & Htr & _).
      apply list_nat_gateways_Some in Hl as (vpc & _ & _ & _ & _ & ->).
      exists payload,
        (DescribeNatGateways ["pending"; "available"] vpc
         :: (DeleteNatGateway <$> deleted_ids rs)).
      split; [exact Hb|]. split.
      * apply new_calls_app. rewrite Htr. cbn. now rewrite <- !app_assoc.
      * cbn. clear. induction (deleted_ids rs); [reflexivity|exact IHl].
    + left. unfold check_gateway_required, bind in H. rewrite Hl in H.
      injection H as <- <-.
      apply list_nat_gateways_None in Hl as (vpc & _ & _ & _ & ->).
      split; [reflexivity|].
      now rewrite (new_calls_app w _ [DescribeNatGateways ["pending"; "available"] vpc]).
    + unfold check_gateway_required, bind in H. rewrite Hl in H. discriminate.
Qed.

(** *** A last-requested tag the check flow cannot use *)

Lemma compute_inactivity_gateways unc g w :
  nat_gateways (compute_inactivity unc g w).2 = nat_gateways w.
Proof.
  destruct (rp_compute unc g w) as [_ Hg].
  pose proof (compute_inactivity_trace unc g w) as Ht.
  apply map_eq. intros id. destruct (Hg id) as [E|(gw & _ & _ & Hin)]; [exact E|].
  unfold new_calls in Hin. rewrite Ht, drop_all in Hin. now apply elem_of_nil in Hin.
Qed.

Lemma check_gateway_Err unc g w e w1 :
  compute_inactivity unc g w = (Err e, w1) ->
  check_gateway unc g w = (Err e, w1)
  /\ trace w1 = trace w /\ nat_gateways w1 = nat_gateways w.
Proof.
  intros H. rewrite check_gateway_eq, H. split; [reflexivity|].
  pose proof (compute_inactivity_trace unc g w) as Ht.
  pose proof (compute_inactivity_gateways unc g w) as Hg.
  rewrite H in Ht, Hg. now split.
Qed.

(** X14: a [LastRequested] tag that [isoparse] rejects, or that it reads as
    a time with a UTC offset (such as a trailing [Z]), stops the check of the
    gateway with an exception: no delete request is made and the gateway is
    left as it is.  In the second case the exception is the [TypeError] of
    subtracting an aware time from the naive [utcnow()], unless the age could
    not be computed in the first place. *)
Theorem unusable_last_requested_tag
    (unc : string -> result ((Z * Z * Z) * nat)) (id st : string)
    (created : datetime) (s : string) (w : world) :
  (forall e,
      isoparse unc s = Err e ->
      is_Err (check_gateway unc (id, st, created, Some s) w).1
      /\ trace (check_gateway unc (id, st, created, Some s) w).2 = trace w
      /\ nat_gateways (check_gateway unc (id, st, created, Some s) w).2
         = nat_gateways w)
  /\ (forall parsed,
         isoparse unc s = Ok parsed -> tzinfo parsed <> None ->
         is_Err (check_gateway unc (id, st, created, Some s) w).1
         /\ trace (check_gateway unc (id, st, created, Some s) w).2 = trace w
         /\ nat_gateways (check_gateway unc (id, st, created, Some s) w).2
            = nat_gateways w
         /\ forall now w1 age,
              datetime_now (tzinfo created) w = (Ok now, w1) ->
              datetime_sub now created = Ok age ->
              (check_gateway unc (id, st, created, Some s) w).1
              = Err (TypeError
                       "can't subtract offset-naive and offset-aware datetimes")).
Proof.
  assert (Hgen : forall e w1,
             compute_inactivity unc (id, st, created, Some s) w = (Err e, w1) ->
             is_Err (check_gateway unc (id, st, created, Some s) w).1
             /\ trace (check_gateway unc (id, st, created, Some s) w).2 = trace w
             /\ nat_gateways (check_gateway unc (id, st, created, Some s) w).2
                = nat_gateways w).
  { intros e w1 H. destruct (check_gateway_Err _ _ _ _ _ H) as (-> & Ht & Hg).
    now repeat split. }
  split.
  - intros e He.
    destruct (compute_inactivity unc (id, st, created, Some s) w) as [[ai|e'] w1] eqn:Hc;
      [|eapply Hgen; eauto].
    rewrite compute_inactivity_tag, He in Hc.
    destruct (datetime_now (tzinfo created) w) as [[now|?] ?]; [|discriminate].
    destruct (datetime_sub now created); discriminate.
  - intros parsed Hp Htz.
    assert (Hsub : forall a, datetime_sub (replace_tzinfo a None) parsed
                             = Err (TypeError
                                      "can't subtract offset-naive and offset-aware datetimes")).
    { intros a. unfold datetime_sub. cbn [tzinfo replace_tzinfo].
      destruct (tzinfo parsed); [reflexivity|contradiction]. }
    destruct (compute_inactivity unc (id, st, created, Some s) w) as [[ai|e'] w1] eqn:Hc.
    { rewrite compute_inactivity_tag, Hp in Hc.
      destruct (datetime_now (tzinfo created) w) as [[now|?] w2]; [|discriminate].
      destruct (datetime_sub now created); [|discriminate].
      cbv zeta in Hc. unfold utcnow_at in Hc. rewrite Hsub in Hc. discriminate. }
    destruct (Hgen _ _ eq_refl) as (H1 & H2 & H3).
    split; [exact H1|]. split; [exact H2|]. split; [exact H3|].
    intros now w2 age Hn Ha. rewrite check_gateway_eq, Hc. cbn [fst].
    rewrite compute_inactivity_tag, Hn, Ha, Hp in Hc. cbv zeta in Hc.
    unfold utcnow_at in Hc. rewrite Hsub in Hc. now injection Hc as <- _.
Qed.

(** *** A refresh keeps a gateway for 45 minutes *)

Lemma datetime_sub_naive a b :
  tzinfo a = None -> tzinfo b = None -> datetime_sub a b = Ok (wall_us a - wall_us b).
Proof. intros Ha Hb. unfold datetime_sub. now rewrite Ha, Hb. Qed.

Lemma compute_inactivity_refreshed unc id st created w0 k w now w1 age :
  valid_datetime (clock w0 k) = true ->
  datetime_now (tzinfo created) w = (Ok now, w1) ->
  datetime_sub now created = Ok age ->
  compute_inactivity unc (id, st, created, Some (str_datetime (utcnow_at w0 k))) w
  = (Ok (age, wall_us (utcnow_at w (S (ticks w))) - wall_us (utcnow_at w0 k)),
     set_ticks (S (S (ticks w))) w).
Proof.
  intros Hv Hn Ha. rewrite compute_inactivity_tag.
  pose proof (datetime_now_world (tzinfo created) w) as Hw.
  rewrite Hn in *. cbn [snd] in Hw. subst w1. rewrite Ha. cbv zeta.
  rewrite isoparse_utcnow by exact Hv.
  change (utcnow_at (set_ticks (S (ticks w)) w) (ticks (set_ticks (S (ticks w)) w)))
    with (utcnow_at w (S (ticks w))).
  now rewrite datetime_sub_naive by reflexivity.
Qed.

(** X15: a refresh protects a gateway for 45 minutes.  After
    [request_gateway_handler] has refreshed a gateway, at a reading [t0] of
    the clock, a check of that gateway (its tag not rewritten since) computes
    as inactivity the time elapsed between [t0] and its own reading of
    [utcnow()], whatever the creation time; it leaves the gateway alone and
    records it as skipped when less than 45 minutes have elapsed, and makes
    the delete request for it otherwise. *)
Theorem refresh_protects_for_45_minutes
    (unc : string -> result ((Z * Z * Z) * nat)) (g : inventory_entry)
    (w w1 w2 : world) (gw : nat_gateway) (now : datetime) (w3 : world)
    (age : timedelta) :
  valid_datetime (clock w (ticks w)) = true ->
  touch_gateway g w = (Ok tt, w1) ->
  nat_gateways w2 !! g.1.1.1 = Some gw ->
  last_requested w2 g.1.1.1 = last_requested w1 g.1.1.1 ->
  datetime_now (tzinfo (gw_CreateTime gw)) w2 = (Ok now, w3) ->
  datetime_sub now (gw_CreateTime gw) = Ok age ->
  compute_inactivity unc (project_gateway (g.1.1.1, gw)) w2
  = (Ok (age, wall_us (utcnow_at w2 (S (ticks w2))) - wall_us (utcnow_at w (ticks w))),
     set_ticks (S (S (ticks w2))) w2)
  /\ (wall_us (utcnow_at w2 (S (ticks w2))) - wall_us (utcnow_at w (ticks w))
      < timedelta_minutes 45 ->
      check_gateway unc (project_gateway (g.1.1.1, gw)) w2
      = (Ok (action_record "skipped" g.1.1.1 age
               (wall_us (utcnow_at w2 (S (ticks w2))) - wall_us (utcnow_at w (ticks w)))),
         set_ticks (S (S (ticks w2))) w2))
  /\ (timedelta_minutes 45
      <= wall_us (utcnow_at w2 (S (ticks w2))) - wall_us (utcnow_at w (ticks w)) ->
      new_calls w2 (check_gateway unc (project_gateway (g.1.1.1, gw)) w2).2
      = [DeleteNatGateway g.1.1.1]).
Proof.
  intros Hv Ht Hgw Hlr Hn Ha.
  apply touch_gateway_Ok in Ht as (Htag & _).
  assert (Hc : compute_inactivity unc (project_gateway (g.1.1.1, gw)) w2
               = (Ok (age, wall_us (utcnow_at w2 (S (ticks w2)))
                           - wall_us (utcnow_at w (ticks w))),
                  set_ticks (S (S (ticks w2))) w2)).
  { unfold project_gateway. cbn [fst snd].
    unfold last_requested in Hlr at 1. rewrite Hgw, Htag in Hlr. rewrite Hlr.
    now apply (compute_inactivity_refreshed unc _ _ _ w (ticks w) w2 now w3). }
  split; [exact Hc|]. split.
  - intros Hlt. rewrite check_gateway_eq, Hc. now apply reap_skipped.
  - intros Hge. rewrite check_gateway_eq, Hc. rewrite reap_deleted by exact Hge.
    pose proof (delete_nat_gateway_trace (project_gateway (g.1.1.1, gw)).1.1.1
                  (set_ticks (S (S (ticks w2))) w2)) as Hd.
    destruct (ec2_delete_nat_gateway _ _) as [[[]|e] w4]; cbn [fst snd] in *;
      now apply new_calls_app.
Qed.

(** X24: provisioning protects the new gateway for 45 minutes as a refresh
    does.  The [LastRequested] tag [create_nat_gateway] writes holds its
    reading [t0] of the clock, taken after the create call and before the
    wait; a check of the new gateway (its tag not rewritten since) computes
    as inactivity the time elapsed between [t0] and its own reading of
    [utcnow()], skips the gateway below 45 minutes and makes the delete
    request for it otherwise. *)
Theorem provisioning_protects_for_45_minutes
    (unc : string -> result ((Z * Z * Z) * nat)) (id : string)
    (w w1 w2 : world) (gw : nat_gateway) (now : datetime) (w3 : world)
    (age : timedelta) :
  valid_datetime (clock w (ticks w)) = true ->
  create_nat_gateway w = (Ok id, w1) ->
  nat_gateways w2 !! id = Some gw ->
  last_requested w2 id = last_requested w1 id ->
  datetime_now (tzinfo (gw_CreateTime gw)) w2 = (Ok now, w3) ->
  datetime_sub now (gw_CreateTime gw) = Ok age ->
  compute_inactivity unc (project_gateway (id, gw)) w2
  = (Ok (age, wall_us (utcnow_at w2 (S (ticks w2))) - wall_us (utcnow_at w (ticks w))),
     set_ticks (S (S (ticks w2))) w2)
  /\ (wall_us (utcnow_at w2 (S (ticks w2))) - wall_us (utcnow_at w (ticks w))
      < timedelta_minutes 45 ->
      check_gateway unc (project_gateway (id, gw)) w2
      = (Ok (action_record "skipped" id age
               (wall_us (utcnow_at w2 (S (ticks w2))) - wall_us (utcnow_at w (ticks w)))),
         set_ticks (S (S (ticks w2))) w2))
  /\ (timedelta_minutes 45
      <= wall_us (utcnow_at w2 (S (ticks w2))) - wall_us (utcnow_at w (ticks w)) ->
      new_calls w2 (check_gateway unc (project_gateway (id, gw)) w2).2
      = [DeleteNatGateway id]).
Proof.
  intros Hv Hc Hgw Hlr Hn Ha.
  apply create_nat_gateway_Ok in Hc.
  assert (Hi : compute_inactivity unc (project_gateway (id, gw)) w2
               = (Ok (age, wall_us (utcnow_at w2 (S (ticks w2)))
                           - wall_us (utcnow_at w (ticks w))),
                  set_ticks (S (S (ticks w2))) w2)).
  { unfold project_gateway. cbn [fst snd].
    unfold last_requested in Hlr at 1. rewrite Hgw, Hc in Hlr. rewrite Hlr.
    now apply (compute_inactivity_refreshed unc _ _ _ w (ticks w) w2 now w3). }
  split; [exact Hi|]. split.
  - intros Hlt. rewrite check_gateway_eq, Hi. now apply reap_skipped.
  - intros Hge. rewrite check_gateway_eq, Hi. rewrite reap_deleted by exact Hge.
    pose proof (delete_nat_gateway_trace (project_gateway (id, gw)).1.1.1
                  (set_ticks (S (S (ticks w2))) w2)) as Hd.
    destruct (ec2_delete_nat_gateway _ _) as [[[]|e] w4]; cbn [fst snd] in *;
      now apply new_calls_app.
Qed.

(** *** A request after a provisioning request *)

Lemma NoDup_map_inj {A} (f : A -> string) (l : list A) x y :
  NoDup (f <$> l) -> x ∈ l -> y ∈ l -> f x = f y -> x = y.
Proof.
  induction l as [|a l IH]; intros Hnd Hx Hy Hf; [now apply elem_of_nil in Hx|].
  cbn in Hnd. apply NoDup_cons in Hnd as [Hn Hnd].
  apply elem_of_cons in Hx as [->|Hx], Hy as [->|Hy]; auto.
  - exfalso. apply Hn. rewrite Hf. apply list_elem_of_fmap. eauto.
  - exfalso. apply Hn. rewrite <- Hf. apply list_elem_of_fmap. eauto.
Qed.

Lemma handler_keeps_routes_touch ev w l w0 :
  list_nat_gateways w = (Ok (Some l), w0) ->
  keeps_routes w (request_gateway_handler ev w).2.
Proof.
  intros Hl. rewrite (handler_touch_eq _ _ _ _ Hl).
  pose proof (kr_list_nat_gateways w) as H0. rewrite Hl in H0. cbn [snd] in H0.
  apply (keeps_routes_trans _ _ _ H0).
  assert (Hs : routes_kept
                 (try_except
                    (bind (bind (for_each l touch_gateway)
                             (fun _ => ret [("statusCode", JNum 200);
                                            ("nat-existing", JBool true)]))
                       (request_gateway_finish ev))
                    (request_gateway_except ev))).
  { apply (steps_try_except _ keeps_routes_trans); [|apply kr_except].
    apply (steps_bind _ keeps_routes_trans); [|apply kr_finish].
    apply (steps_bind _ keeps_routes_trans); [apply kr_for_each_touch|kr]. }
  apply Hs.
Qed.

Lemma handler_list_Err ev w e w0 :
  list_nat_gateways w = (Err e, w0) ->
  request_gateway_handler ev w = request_gateway_except ev e w0.
Proof.
  intros Hl. apply handler_of_try_Err.
  unfold request_gateway_try, request_gateway_ensure. unfold bind at 1 2.
  now rewrite Hl.
Qed.

Lemma except_no_create ev e : steps (calls_in no_create_gateway) (request_gateway_except ev e).
Proof. unfold request_gateway_except. ci. Qed.

Lemma list_no_create : steps (calls_in no_create_gateway) list_nat_gateways.
Proof. unfold list_nat_gateways. ci. Qed.

(** A request over a world whose inventory is not empty. *)
Lemma handler_reuses ev w vpc id :
  environ w !! "VPC_ID" = Some vpc ->
  id ∈ entry_ids (inventory w vpc) ->
  forallb no_create_gateway (new_calls w (request_gateway_handler ev w).2) = true
  /\ keeps_routes w (request_gateway_handler ev w).2
  /\ forall out w',
       request_gateway_handler ev w = (Ok out, w') ->
       out = JDict [("statusCode", JNum 200); ("nat-existing", JBool true)]
       /\ refreshed_between w w' id.
Proof.
  intros Hv Hin.
  destruct (list_nat_gateways w) as [[[l|]|e] w0] eqn:Hl.
  - split; [|split].
    + apply calls_in_new_calls.
      now destruct (ro_handler_touch ev w l w0 Hl) as (_ & _ & _ & _ & Hc).
    + eapply handler_keeps_routes_touch; eauto.
    + intros out w' H.
      destruct (handler_touch_Ok _ _ _ _ _ _ Hl H) as [Ho Hr]. split; [exact Ho|].
      apply list_nat_gateways_Some in Hl as (vpc' & Hv' & _ & <- & _).
      assert (vpc' = vpc) as -> by congruence.
      apply list_elem_of_fmap in Hin as (g & -> & Hin). now apply Hr.
  - apply list_nat_gateways_None in Hl as (vpc' & Hv' & _ & Hi & _).
    assert (vpc' = vpc) as -> by congruence. rewrite Hi in Hin.
    now apply elem_of_nil in Hin.
  - rewrite (handler_list_Err _ _ _ _ Hl). split; [|split].
    + apply calls_in_new_calls. eapply calls_in_trans; [|apply except_no_create].
      pose proof (list_no_create w) as H0. now rewrite Hl in H0.
    + eapply keeps_routes_trans; [|apply kr_except].
      pose proof (kr_list_nat_gateways w) as H0. now rewrite Hl in H0.
    + intros out w' H. pose proof (except_is_Err ev e w0) as He.
      rewrite H in He. contradiction.
Qed.

Lemma env_handler ev :
  steps (fun w w' => environ w' = environ w) (request_gateway_handler ev).
Proof.
  unfold request_gateway_handler, request_gateway_try, request_gateway_except,
    request_gateway_ensure, request_gateway_finish, list_nat_gateways,
    create_nat_gateway, update_route_tables, update_route_table,
    ignore_route_not_found, touch_gateway, invoke_lambda.
  solve_steps (fun w : world => eq_refl (environ w))
    (fun (w1 w2 w3 : world) (H1 : environ w2 = environ w1)
         (H2 : environ w3 = environ w2) => eq_trans H2 H1)
    ltac:(idtac; reflexivity).
Qed.

Lemma entry_ids_intro w vpc id g :
  nat_gateways w !! id = Some g ->
  gateway_matches ["pending"; "available"] vpc (id, g) = true ->
  id ∈ entry_ids (inventory w vpc).
Proof.
  intros Hg Hm. destruct (proj2 (inventory_elem w vpc id)) as (e & Hin & <-); [eauto|].
  apply list_elem_of_fmap. eauto.
Qed.

(** X16: a gateway provisioned by a request is found by the next one.
    After a request over an empty inventory has returned (subnet identities
    being unique), the gateway it created is listed by the inventory query;
    the next request creates no gateway and changes no route, and when it
    returns it reports [nat-existing] and has refreshed the tag of that
    gateway. *)
Theorem provisioned_gateway_is_reused
    (ev ev2 : list (string * json)) (w w0 : world) (out : json) (w' : world) :
  list_nat_gateways w = (Ok None, w0) ->
  request_gateway_handler ev w = (Ok out, w') ->
  NoDup (sn_SubnetId <$> subnets w) ->
  exists id vpc,
    environ w' !! "VPC_ID" = Some vpc
    /\ nat_gateways w !! id = None
    /\ id ∈ entry_ids (inventory w' vpc)
    /\ forallb no_create_gateway
         (new_calls w' (request_gateway_handler ev2 w').2) = true
    /\ keeps_routes w' (request_gateway_handler ev2 w').2
    /\ forall out2 w2,
         request_gateway_handler ev2 w' = (Ok out2, w2) ->
         out2 = JDict [("statusCode", JNum 200); ("nat-existing", JBool true)]
         /\ refreshed_between w' w2 id.
Proof.
  intros Hl H Hnd.
  pose proof (handler_after_create ev w w0 Hl) as Hgw. rewrite H in Hgw. cbn [snd] in Hgw.
  destruct (handler_provision_Ok _ _ _ _ _ Hl H) as (_ & id & w1 & Hc & Hfresh & _).
  rewrite Hc in Hgw. cbn [snd] in Hgw.
  destruct (create_nat_gateway_inv _ _ _ Hc)
    as (name & vpc & alloc & sn & s & _ & Hv & _ & Hsn & Hhead & _ & Hg1 & _).
  pose proof (list_nat_gateways_None _ _ Hl) as (vpc' & Hv' & _ & _ & ->).
  cbn [environ subnets nat_gateways log] in *.
  assert (vpc' = vpc) as -> by congruence.
  assert (Henv : environ w' = environ w).
  { pose proof (env_handler ev w) as He. now rewrite H in He. }
  exists id, vpc. split; [now rewrite Henv|]. split; [exact Hfresh|].
  assert (Hlisted : id ∈ entry_ids (inventory w' vpc)).
  { eapply entry_ids_intro.
    - rewrite Hgw, Hg1. apply lookup_insert_eq.
    - unfold gateway_matches. cbn.
      apply list_elem_of_fmap in Hsn as (s' & -> & Hs').
      apply list_elem_of_filter in Hs' as [Hm Hs'].
      assert (Hs : s ∈ filter (fun s0 => sn_SubnetId s0 = sn_SubnetId s') (subnets w)).
      { destruct (filter _ (subnets w)); [discriminate|]. injection Hhead as ->. left. }
      apply list_elem_of_filter in Hs as [Hid Hs].
      assert (s = s') as -> by (eapply NoDup_map_inj; eauto).
      unfold subnet_matches in Hm. now apply andb_true_iff in Hm as [_ ->]. }
  split; [exact Hlisted|].
  apply (handler_reuses ev2 w' vpc id); [now rewrite Henv | exact Hlisted].
Qed.

(** *** A provisioning that fails half-way *)

(** What a failed [create_nat_gateway] leaves behind: nothing, or the
    pending gateway it created before it failed. *)
Lemma create_nat_gateway_Err_shape w e w1 :
  create_nat_gateway w = (Err e, w1) ->
  nat_gateways w1 = nat_gateways w
  \/ exists vpc sn s tags,
       environ w !! "VPC_ID" = Some vpc
       /\ sn ∈ public_subnet_ids w vpc
       /\ head (filter (fun s => sn_SubnetId s = sn) (subnets w)) = Some s
       /\ nat_gateways w1
          = <[fresh_string "nat-" (nat_gateways w)
              := mk_nat_gateway "pending" (sn_VpcId s)
                   (replace_tzinfo (clock w (ticks w)) (Some 0)) tags]>
              (nat_gateways w).
Proof.
  unfold create_nat_gateway. intros H.
  apply bind_Err in H as [H | (name & w1' & H1 & H)].
  { left. unfold os_environ in H. case_match; now simplify_eq. }
  apply os_environ_Ok in H1 as [_ ->].
  apply bind_Err in H as [H | (alloc & w2 & H2 & H)].
  { left. unfold ec2_describe_addresses, request in H. case_match; now simplify_eq. }
  apply describe_addresses_Ok in H2 as (_ & -> & ->).
  apply bind_Err in H as [H | (vpc & w3 & H3 & H)].
  { left. unfold os_environ in H. case_match; now simplify_eq. }
  apply os_environ_Ok in H3 as [Hv ->].
  apply bind_Err in H as [H | (sns & w4 & H4 & H)].
  { left. unfold ec2_describe_subnets, request in H. case_match; now simplify_eq. }
  apply describe_subnets_Ok in H4 as (_ & -> & ->).
  apply bind_Err in H as [H | (sn & w5 & H5 & H)].
  { left. unfold random_choice in H. case_match; now simplify_eq. }
  apply random_choice_Ok in H5 as [Hsn ->].
  apply bind_Err in H as [H | (g & w6 & H6 & H)].
  { left. now rewrite (create_fails _ _ _ _ _ H). }
  apply ec2_create_nat_gateway_inv in H6 as (a & s & _ & _ & _ & Hs & Hid & ->).
  cbn [nat_gateways subnets set_draws log] in Hid, Hs. subst g.
  right. exists vpc, sn, s.
  apply bind_Err in H as [H | (now & w7 & H7 & H)]; [discriminate|].
  injection H7 as <- <-.
  apply bind_Err in H as [H | (name' & w8 & H8 & H)].
  { exists ∅. repeat split; try assumption.
    unfold os_environ in H. case_match; now simplify_eq. }
  apply os_environ_Ok in H8 as [_ ->].
  apply bind_Err in H as [H | ([] & w9 & H9 & H)].
  { exists ∅. repeat split; try assumption.
    now rewrite (create_tags_fails _ _ _ _ _ H). }
  apply create_tags_inv in H9 as (_ & _ & ->).
  apply bind_Err in H as [H | ([] & w10 & H10 & H)]; [|discriminate].
  eexists. repeat split; try assumption.
  rewrite (wait_fails _ _ _ _ H). cbn [nat_gateways set_nat_gateways set_ticks].
  rewrite alter_insert_eq. reflexivity.
Qed.

(** X17: provisioning is not undone when it fails half-way.  When
    [create_nat_gateway] fails after the provider has created the gateway
    (the tagging or the wait fails), the request flow ends in the exception
    with the gateway still there, no delete request made and no route
    changed; the inventory query lists that gateway (subnet identities
    being unique), so the next request creates no gateway and changes no
    route either: the request flow never routes to it. *)
Theorem failed_provisioning_leaves_gateway
    (ev ev2 : list (string * json)) (w w0 : world) (e : exn) (w1 : world)
    (id : string) (gw : nat_gateway) :
  list_nat_gateways w = (Ok None, w0) ->
  NoDup (sn_SubnetId <$> subnets w) ->
  create_nat_gateway w0 = (Err e, w1) ->
  nat_gateways w !! id = None ->
  nat_gateways w1 !! id = Some gw ->
  is_Err (request_gateway_handler ev w).1
  /\ nat_gateways (request_gateway_handler ev w).2 !! id = Some gw
  /\ gw_State gw ∈ ["pending"; "available"]
  /\ route_tables (request_gateway_handler ev w).2 = route_tables w
  /\ forallb no_delete_gateway
       (new_calls w (request_gateway_handler ev w).2) = true
  /\ forallb no_create_gateway
       (new_calls (request_gateway_handler ev w).2
          (request_gateway_handler ev2 (request_gateway_handler ev w).2).2) = true
  /\ keeps_routes (request_gateway_handler ev w).2
       (request_gateway_handler ev2 (request_gateway_handler ev w).2).2.
Proof.
  intros Hl Hnd Hc Hnew Hgw.
  pose proof (handler_after_create ev w w0 Hl) as Hg'. rewrite Hc in Hg'. cbn [snd] in Hg'.
  pose proof (env_handler ev w) as Henv. cbn beta in Henv.
  assert (Hh : request_gateway_handler ev w = request_gateway_except ev e w1).
  { rewrite (handler_provision_eq _ _ _ Hl). unfold try_except.
    unfold bind at 1 2. now rewrite Hc. }
  pose proof (list_nat_gateways_None _ _ Hl) as (vpc & Hv & _ & _ & Hw0).
  assert (Hshape := create_nat_gateway_Err_shape _ _ _ Hc).
  rewrite Hw0 in Hshape. cbn [nat_gateways environ subnets log clock ticks] in Hshape.
  unfold public_subnet_ids in Hshape. cbn [subnets log] in Hshape.
  destruct Hshape as [Hsame|(vpc' & sn & s & tags & Hv' & Hsn & Hhead & Hins)].
  { rewrite Hsame in Hgw. congruence. }
  assert (vpc' = vpc) as -> by congruence.
  rewrite Hins in Hgw.
  destruct (decide (id = fresh_string "nat-" (nat_gateways w))) as [->|Hne];
    [|rewrite lookup_insert_ne in Hgw by congruence; congruence].
  rewrite lookup_insert_eq in Hgw. injection Hgw as <-.
  set (w' := (request_gateway_handler ev w).2) in *.
  assert (Hlook : nat_gateways w' !! fresh_string "nat-" (nat_gateways w)
                  = Some (mk_nat_gateway "pending" (sn_VpcId s)
                            (replace_tzinfo (clock w (ticks w)) (Some 0)) tags)).
  { rewrite Hg', Hins. apply lookup_insert_eq. }
  assert (Hlisted : fresh_string "nat-" (nat_gateways w) ∈ entry_ids (inventory w' vpc)).
  { eapply entry_ids_intro; [exact Hlook|].
    unfold gateway_matches. cbn.
    apply list_elem_of_fmap in Hsn as (s' & -> & Hs').
    apply list_elem_of_filter in Hs' as [Hm Hs'].
    assert (Hs : s ∈ filter (fun s0 => sn_SubnetId s0 = sn_SubnetId s') (subnets w)).
    { destruct (filter _ (subnets w)); [discriminate|]. injection Hhead as ->. left. }
    apply list_elem_of_filter in Hs as [Hid Hs].
    assert (s = s') as -> by (eapply NoDup_map_inj; eauto).
    unfold subnet_matches in Hm. now apply andb_true_iff in Hm as [_ ->]. }
  destruct (handler_reuses ev2 w' vpc _ ltac:(now rewrite Henv) Hlisted)
    as (Hnc & Hkr & _).
  split; [unfold w'; rewrite Hh; apply except_is_Err|].
  split; [exact Hlook|]. split; [left|]. split.
  - unfold w'. rewrite Hh.
    destruct (kr_except ev e w1) as [-> _].
    destruct (kr_create w0) as [Hr _]. rewrite Hc in Hr. cbn [snd] in Hr.
    rewrite Hr, Hw0. reflexivity.
  - split; [apply calls_in_new_calls, handler_no_delete|]. now split.
Qed.

(** *** The calls of a request over an inventory *)

Lemma touch_loop_calls base l w0 w1 :
  clock w0 = clock base ->
  for_each l touch_gateway w0 = (Ok tt, w1) ->
  trace w1 = trace w0 ++ refresh_calls base (ticks w0) l
  /\ ticks w1 = (ticks w0 + length l)%nat /\ clock w1 = clock base.
Proof.
  revert w0. induction l as [|g l IH]; intros w0 Hc H; cbn [for_each] in H.
  - injection H as <-. cbn. rewrite app_nil_r. repeat split; [lia|exact Hc].
  - apply bind_Ok in H as ([] & w' & Hg & Hl).
    pose proof (touch_gateway_Ok _ _ _ Hg) as (_ & Hn & Hk & Hc').
    destruct (IH w') as (Ht & Hk1 & Hc1); [congruence|exact Hl|].
    assert (Htr : trace w' = trace w0
                  ++ [CreateTags [g.1.1.1]
                        [("LastRequested", str_datetime (utcnow_at w0 (ticks w0)))]]).
    { destruct g as [[[id st] created] tag]. unfold touch_gateway in Hg.
      apply bind_Ok in Hg as (now & w2 & H1 & Hg). injection H1 as <- <-.
      now apply create_tags_inv in Hg as (_ & _ & ->). }
    repeat split; [|cbn [length]; lia|exact Hc1].
    rewrite Ht, Htr, Hk. cbn [refresh_calls]. rewrite <- app_assoc. cbn.
    unfold utcnow_at. now rewrite Hc.
Qed.

Lemma finish_Ok_report ev info w out w' :
  request_gateway_finish ev info w = (Ok out, w') ->
  exists payload report,
    event_body ev = Ok (JStr payload)
    /\ trace w' = trace w ++ report ++ [LambdaInvoke "afipApi" "Event" (JStr payload)]
    /\ ticks w' = ticks w
    /\ ((dict_mem "CodePipeline.job" ev = false /\ report = [])
        \/ exists job, event_job_id ev = Ok job /\ report = [PutJobSuccessResult job]).
Proof.
  unfold request_gateway_finish. intros H.
  apply bind_Ok in H as ([] & w1 & Hj & H).
  apply bind_Ok in H as (body & w2 & Hb & H).
  unfold lift in Hb. injection Hb as Hb <-.
  apply bind_Ok in H as ([] & w3 & Hi & H). injection H as <- <-.
  apply invoke_lambda_Ok in Hi as (payload & -> & ->).
  exists payload.
  destruct (dict_mem "CodePipeline.job" ev) eqn:Hm.
  - apply bind_Ok in Hj as (job & w0 & Hid & Hs).
    unfold lift in Hid. injection Hid as Hid <-.
    apply job_success_Ok in Hs as ->. exists [PutJobSuccessResult job].
    repeat split; [exact Hb| |right; eauto]. cbn. now rewrite <- app_assoc.
  - injection Hj as <-. exists []. repeat split; [exact Hb|]. now left.
Qed.

(** X18: when a request over an inventory returns, its calls are the
    inventory query, then for each gateway of the inventory, in order, one
    [create_tags] call that writes the tag [LastRequested] alone, with a
    reading of the clock of its own, then the success report to the job if the
    event has one, then the invocation of the downstream function; no wait
    for a pending gateway and no other call is made. *)
Theorem refresh_request_calls
    (ev : list (string * json)) (w : world) (l : list inventory_entry)
    (w0 : world) (out : json) (w' : world) :
  list_nat_gateways w = (Ok (Some l), w0) ->
  request_gateway_handler ev w = (Ok out, w') ->
  exists vpc payload report,
    environ w !! "VPC_ID" = Some vpc
    /\ event_body ev = Ok (JStr payload)
    /\ new_calls w w'
       = DescribeNatGateways ["pending"; "available"] vpc
         :: refresh_calls w (ticks w) l
         ++ report ++ [LambdaInvoke "afipApi" "Event" (JStr payload)]
    /\ ((dict_mem "CodePipeline.job" ev = false /\ report = [])
        \/ exists job, event_job_id ev = Ok job /\ report = [PutJobSuccessResult job])
    /\ ticks w' = (ticks w + length l)%nat.
Proof.
  intros Hl H. rewrite (handler_touch_eq _ _ _ _ Hl) in H.
  apply try_except_Ok in H; [|apply except_is_Err].
  apply bind_Ok in H as (info & w2 & He & Hf).
  apply bind_Ok in He as ([] & w1 & Ht & Hr). injection Hr as <- <-.
  apply list_nat_gateways_Some in Hl as (vpc & Hv & _ & _ & _ & ->).
  apply touch_loop_calls with (base := w) in Ht as (Htr & Hk & _); [|reflexivity].
  apply finish_Ok_report in Hf as (payload & report & Hb & Htr' & Hk' & Hrep).
  exists vpc, payload, report. split; [exact Hv|]. split; [exact Hb|].
  split; [|split; [exact Hrep|now rewrite Hk', Hk]].
  apply new_calls_app. rewrite Htr', Htr. cbn. now rewrite <- !app_assoc.
Qed.

(** *** A job without an identifier *)

(** X19: when the event has a [CodePipeline.job] entry from which no [id]
    can be read, the request flow ends in the exception of that lookup
    whatever the first phase did: the lookup fails in the [try] block after
    the gateway was ensured, or it fails in the [except] clause and replaces
    the exception being handled; no report is made to the job and the
    downstream function is not invoked. *)
Theorem job_without_id_masks_outcome
    (ev : list (string * json)) (w : world) (ej : exn) :
  dict_mem "CodePipeline.job" ev = true ->
  event_job_id ev = Err ej ->
  request_gateway_handler ev w = (Err ej, (request_gateway_ensure w).2).
Proof.
  intros Hm Hj.
  assert (Hex : forall e w1, request_gateway_except ev e w1 = (Err ej, w1)).
  { intros e w1. unfold request_gateway_except. now rewrite Hm, Hj. }
  unfold request_gateway_handler, try_except, request_gateway_try.
  unfold bind at 1.
  destruct (request_gateway_ensure w) as [[info|e] w1]; cbn [snd]; [|apply Hex].
  unfold request_gateway_finish. rewrite Hm, Hj.
  unfold bind at 1 2, lift at 1. apply Hex.
Qed.

(** *** What the inventory lists *)

(** X20: when the inventory query is answered, the inventory (empty when
    [list_nat_gateways] returns [None]) lists exactly the gateways of the
    network [VPC_ID] that are pending or available, each once, with its
    state, its creation time and its [LastRequested] tag, if any. *)
Theorem inventory_lists_running_gateways
    (w : world) (vpc : string) (gl : option (list inventory_entry)) (w0 : world) :
  environ w !! "VPC_ID" = Some vpc ->
  list_nat_gateways w = (Ok gl, w0) ->
  NoDup (entry_ids (default [] gl))
  /\ forall id st created tag,
       (id, st, created, tag) ∈ default [] gl
       <-> exists g,
             nat_gateways w !! id = Some g
             /\ gw_VpcId g = vpc
             /\ gw_State g ∈ ["pending"; "available"]
             /\ st = gw_State g
             /\ created = gw_CreateTime g
             /\ tag = gw_Tags g !! "LastRequested".
Proof.
  intros Hv Hl.
  assert (Hgl : default [] gl = inventory w vpc).
  { rewrite list_nat_gateways_eq, Hv in Hl. cbv zeta in Hl.
    destruct (faults w (length (trace w))); [discriminate|].
    injection Hl as <- _. now destruct (inventory w vpc). }
  rewrite Hgl. split; [apply entry_ids_NoDup|].
  intros id st created tag. unfold inventory. split.
  - intros Hin. apply list_elem_of_fmap in Hin as ([id' g] & Heq & Hin).
    apply list_elem_of_filter in Hin as [Hm Hin].
    apply elem_of_map_to_list in Hin. unfold project_gateway in Heq.
    cbn [fst snd] in Heq. injection Heq as -> -> -> ->. exists g.
    unfold gateway_matches in Hm. cbn [fst snd] in Hm.
    apply andb_true_iff in Hm as [Hs Hvpc].
    apply bool_decide_eq_true in Hs. apply String.eqb_eq in Hvpc.
    now repeat split.
  - intros (g & Hg & Hvpc & Hs & -> & -> & ->).
    apply list_elem_of_fmap. exists (id, g). split; [reflexivity|].
    apply list_elem_of_filter. split; [|now apply elem_of_map_to_list].
    unfold gateway_matches. cbn [fst snd]. apply andb_true_iff. split.
    + now apply bool_decide_eq_true.
    + now apply String.eqb_eq.
Qed.

(** *** The request flow returns when nothing is missing *)

Ltac fk :=
  solve_steps (fun w : world => eq_refl (faults w))
    (fun (w1 w2 w3 : world) (H1 : faults w2 = faults w1)
         (H2 : faults w3 = faults w2) => eq_trans H2 H1)
    ltac:(idtac; reflexivity).

Lemma fk_update g : steps (fun w w' => faults w' = faults w) (update_route_tables g).
Proof.
  unfold update_route_tables, update_route_table, ignore_route_not_found. fk.
Qed.

Lemma finish_served ev info w payload :
  (forall k, faults w k = None) ->
  event_body ev = Ok (JStr payload) ->
  (dict_mem "CodePipeline.job" ev = false
   \/ exists j, event_job_id ev = Ok (JStr j)) ->
  exists w', request_gateway_finish ev info w = (Ok (JDict info), w').
Proof.
  intros Hf Hb Hj. unfold request_gateway_finish.
  assert (Hinv : forall w1, (forall k, faults w1 k = None) ->
            exists w',
              bind (lift (event_body ev))
                (fun body => bind (invoke_lambda body) (fun _ => ret (JDict info))) w1
              = (Ok (JDict info), w')).
  { intros w1 Hf1. rewrite Hb. unfold bind at 1, lift.
    unfold bind, invoke_lambda, lambda_invoke.
    rewrite request_no_fault by apply Hf1. cbn. eauto. }
  destruct Hj as [Hm|(j & Hid)].
  - rewrite Hm. unfold bind at 1, ret at 1. now apply Hinv.
  - rewrite (event_job_id_mem _ _ Hid), Hid.
    unfold bind at 1 2, lift at 1. unfold cp_put_job_success_result.
    rewrite request_no_fault by apply Hf. cbn [validate_str].
    apply Hinv. intros k. apply Hf.
Qed.

Lemma touch_loop_served l w :
  (forall k, faults w k = None) ->
  (forall g, g ∈ l -> is_Some (nat_gateways w !! g.1.1.1)) ->
  exists w', for_each l touch_gateway w = (Ok tt, w') /\ faults w' = faults w.
Proof.
  revert w. induction l as [|g l IH]; intros w Hf Hl.
  - exists w. now split.
  - cbn [for_each].
    assert (Hg : touch_gateway g w
                 = (Ok tt,
                    set_nat_gateways
                      (alter (add_tags [("LastRequested",
                                         str_datetime (utcnow_at w (ticks w)))])
                         g.1.1.1 (nat_gateways w))
                      (log (CreateTags [g.1.1.1]
                              [("LastRequested", str_datetime (utcnow_at w (ticks w)))])
                         (set_ticks (S (ticks w)) w)))).
    { destruct g as [[[id st] created] tag]. unfold touch_gateway.
      unfold bind, datetime_utcnow. cbn [fst snd].
      rewrite create_tags_served; [reflexivity|apply Hf|].
      apply (Hl (id, st, created, tag)). left. }
    rewrite (bind_eq_Ok _ _ _ _ _ Hg).
    edestruct IH as (w' & Hrun & Hfk); [| |exists w'; split; [exact Hrun|exact Hfk]].
    + intros k. apply Hf.
    + intros g' Hin. cbn [nat_gateways set_nat_gateways].
      apply lookup_alter_is_Some. apply Hl. now right.
Qed.

(** X21: the request flow returns when nothing is missing.  With [VPC_ID]
    and [VPC_NAME] set, every call served, an event whose first record has a
    string body and whose job, if any, has a string [id], and, should the
    inventory be empty, a tagged address and a public subnet, the handler
    returns: status 200 alone after provisioning, status 200 with
    [nat-existing] after a refresh. *)
Theorem request_succeeds
    (ev : list (string * json)) (w : world) (vpc name payload : string) :
  environ w !! "VPC_ID" = Some vpc ->
  environ w !! "VPC_NAME" = Some name ->
  (forall k, faults w k = None) ->
  event_body ev = Ok (JStr payload) ->
  (dict_mem "CodePipeline.job" ev = false
   \/ exists j, event_job_id ev = Ok (JStr j)) ->
  (inventory w vpc = [] ->
   tagged_allocations w name <> [] /\ public_subnet_ids w vpc <> []) ->
  exists w',
    request_gateway_handler ev w
    = (Ok (JDict (match inventory w vpc with
                  | [] => [("statusCode", JNum 200)]
                  | _ => [("statusCode", JNum 200); ("nat-existing", JBool true)]
                  end)), w').
Proof.
  intros Hv Hn Hf Hb Hj Hin.
  pose proof (list_nat_gateways_eq w) as Hl. rewrite Hv, Hf in Hl. cbv zeta in Hl.
  set (w0 := log (DescribeNatGateways ["pending"; "available"] vpc) w) in *.
  destruct (inventory w vpc) as [|g0 l0] eqn:Ei.
  - (* provisioning *)
    destruct Hin as [Ha Hs]; [reflexivity|].
    destruct (head (tagged_allocations w name)) as [alloc|] eqn:Hh;
      [|destruct (tagged_allocations w name); [contradiction|discriminate]].
    destruct (create_nat_gateway_runs w0 name vpc alloc) as (id & w1 & Hc);
      [exact Hn|exact Hv|intros k _; apply Hf|exact Hh|exact Hs|].
    destruct (create_nat_gateway_inv _ _ _ Hc)
      as (n' & v' & a' & sn & s & _ & _ & _ & _ & _ & _ & _ & _ & _ & _ & _ & _
          & Hf1 & _).
    destruct (create_nat_gateway_new _ _ _ Hc) as (_ & Hsome & _).
    destruct (update_route_tables_served id w1 Hsome) as (w2 & Hu & _ & _).
    { intros k _. rewrite Hf1. apply Hf. }
    pose proof (fk_update id w1) as Hf2. rewrite Hu in Hf2. cbn [snd] in Hf2.
    destruct (finish_served ev [("statusCode", JNum 200)] w2 payload) as (w3 & Hfin);
      [intros k; rewrite Hf2, Hf1; apply Hf|exact Hb|exact Hj|].
    exists w3. rewrite (handler_provision_eq _ _ _ Hl).
    unfold try_except. unfold bind at 1 2. rewrite Hc. unfold bind at 1.
    rewrite Hu. unfold ret. now rewrite Hfin.
  - (* refresh *)
    destruct (touch_loop_served (g0 :: l0) w0) as (w1 & Ht & Hf1).
    { intros k. apply Hf. }
    { intros g Hg. rewrite <- Ei in Hg.
      destruct (entry_ids_elem w vpc g.1.1.1) as (gw & Hgw & _);
        [apply list_elem_of_fmap; eauto|]. cbn. rewrite Hgw. eauto. }
    destruct (finish_served ev [("statusCode", JNum 200); ("nat-existing", JBool true)]
                w1 payload) as (w2 & Hfin);
      [intros k; rewrite Hf1; apply Hf|exact Hb|exact Hj|].
    exists w2. rewrite (handler_touch_eq _ _ _ _ Hl).
    unfold try_except. unfold bind at 1 2. rewrite Ht. unfold ret. now rewrite Hfin.
Qed.

(** *** The check flow returns when the tags are readable *)

Lemma compute_inactivity_runs unc id st created tag w :
  tzinfo created = Some 0 ->
  match tag with
  | None => True
  | Some s => exists parsed, isoparse unc s = Ok parsed /\ tzinfo parsed = None
  end ->
  exists age inactive k,
    compute_inactivity unc (id, st, created, tag) w
    = (Ok (age, inactive), set_ticks k w).
Proof.
  intros Hc Htag.
  assert (Hnow : datetime_now (tzinfo created) w
                 = (Ok (replace_tzinfo (clock w (ticks w)) (Some 0)),
                    set_ticks (S (ticks w)) w)).
  { rewrite Hc. reflexivity. }
  assert (Hage : exists age,
             datetime_sub (replace_tzinfo (clock w (ticks w)) (Some 0)) created
             = Ok age).
  { unfold datetime_sub. cbn [tzinfo replace_tzinfo]. rewrite Hc. eauto. }
  destruct Hage as (age & Hage).
  destruct tag as [s|].
  - destruct Htag as (parsed & Hp & Hn).
    rewrite compute_inactivity_tag, Hnow, Hage, Hp. cbv zeta.
    unfold datetime_sub at 1, utcnow_at. cbn [tzinfo replace_tzinfo]. rewrite Hn.
    eexists _, _, _. reflexivity.
  - rewrite compute_inactivity_no_tag, Hnow, Hage. eexists _, _, _. reflexivity.
Qed.

Lemma reap_runs id age inactive w :
  (forall k, faults w k = None) ->
  is_Some (nat_gateways w !! id) ->
  exists r w',
    reap id age inactive w = (Ok r, w')
    /\ faults w' = faults w
    /\ forall id', is_Some (nat_gateways w !! id') -> is_Some (nat_gateways w' !! id').
Proof.
  intros Hf [g Hg]. unfold reap. destruct (REAP_THRESHOLD <=? inactive).
  - unfold bind, ec2_delete_nat_gateway. rewrite request_no_fault by apply Hf.
    change (nat_gateways (log (DeleteNatGateway id) w)) with (nat_gateways w).
    rewrite Hg. eexists _, _. split; [reflexivity|]. split; [reflexivity|].
    intros id' Hs. cbn. apply lookup_insert_is_Some'. now right.
  - eexists _, _. split; [reflexivity|]. now split.
Qed.

Lemma check_gateways_runs unc l acc w :
  (forall k, faults w k = None) ->
  (forall id st created tag,
      (id, st, created, tag) ∈ l ->
      is_Some (nat_gateways w !! id)
      /\ tzinfo created = Some 0
      /\ match tag with
         | None => True
         | Some s => exists parsed, isoparse unc s = Ok parsed /\ tzinfo parsed = None
         end) ->
  exists rs w', check_gateways unc l acc w = (Ok rs, w') /\ faults w' = faults w.
Proof.
  revert acc w. induction l as [|g l IH]; intros acc w Hf Hl.
  - exists acc, w. now split.
  - destruct g as [[[id st] created] tag].
    destruct (Hl id st created tag) as (Hs & Hc & Ht); [left|].
    destruct (compute_inactivity_runs unc id st created tag w Hc Ht)
      as (age & inactive & k & Hci).
    destruct (reap_runs id age inactive (set_ticks k w)) as (r & w1 & Hr & Hf1 & Hk);
      [exact Hf|exact Hs|].
    rewrite check_gateways_cons, check_gateway_eq, Hci. cbn [fst].
    rewrite Hr.
    destruct (IH (acc ++ [r]) w1) as (rs & w' & Hrun & Hf').
    + intros j. rewrite Hf1. apply Hf.
    + intros id' st' created' tag' Hin.
      destruct (Hl id' st' created' tag') as (Hs' & Hc' & Ht'); [now right|].
      split; [now apply Hk|now split].
    + exists rs, w'. split; [exact Hrun|]. now rewrite Hf', Hf1.
Qed.

(** X22: the check flow returns when the tags are readable.  With [VPC_ID]
    set, every call served, an event whose first record has a string body,
    creation times in UTC and, on every listed gateway that has a
    [LastRequested] tag, a tag that [isoparse] reads as a time without
    offset, [check_gateway_required] returns. *)
Theorem check_succeeds
    (unc : string -> result ((Z * Z * Z) * nat)) (ev : list (string * json))
    (w : world) (vpc payload : string) :
  environ w !! "VPC_ID" = Some vpc ->
  (forall k, faults w k = None) ->
  event_body ev = Ok (JStr payload) ->
  (forall id st created tag,
      (id, st, created, tag) ∈ inventory w vpc ->
      tzinfo created = Some 0
      /\ match tag with
         | None => True
         | Some s => exists parsed, isoparse unc s = Ok parsed /\ tzinfo parsed = None
         end) ->
  exists out w', check_gateway_required unc ev w = (Ok out, w').
Proof.
  intros Hv Hf Hb Htags.
  pose proof (list_nat_gateways_eq w) as Hl. rewrite Hv, Hf in Hl. cbv zeta in Hl.
  unfold check_gateway_required, bind at 1. rewrite Hl.
  destruct (inventory w vpc) as [|g0 l0] eqn:Ei; [eexists _, _; reflexivity|].
  destruct (check_gateways_runs unc (g0 :: l0) []
              (log (DescribeNatGateways ["pending"; "available"] vpc) w))
    as (rs & w1 & Hrun & Hf1).
  - intros k. apply Hf.
  - intros id st created tag Hin.
    destruct (Htags _ _ _ _ Hin) as [Hc Ht]. split; [|now split].
    rewrite <- Ei in Hin.
    destruct (entry_ids_elem w vpc id) as (gw & Hgw & _);
      [apply list_elem_of_fmap; eexists; split; [|exact Hin]; reflexivity|].
    cbn. rewrite Hgw. eauto.
  - unfold bind. rewrite Hrun. unfold check_gateway_report, bind, lift.
    rewrite Hb. unfold invoke_lambda, lambda_invoke.
    rewrite request_no_fault by (rewrite Hf1; apply Hf).
    cbn. eexists _, _. reflexivity.
Qed.

(** *** After every listed gateway was reaped *)

Lemma deleted_ids_all rs ids :
  record_gateway <$> rs = Some <$> ids ->
  Forall (fun r => record_action r = Some "deleted") rs ->
  deleted_ids rs = ids.
Proof.
  revert ids. induction rs as [|r rs IH]; intros [|id ids] Hg Ha;
    try discriminate; [reflexivity|].
  cbn in Hg. injection Hg as Hr Hg. apply Forall_cons in Ha as [Ha Hall].
  change (deleted_ids (r :: rs))
    with (match (match record_action r with
                 | Some a => if String.eqb a "deleted" then record_gateway r else None
                 | None => None
                 end) with
          | Some y => y :: deleted_ids rs
          | None => deleted_ids rs
          end).
  rewrite Ha, Hr. cbn. f_equal. now apply IH.
Qed.

Lemma env_trans (w1 w2 w3 : world) :
  environ w2 = environ w1 -> environ w3 = environ w2 -> environ w3 = environ w1.
Proof. congruence. Qed.

Ltac envk :=
  solve_steps (fun w : world => eq_refl (environ w)) env_trans
    ltac:(idtac; reflexivity).

Lemma env_check_gateways unc l acc :
  steps (fun w w' => environ w' = environ w) (check_gateways unc l acc).
Proof.
  revert acc. induction l as [|g l IH]; intros acc; cbn [check_gateways]; [envk|].
  apply (steps_bind _ env_trans); [|intros r; apply IH].
  unfold check_gateway, compute_inactivity, reap. destruct g as [[[? ?] ?] ?]. envk.
Qed.

Lemma env_check unc ev :
  steps (fun w w' => environ w' = environ w) (check_gateway_required unc ev).
Proof.
  unfold check_gateway_required.
  apply (steps_bind _ env_trans); [unfold list_nat_gateways; envk|].
  intros [l|]; [|envk].
  apply (steps_bind _ env_trans); [apply env_check_gateways|].
  intros rs. unfold check_gateway_report, invoke_lambda. envk.
Qed.

(** X23: when a check flow returns with every record of its action list
    marked deleted, no gateway of the network is pending or available any
    more: the next inventory query that is answered returns [None], so that
    the next check flow does nothing and the next request flow provisions a
    new gateway. *)
Theorem reaping_all_empties_inventory
    (unc : string -> result ((Z * Z * Z) * nat)) (ev : list (string * json))
    (w : world) (vpc : string) (rs : list json) (w' : world) :
  environ w !! "VPC_ID" = Some vpc ->
  check_gateway_required unc ev w = (Ok (JDict [("nat-changed", JList rs)]), w') ->
  Forall (fun r => record_action r = Some "deleted") rs ->
  inventory w' vpc = []
  /\ forall gl w0', list_nat_gateways w' = (Ok gl, w0') -> gl = None.
Proof.
  intros Hv H Hall.
  assert (Hinv : inventory w' vpc = []).
  { destruct (list_nat_gateways w) as [[[l|]|e] w0] eqn:Hl.
    - destruct (check_Ok _ _ _ _ _ _ _ Hl H)
        as (rs' & payload & [= <-] & Hids & _ & _ & _ & Hst).
      rewrite (deleted_ids_all _ _ Hids Hall) in Hst.
      apply list_nat_gateways_Some in Hl as (vpc' & Hv' & _ & <- & _).
      assert (vpc' = vpc) as -> by congruence.
      destruct (inventory w' vpc) as [|g l'] eqn:Ei; [reflexivity|exfalso].
      destruct (entry_ids_elem w' vpc g.1.1.1) as (gw' & Hgw' & Hm').
      { rewrite Ei. cbn. left. }
      destruct (rp_check unc ev w) as [_ Hg]. rewrite H in Hg. cbn [snd] in Hg.
      destruct (Hg g.1.1.1) as [E|(gw & _ & Hd & _)].
      + assert (Hin : g.1.1.1 ∈ entry_ids (inventory w vpc)).
        { eapply entry_ids_intro; [rewrite <- E; exact Hgw'|exact Hm']. }
        apply Hst in Hin. rewrite Hgw' in Hin. injection Hin as Hin.
        unfold gateway_matches in Hm'. cbn in Hm'. rewrite Hin in Hm'. discriminate.
      + rewrite Hgw' in Hd. injection Hd as ->.
        unfold gateway_matches in Hm'. cbn in Hm'. discriminate.
    - unfold check_gateway_required, bind in H. rewrite Hl in H. discriminate.
    - unfold check_gateway_required, bind in H. rewrite Hl in H. discriminate. }
  split; [exact Hinv|].
  intros gl w0' Hl'. rewrite list_nat_gateways_eq in Hl'.
  assert (Henv : environ w' = environ w).
  { pose proof (env_check unc ev w) as Hs. now rewrite H in Hs. }
  rewrite Henv, Hv, Hinv in Hl'. cbv zeta in Hl'.
  destruct (faults w' (length (trace w'))); [discriminate|]. now injection Hl' as <- _.
Qed.

(** *** The further theorems at the example worlds *)

Section AtMoreExamples.
Import Examples MoreExamples.

Lemma provisioning_succeeds_witness :
  exists id sn s g w',
    create_nat_gateway w_empty = (Ok id, w')
    /\ nat_gateways w_empty !! id = None
    /\ sn ∈ public_subnet_ids w_empty "vpc-1"
    /\ new_calls w_empty w'
       = [DescribeAddresses "OnDemandNAT-IPAddr" "main";
          DescribeSubnets "Yes" "vpc-1";
          CreateNatGateway (Some "eipalloc-1") sn;
          CreateTags [id] (provision_tags (utcnow_at w_empty (ticks w_empty)) "main");
          WaitNatGatewayAvailable [id]]
    /\ nat_gateways w' = <[id := g]> (nat_gateways w_empty)
    /\ gw_State g = "available"
    /\ s ∈ subnets w_empty /\ sn_SubnetId s = sn /\ gw_VpcId g = sn_VpcId s
    /\ (forall k, gw_Tags g !! k
                  = assoc_lookup k
                      (provision_tags (utcnow_at w_empty (ticks w_empty)) "main"))
    /\ route_tables w' = route_tables w_empty.
Proof.
  apply (provisioning_succeeds w_empty "main" "vpc-1" "eipalloc-1").
  - vm_compute. reflexivity.
  - vm_compute. reflexivity.
  - intros k _. reflexivity.
  - vm_compute. reflexivity.
  - vm_compute. discriminate.
Defined.

Lemma missing_environment_witness :
  check_gateway_required no_uncommon ev_plain (without_environ w_inventory)
  = (Err (KeyError "VPC_ID"), without_environ w_inventory)
  /\ request_gateway_handler ev_plain (without_environ w_inventory)
     = (Err (KeyError "VPC_ID"), without_environ w_inventory)
  /\ create_nat_gateway (without_environ w_empty)
     = (Err (KeyError "VPC_NAME"), without_environ w_empty).
Proof.
  destruct (missing_environment no_uncommon ev_plain (without_environ w_inventory))
    as [Hid _].
  destruct (missing_environment no_uncommon ev_plain (without_environ w_empty))
    as [_ Hname].
  destruct Hid as (_ & Hc & Hr & _); [vm_compute; reflexivity|].
  destruct Hname as (Hn & _); [vm_compute; reflexivity|].
  split; [exact Hc|]. split; [|exact Hn].
  apply Hr. vm_compute. reflexivity.
Defined.

Lemma check_deletes_listed_gateways_witness :
  exists del rest,
    new_calls w_inventory (check_gateway_required no_uncommon ev_plain w_inventory).2
    = DescribeNatGateways ["pending"; "available"] "vpc-1"
      :: (DeleteNatGateway <$> del) ++ rest
    /\ del `sublist_of` entry_ids (inventory w_inventory "vpc-1")
    /\ NoDup del
    /\ (rest = []
        \/ exists body,
             event_body ev_plain = Ok body
             /\ rest = [LambdaInvoke "afipApi" "Event" body])
    /\ forall id,
         id ∈ del ->
         exists g,
           nat_gateways w_inventory !! id = Some g
           /\ gw_VpcId g = "vpc-1"
           /\ gw_State g ∈ ["pending"; "available"].
Proof.
  apply (check_deletes_listed_gateways no_uncommon ev_plain w_inventory "vpc-1").
  vm_compute. reflexivity.
Defined.

Lemma check_report_matches_calls_witness :
  exists rs payload,
    (check_gateway_required no_uncommon ev_plain w_inventory).1
    = Ok (JDict [("nat-changed", JList rs)])
    /\ record_gateway <$> rs = Some <$> entry_ids (inventory w_inventory "vpc-1")
    /\ event_body ev_plain = Ok (JStr payload)
    /\ new_calls (list_nat_gateways w_inventory).2
         (check_gateway_required no_uncommon ev_plain w_inventory).2
       = (DeleteNatGateway <$> deleted_ids rs)
         ++ [LambdaInvoke "afipApi" "Event" (JStr payload)].
Proof.
  destruct (check_report_matches_calls no_uncommon ev_plain w_inventory
              (inventory w_inventory "vpc-1") (list_nat_gateways w_inventory).2
              (match (check_gateway_required no_uncommon ev_plain w_inventory).1 with
               | Ok out => out
               | Err _ => JNull
               end)
              (check_gateway_required no_uncommon ev_plain w_inventory).2)
    as (rs & payload & Ho & Hids & _ & Hb & Hc & _).
  - vm_compute. reflexivity.
  - vm_compute. reflexivity.
  - exists rs, payload. split; [rewrite <- Ho; vm_compute; reflexivity|].
    split; [exact Hids|]. split; [exact Hb|exact Hc].
Defined.

Lemma reaped_gateway_is_left_alone_witness :
  gw_State
    <$> nat_gateways (check_gateway_required no_uncommon ev_plain w_inventory).2
        !! "nat-a"
  = Some "deleting"
  /\ (DeleteNatGateway "nat-a"
      ∉ new_calls (check_gateway_required no_uncommon ev_plain w_inventory).2
          (check_gateway_required no_uncommon ev_plain
             (check_gateway_required no_uncommon ev_plain w_inventory).2).2).
Proof.
  destruct (reaped_gateway_is_left_alone no_uncommon ev_plain ev_plain w_inventory
              (match (check_gateway_required no_uncommon ev_plain w_inventory).1 with
               | Ok out => out
               | Err _ => JNull
               end)
              (check_gateway_required no_uncommon ev_plain w_inventory).2 "nat-a")
    as (Hs & _ & Hn & _).
  - vm_compute. reflexivity.
  - vm_compute.
    repeat first [apply list_elem_of_here | apply list_elem_of_further].
  - split; [exact Hs|exact Hn].
Defined.

Lemma failed_route_update_witness :
  default_route (update_route_table "nat-gone" "rtb-1" w_inventory).2 "rtb-1" = None
  /\ default_route w_inventory "rtb-1" = Some "nat-old".
Proof.
  split; [|vm_compute; reflexivity].
  apply (failed_route_update_leaves_no_default_route "nat-gone" "rtb-1" w_inventory
           (ClientError "InvalidNatGatewayID.NotFound"
              "The NAT gateway ID does not exist" "CreateRoute")
           (update_route_table "nat-gone" "rtb-1" w_inventory).2).
  - reflexivity.
  - vm_compute. reflexivity.
Defined.

Lemma route_convergence_succeeds_witness :
  exists w',
    update_route_tables "nat-a" w_inventory = (Ok tt, w')
    /\ new_calls w_inventory w' = converge_calls "nat-a" (on_demand_ids w_inventory)
    /\ forall rt, rt ∈ on_demand_ids w_inventory -> default_route w' rt = Some "nat-a".
Proof.
  apply (route_convergence_succeeds "nat-a" w_inventory).
  - vm_compute. eexists. reflexivity.
  - intros k _. reflexivity.
Defined.

Lemma route_convergence_idempotent_witness :
  exists w2,
    update_route_tables "nat-a" (update_route_tables "nat-a" w_inventory).2
    = (Ok tt, w2)
    /\ route_tables w2 = route_tables (update_route_tables "nat-a" w_inventory).2.
Proof.
  destruct (route_convergence_idempotent "nat-a" w_inventory
              (update_route_tables "nat-a" w_inventory).2)
    as (w2 & Hrun & Hr & _).
  - vm_compute. reflexivity.
  - intros k _. vm_compute. reflexivity.
  - exists w2. now split.
Defined.

Lemma success_then_failure_reported_witness :
  new_calls (request_gateway_ensure w_inventory).2
    (request_gateway_handler ev_no_records w_inventory).2
  = [PutJobSuccessResult (JStr "job-1");
     PutJobFailureResult (JStr "job-1") "JobFailed" "'Records'"]
  /\ is_Err (request_gateway_handler ev_no_records w_inventory).1.
Proof.
  destruct (success_then_failure_reported ev_no_records w_inventory
              [("statusCode", JNum 200); ("nat-existing", JBool true)]
              (request_gateway_ensure w_inventory).2 (JStr "job-1")
              (cp_put_job_success_result (JStr "job-1")
                 (request_gateway_ensure w_inventory).2).2) as [Hr _].
  - vm_compute. reflexivity.
  - vm_compute. reflexivity.
  - vm_compute. reflexivity.
  - destruct (Hr (KeyError "Records")) as (Hc & He & _); [vm_compute; reflexivity|].
    split; [exact Hc|exact He].
Defined.

Lemma success_notifies_downstream_once_witness :
  exists payload pre,
    event_body ev_job = Ok (JStr payload)
    /\ new_calls w_inventory (request_gateway_handler ev_job w_inventory).2
       = pre ++ [LambdaInvoke "afipApi" "Event" (JStr payload)]
    /\ forallb no_lambda pre = true.
Proof.
  apply (proj1 (success_notifies_downstream_once no_uncommon ev_job w_inventory
                  (JDict [("statusCode", JNum 200); ("nat-existing", JBool true)])
                  (request_gateway_handler ev_job w_inventory).2)).
  vm_compute. reflexivity.
Defined.

Lemma unusable_last_requested_tag_witness :
  (check_gateway no_uncommon
     ("nat-b", "available", mk_datetime 2024 1 1 10 0 0 0 (Some 0),
      Some "2024-01-01T11:30:00Z") w_inventory).1
  = Err (TypeError "can't subtract offset-naive and offset-aware datetimes")
  /\ is_Err (check_gateway no_uncommon
               ("nat-b", "available", mk_datetime 2024 1 1 10 0 0 0 (Some 0),
                Some "yesterday") w_inventory).1.
Proof.
  destruct (unusable_last_requested_tag no_uncommon "nat-b" "available"
              (mk_datetime 2024 1 1 10 0 0 0 (Some 0)) "2024-01-01T11:30:00Z"
              w_inventory) as [_ Haware].
  destruct (unusable_last_requested_tag no_uncommon "nat-b" "available"
              (mk_datetime 2024 1 1 10 0 0 0 (Some 0)) "yesterday"
              w_inventory) as [Hbad _].
  split.
  - destruct (Haware (mk_datetime 2024 1 1 11 30 0 0 (Some 0))) as (_ & _ & _ & Ht);
      [vm_compute; reflexivity|discriminate|].
    apply (Ht (mk_datetime 2024 1 1 12 0 0 0 (Some 0)) (set_ticks 1 w_inventory)
              (timedelta_minutes 120)); vm_compute; reflexivity.
  - destruct (Hbad (ValueError "ISO string could not be parsed")) as (He & _);
      [vm_compute; reflexivity|exact He].
Defined.

Lemma refresh_protects_for_45_minutes_witness :
  check_gateway no_uncommon
    ("nat-a", "available", mk_datetime 2024 1 1 11 0 0 0 (Some 0),
     Some "2024-01-01 12:00:00")
    (at_time half_past_noon
       (touch_gateway ("nat-a", "available", noon, None) w_inventory).2)
  = (Ok (action_record "skipped" "nat-a" (timedelta_minutes 90) (timedelta_minutes 30)),
     set_ticks 3
       (at_time half_past_noon
          (touch_gateway ("nat-a", "available", noon, None) w_inventory).2)).
Proof.
  destruct (refresh_protects_for_45_minutes no_uncommon
              ("nat-a", "available", noon, None) w_inventory
              (touch_gateway ("nat-a", "available", noon, None) w_inventory).2
              (at_time half_past_noon
                 (touch_gateway ("nat-a", "available", noon, None) w_inventory).2)
              (mk_nat_gateway "available" "vpc-1"
                 (mk_datetime 2024 1 1 11 0 0 0 (Some 0))
                 (<["LastRequested" := "2024-01-01 12:00:00"]> ∅))
              (mk_datetime 2024 1 1 12 30 0 0 (Some 0))
              (set_ticks 2
                 (at_time half_past_noon
                    (touch_gateway ("nat-a", "available", noon, None) w_inventory).2))
              (timedelta_minutes 90)) as (_ & Hskip & _).
  - reflexivity.
  - vm_compute. reflexivity.
  - vm_compute. reflexivity.
  - vm_compute. reflexivity.
  - vm_compute. reflexivity.
  - vm_compute. reflexivity.
  - specialize (Hskip ltac:(vm_compute; reflexivity)).
    etransitivity; [|etransitivity; [exact Hskip|]]; vm_compute; reflexivity.
Defined.

Lemma provisioned_gateway_is_reused_witness :
  exists id vpc,
    environ (request_gateway_handler ev_plain w_empty).2 !! "VPC_ID" = Some vpc
    /\ nat_gateways w_empty !! id = None
    /\ id ∈ entry_ids (inventory (request_gateway_handler ev_plain w_empty).2 vpc)
    /\ forallb no_create_gateway
         (new_calls (request_gateway_handler ev_plain w_empty).2
            (request_gateway_handler ev_job
               (request_gateway_handler ev_plain w_empty).2).2) = true.
Proof.
  destruct (provisioned_gateway_is_reused ev_plain ev_job w_empty
              (list_nat_gateways w_empty).2 (JDict [("statusCode", JNum 200)])
              (request_gateway_handler ev_plain w_empty).2)
    as (id & vpc & Hv & Hn & Hl & Hc & _).
  - vm_compute. reflexivity.
  - vm_compute. reflexivity.
  - cbn. repeat (apply NoDup_cons; split;
                 [rewrite ?elem_of_cons, elem_of_nil; intros H;
                  repeat (destruct H as [H|H]; try discriminate H); exact H|]).
    apply NoDup_nil_2.
  - exists id, vpc. repeat split; assumption.
Defined.

Lemma failed_provisioning_leaves_gateway_witness :
  is_Err (request_gateway_handler ev_plain w_tag_fault).1
  /\ is_Some (nat_gateways (request_gateway_handler ev_plain w_tag_fault).2
                !! fresh_string "nat-" (nat_gateways w_tag_fault))
  /\ route_tables (request_gateway_handler ev_plain w_tag_fault).2
     = route_tables w_tag_fault
  /\ keeps_routes (request_gateway_handler ev_plain w_tag_fault).2
       (request_gateway_handler ev_plain
          (request_gateway_handler ev_plain w_tag_fault).2).2.
Proof.
  destruct (failed_provisioning_leaves_gateway ev_plain ev_plain w_tag_fault
              (list_nat_gateways w_tag_fault).2
              (ClientError "RequestLimitExceeded" "Request limit exceeded." "CreateTags")
              (create_nat_gateway (list_nat_gateways w_tag_fault).2).2
              (fresh_string "nat-" (nat_gateways w_tag_fault))
              (mk_nat_gateway "pending" "vpc-1" (mk_datetime 2024 1 1 12 0 0 0 (Some 0)) ∅))
    as (He & Hg & _ & Hr & _ & _ & Hk).
  - vm_compute. reflexivity.
  - cbn. repeat (apply NoDup_cons; split;
                 [rewrite ?elem_of_cons, elem_of_nil; intros H;
                  repeat (destruct H as [H|H]; try discriminate H); exact H|]).
    apply NoDup_nil_2.
  - vm_compute. reflexivity.
  - vm_compute. reflexivity.
  - vm_compute. reflexivity.
  - split; [exact He|]. split; [rewrite Hg; eauto|]. split; [exact Hr|exact Hk].
Defined.

Lemma refresh_request_calls_witness :
  exists vpc payload report,
    environ w_inventory !! "VPC_ID" = Some vpc
    /\ event_body ev_job = Ok (JStr payload)
    /\ new_calls w_inventory (request_gateway_handler ev_job w_inventory).2
       = DescribeNatGateways ["pending"; "available"] vpc
         :: refresh_calls w_inventory (ticks w_inventory)
              (inventory w_inventory "vpc-1")
         ++ report ++ [LambdaInvoke "afipApi" "Event" (JStr payload)]
    /\ ((dict_mem "CodePipeline.job" ev_job = false /\ report = [])
        \/ exists job, event_job_id ev_job = Ok job /\ report = [PutJobSuccessResult job])
    /\ ticks (request_gateway_handler ev_job w_inventory).2
       = (ticks w_inventory + length (inventory w_inventory "vpc-1"))%nat.
Proof.
  apply (refresh_request_calls ev_job w_inventory (inventory w_inventory "vpc-1")
           (list_nat_gateways w_inventory).2
           (JDict [("statusCode", JNum 200); ("nat-existing", JBool true)])).
  - vm_compute. reflexivity.
  - vm_compute. reflexivity.
Defined.

Lemma job_without_id_masks_outcome_witness :
  request_gateway_handler ev_job_no_id w_inventory
  = (Err (KeyError "id"), (request_gateway_ensure w_inventory).2).
Proof.
  apply (job_without_id_masks_outcome ev_job_no_id w_inventory (KeyError "id")).
  - vm_compute. reflexivity.
  - vm_compute. reflexivity.
Defined.

Lemma inventory_lists_running_gateways_witness :
  NoDup (entry_ids (inventory w_inventory "vpc-1"))
  /\ forall id st created tag,
       (id, st, created, tag) ∈ inventory w_inventory "vpc-1"
       <-> exists g,
             nat_gateways w_inventory !! id = Some g
             /\ gw_VpcId g = "vpc-1"
             /\ gw_State g ∈ ["pending"; "available"]
             /\ st = gw_State g
             /\ created = gw_CreateTime g
             /\ tag = gw_Tags g !! "LastRequested".
Proof.
  apply (inventory_lists_running_gateways w_inventory "vpc-1"
           (Some (inventory w_inventory "vpc-1")) (list_nat_gateways w_inventory).2).
  - vm_compute. reflexivity.
  - vm_compute. reflexivity.
Defined.

Lemma request_succeeds_witness :
  exists w',
    request_gateway_handler ev_job w_empty
    = (Ok (JDict (match inventory w_empty "vpc-1" with
                  | [] => [("statusCode", JNum 200)]
                  | _ => [("statusCode", JNum 200); ("nat-existing", JBool true)]
                  end)), w').
Proof.
  apply (request_succeeds ev_job w_empty "vpc-1" "main" "payload").
  - vm_compute. reflexivity.
  - vm_compute. reflexivity.
  - intros k. reflexivity.
  - vm_compute. reflexivity.
  - right. exists "job-1". vm_compute. reflexivity.
  - intros _. split; vm_compute; discriminate.
Defined.

Lemma check_succeeds_witness :
  exists out w', check_gateway_required no_uncommon ev_plain w_inventory = (Ok out, w').
Proof.
  apply (check_succeeds no_uncommon ev_plain w_inventory "vpc-1" "payload").
  - vm_compute. reflexivity.
  - intros k. reflexivity.
  - vm_compute. reflexivity.
  - assert (Hinv : inventory w_inventory "vpc-1"
                   = [("nat-a", "available", mk_datetime 2024 1 1 11 0 0 0 (Some 0),
                       None);
                      ("nat-b", "available", mk_datetime 2024 1 1 10 0 0 0 (Some 0),
                       Some "2024-01-01 11:30:00")])
      by (vm_compute; reflexivity).
    intros id st created tag Hin. rewrite Hinv in Hin.
    apply elem_of_cons in Hin as [H|Hin].
    + injection H as -> -> -> ->. split; [reflexivity|exact I].
    + apply list_elem_of_singleton in Hin. injection Hin as -> -> -> ->.
      split; [reflexivity|]. exists (mk_datetime 2024 1 1 11 30 0 0 None).
      split; [vm_compute; reflexivity|reflexivity].
Defined.

Lemma reaping_all_empties_inventory_witness :
  inventory
    (check_gateway_required no_uncommon ev_plain (at_time one_o_clock w_inventory)).2
    "vpc-1" = [].
Proof.
  apply (reaping_all_empties_inventory no_uncommon ev_plain
           (at_time one_o_clock w_inventory) "vpc-1"
           (match (check_gateway_required no_uncommon ev_plain
                     (at_time one_o_clock w_inventory)).1 with
            | Ok (JDict [(_, JList rs)]) => rs
            | _ => []
            end)
           (check_gateway_required no_uncommon ev_plain
              (at_time one_o_clock w_inventory)).2).
  - vm_compute. reflexivity.
  - vm_compute. reflexivity.
  - vm_compute. repeat constructor.
Defined.

Lemma provisioning_protects_for_45_minutes_witness :
  new_calls (at_time one_o_clock w_provisioned)
    (check_gateway no_uncommon (project_gateway (new_id, new_gateway))
       (at_time one_o_clock w_provisioned)).2
  = [DeleteNatGateway new_id].
Proof.
  destruct (provisioning_protects_for_45_minutes no_uncommon new_id w_empty
              w_provisioned (at_time one_o_clock w_provisioned) new_gateway
              (mk_datetime 2024 1 1 13 0 0 0 (Some 0))
              (set_ticks 2 (at_time one_o_clock w_provisioned))
              (timedelta_minutes 60)) as (_ & _ & Hdel).
  - reflexivity.
  - vm_compute. reflexivity.
  - vm_compute. reflexivity.
  - vm_compute. reflexivity.
  - vm_compute. reflexivity.
  - vm_compute. reflexivity.
  - apply Hdel. vm_compute. discriminate.
Defined.

End AtMoreExamples.
